(** * Monaco deployment pipeline: a shallow embedding of the Go sources

    Packages embedded here, one Rocq module per Go package:
    - [idutils]  : internal/idutils/external_id.go
    - [deploy]   : pkg/deploy (DeployConfigs, deployConfig, deploySetting, ...)
    - [settings] : pkg/download/settings/settings.go
    - [delete]   : cmd/monaco/delete/delete.go

    Go strings are byte sequences and [len] counts bytes, so they are
    modelled by [string] (a list of 8-bit [ascii]).  Go maps are [gmap]s. *)

From Stdlib Require Import Strings.String Strings.Ascii NArith ZArith List Lia.
From stdpp Require Import base option list gmap strings countable pretty.

Local Open Scope string_scope.

(** ** package idutils *)
Module idutils.

(** [encoding/base64]: the alphabet of [base64.StdEncoding]. *)
Definition encodeStd : string :=
  "ABCDEFGHIJKLMNOPQRSTUVWXYZabcdefghijklmnopqrstuvwxyz0123456789+/".

(** [enc.encode[v & 0x3F]] *)
Definition encode (v : N) : ascii :=
  match String.get (N.to_nat (N.land v 63)) encodeStd with
  | Some c => c
  | None => "="%char
  end.

Definition StdPadding : ascii := "="%char.

(** [base64.StdEncoding.EncodeToString]: three source bytes make one 24-bit
    value that is cut into four 6-bit digits; a rest of one or two bytes is
    padded with [=]. *)
Fixpoint EncodeToString (src : string) : string :=
  match src with
  | String a (String b (String c rest)) =>
      let val := N.lor (N.lor (N.shiftl (N_of_ascii a) 16) (N.shiftl (N_of_ascii b) 8))
                       (N_of_ascii c) in
      String (encode (N.shiftr val 18))
        (String (encode (N.shiftr val 12))
           (String (encode (N.shiftr val 6))
              (String (encode val) (EncodeToString rest))))
  | String a (String b EmptyString) =>
      let val := N.lor (N.shiftl (N_of_ascii a) 16) (N.shiftl (N_of_ascii b) 8) in
      String (encode (N.shiftr val 18))
        (String (encode (N.shiftr val 12))
           (String (encode (N.shiftr val 6)) (String StdPadding EmptyString)))
  | String a EmptyString =>
      let val := N.shiftl (N_of_ascii a) 16 in
      String (encode (N.shiftr val 18))
        (String (encode (N.shiftr val 12))
           (String StdPadding (String StdPadding EmptyString)))
  | EmptyString => EmptyString
  end.

(** The Go slice expression [s[n:]] for [n <= len(s)]. *)
Fixpoint sliceFrom (n : nat) (s : string) : string :=
  match n, s with
  | O, _ => s
  | S n', String _ s' => sliceFrom n' s'
  | S _, EmptyString => EmptyString
  end.

(** The last [n] bytes of [s]: the Go expression [s[len(s)-n:]]. *)
Definition lastBytes (n : nat) (s : string) : string :=
  sliceFrom (String.length s - n) s.

Definition prefix : string := "monaco:".
Definition externalIDMaxLength : nat := 500.

(** [GenerateExternalID], external_id.go lines 27-43. *)
Definition GenerateExternalID (schema ID : string) : string :=
  let formattedID := schema ++ "$" ++ ID in
  let encodedID := EncodeToString formattedID in
  let encodedIDMaxLength := externalIDMaxLength - String.length prefix in
  let encodedID :=
    if Nat.ltb encodedIDMaxLength (String.length encodedID)
    then sliceFrom encodedIDMaxLength encodedID
    else encodedID in
  "monaco:" ++ encodedID.

(** A string of [n] copies of one byte, for long test inputs. *)
Fixpoint repeatByte (c : ascii) (n : nat) : string :=
  match n with
  | O => EmptyString
  | S n' => String c (repeatByte c n')
  end.

End idutils.

(** ** package coordinate *)
Module coordinate.

(** [coordinate.Coordinate]: the identity triple of a configuration. *)
Record Coordinate : Type := mk {
  Project : string;
  Type_ : string;
  ConfigId : string
}.

(** The zero value [Coordinate{}]. *)
Definition zero : Coordinate := mk "" "" "".

#[global] Instance Coordinate_eq_dec : EqDecision Coordinate.
Proof. solve_decision. Defined.

#[global] Instance Coordinate_countable : Countable Coordinate.
Proof.
  apply (inj_countable' (fun c => (Project c, Type_ c, ConfigId c))
                        (fun t => mk t.1.1 t.1.2 t.2)).
  intros []; reflexivity.
Defined.

End coordinate.

(** ** package api *)
Module api.

(** The [api.Api] interface as the record of what its methods return. *)
Record Api : Type := mk {
  GetId : string;
  IsNonUniqueNameApi : bool;
  DeprecatedBy : string
}.

(** [api.DynatraceEntity]: what an upsert hands back. *)
Record DynatraceEntity : Type := mkEntity {
  Id : string;
  Name : string
}.

(** [api.ApiMap = map[string]Api]; a missing key reads as [nil]. *)
Abbreviation ApiMap := (gmap string Api).

End api.

(** ** package parameter *)
Module parameter.

(** A dynamic value ([interface{}]) held in a property map.  The sources
    inspect such a value in two ways only: they compare it with a string
    ([scope == ""], true only for a value of dynamic type string) and they
    print it ([fmt.Sprint]).  A value that is not a string is therefore kept
    as its printed form. *)
Inductive Value : Type :=
| StringValue (s : string)
| OtherValue (printed : string).

#[global] Instance Value_eq_dec : EqDecision Value.
Proof. solve_decision. Defined.

(** [fmt.Sprint(v)] *)
Definition Sprint (v : Value) : string :=
  match v with
  | StringValue s => s
  | OtherValue printed => printed
  end.

(** [parameter.Properties = map[string]interface{}] *)
Abbreviation Properties := (gmap string Value).

(** [parameter.ResolvedEntity] *)
Record ResolvedEntity : Type := mk {
  EntityName : string;
  Coordinate : coordinate.Coordinate;
  Properties_ : Properties;
  Skip : bool
}.

(** The zero value [parameter.ResolvedEntity{}]; its nil property map reads
    like an empty one. *)
Definition zero : ResolvedEntity := mk "" coordinate.zero ∅ false.

(** [parameter.ResolvedEntities = map[coordinate.Coordinate]ResolvedEntity] *)
Abbreviation ResolvedEntities := (gmap coordinate.Coordinate ResolvedEntity).

(** Modelled from the spec: the [parameter.Parameter] interface is not part of
    the sources at hand.  Of the variants of spec section 3 the literal value
    (built by the download engine as [value.ValueParameter]) and the
    cross-config reference (a target Coordinate and a property name) are kept. *)
Inductive Parameter_ : Type :=
| ValueParameter (Value : Value)
| ReferenceParameter (Config : coordinate.Coordinate) (Property : string).

End parameter.

(** ** package config *)
Module config.

(** Modelled from the spec: the constant [config.IdParameter] is not part of
    the sources at hand; [id] is the property that spec section 3 names for
    the identifier a deployment produces. *)
Definition IdParameter : string := "id".

(** Modelled from the spec: the constant [config.NameParameter]; [name] is
    the first of the two reserved parameter names of spec section 3. *)
Definition NameParameter : string := "name".

(** Modelled from the spec: the constant [config.ScopeParameter]; [scope] is
    the second of the two reserved parameter names of spec section 3. *)
Definition ScopeParameter : string := "scope".

(** [config.Type] with the fields the sources read. *)
Record Type_ : Type := mkType {
  Api : string;
  SchemaId : string;
  SchemaVersion : string;
  EntitiesType : string
}.

(** A template: either built by the download engine through
    [template.NewDownloadTemplate(id, name, content)] or loaded from disk. *)
Inductive Template : Type :=
| NewDownloadTemplate (id name content : string)
| FileTemplate (path content : string).

(** [config.Config] *)
Record Config : Type := mk {
  Template_ : Template;
  Coordinate : coordinate.Coordinate;
  Type' : Type_;
  Parameters : gmap string parameter.Parameter_;
  Skip : bool;
  OriginObjectId : string
}.

End config.

(** ** Errors *)

(** Go's [error] values as far as these packages build them.
    - [errorString]: [errors.New] and [fmt.Errorf] without [%w];
    - [wrapError]: [fmt.Errorf] with [%w]: the formatted message and the
      wrapped error;
    - [configDeployErr]: what [newConfigDeployErr(conf, details)] returns; the
      helper is not part of the sources at hand, so the error keeps both of
      its arguments;
    - [failedTo]: [fmt.Errorf("failed to %s config %s: %w", verb, coordinate, err)]
      of DeployConfigs. *)
Inductive error : Type :=
| errorString (text : string)
| wrapError (msg : string) (err : error)
| configDeployErr (conf : config.Config) (details : string)
| failedTo (verb : string) (c : coordinate.Coordinate) (err : error).

(** The Go idiom [(T, error)]. *)
Inductive result (A : Type) : Type :=
| Ok (a : A)
| Err (err : error).
Arguments Ok {A} a.
Arguments Err {A} err.

(** How values that these sources only print are rendered: the [String]
    method of a Coordinate and the [Error] method of a configDeployErr. *)
Class Formats : Type := {
  CoordinateString : coordinate.Coordinate -> string;
  configDeployErrText : config.Config -> string -> string
}.

(** [err.Error()] *)
Fixpoint Error `{Formats} (err : error) : string :=
  match err with
  | errorString text => text
  | wrapError msg _ => msg
  | configDeployErr conf details => configDeployErrText conf details
  | failedTo verb c err' =>
      "failed to " ++ verb ++ " config " ++ CoordinateString c ++ ": " ++ Error err'
  end.

(** ** package client *)
Module client.

(** [client.SettingsObject]: the argument of UpsertSettings. *)
Record SettingsObject : Type := mkSettingsObject {
  Id : string;
  SchemaId : string;
  SchemaVersion : string;
  Scope : string;
  Content : string;
  OriginObjectId : string
}.

(** [client.DownloadSettingsObject]: one element of what ListSettings returns;
    [Value] is the raw JSON ([json.RawMessage]).  The fields [SchemaId],
    [SchemaVersion] and [Scope] carry a [D] here, SettingsObject has fields
    of these names. *)
Record DownloadSettingsObject : Type := mkDownloadSettingsObject {
  ObjectId : string;
  DSchemaId : string;
  DSchemaVersion : string;
  DScope : string;
  Value : string
}.

(** The upsert methods of [client.Client] ([ConfigClient] and
    [SettingsClient]).  A tenant is stateful: each method takes the tenant's
    state and returns the next one. *)
Class Client (S : Type) : Type := {
  UpsertConfigByName :
    api.Api -> string -> string -> S -> result api.DynatraceEntity * S;
  UpsertConfigByNonUniqueNameAndId :
    api.Api -> string -> string -> string -> S -> result api.DynatraceEntity * S;
  UpsertSettings :
    SettingsObject -> S -> result api.DynatraceEntity * S
}.

(** One client call with its arguments, as a test double would record it. *)
Inductive Call : Type :=
| CallUpsertConfigByName (a : api.Api) (name payload : string)
| CallUpsertConfigByNonUniqueNameAndId (a : api.Api) (entityId name payload : string)
| CallUpsertSettings (obj : SettingsObject).

End client.

(** ** package deploy *)
Module deploy.

(** [DeployConfigsOptions] *)
Record DeployConfigsOptions : Type := mkOptions {
  ContinueOnErr : bool;
  DryRun : bool
}.

(** Modelled from the spec: the EntityMap of package deploy is not part of the
    sources at hand.  After spec section 3 it is the mapping Coordinate ->
    ResolvedEntity built during one deployment, which "also tracks, per API
    type, the set of already-used names to detect duplicates". *)
Record EntityMap : Type := mkEntityMap {
  resolvedEntities : parameter.ResolvedEntities;
  knownEntityNames : gmap string (gset string)
}.

(** Modelled from the spec: a deployment starts with no resolved entity and no
    used name. *)
Definition NewEntityMap (apis : api.ApiMap) : EntityMap :=
  mkEntityMap ∅ ∅.

(** Modelled from the spec: the names already used for one API type. *)
Definition namesOf (r : EntityMap) (entityType : string) : gset string :=
  default ∅ (knownEntityNames r !! entityType).

(** Modelled from the spec: [PutResolved] stores the entity under the given
    Coordinate and marks its name as used for the Coordinate's type; a skipped
    entity was not deployed and uses no name. *)
Definition PutResolved (c : coordinate.Coordinate) (resolvedEntity : parameter.ResolvedEntity)
    (r : EntityMap) : EntityMap :=
  mkEntityMap
    (<[c := resolvedEntity]> (resolvedEntities r))
    (if parameter.Skip resolvedEntity then knownEntityNames r
     else <[coordinate.Type_ c :=
              {[parameter.EntityName resolvedEntity]} ∪ namesOf r (coordinate.Type_ c)]>
            (knownEntityNames r)).

(** Modelled from the spec: the Coordinate -> ResolvedEntity table. *)
Definition Resolved (r : EntityMap) : parameter.ResolvedEntities :=
  resolvedEntities r.

(** Modelled from the spec: is the name already used for the API type? *)
Definition Known (r : EntityMap) (entityType name : string) : bool :=
  bool_decide (name ∈ namesOf r entityType).

(** Functions of this repository that the deployment calls and whose sources
    are not at hand; they are parameters of the development.
    [resolveProperties] and [extractConfigName] belong to package deploy,
    [Render] is the method of config.Config, [IsEntities] and [IsSettings]
    are the methods of config.Type, the last three belong to idutils. *)
Class Helpers : Type := {
  resolveProperties :
    config.Config -> parameter.ResolvedEntities -> parameter.Properties * list error;
  extractConfigName : config.Config -> parameter.Properties -> result string;
  Render : config.Config -> parameter.Properties -> result string;
  IsEntities : config.Type_ -> bool;
  IsSettings : config.Type_ -> bool;
  IsUuid : string -> bool;
  IsMeId : string -> bool;
  GenerateUuidFromConfigId : string -> string -> string
}.

(** What the deployment writes to the log. *)
Inductive LogEvent : Type :=
| InfoSkipping (c : coordinate.Coordinate)
    (* log.Info("\tSkipping deployment of config %s", c.Coordinate) *)
| InfoAction (logAction : string) (c : coordinate.Coordinate)
    (* log.Info("\t%s config %s", logAction, c.Coordinate) *)
| DebugNotDeployable (entitiesType : string)
    (* log.Debug("Entities are not deployable, skipping entity type: %s", ...) *)
| WarnDeprecated (apiId deprecatedBy : string).
    (* log.Warn("API for \"%s\" is deprecated! ...", GetId(), DeprecatedBy()) *)

(** Everything outside the process that a deployment touches: the tenant
    behind the client, the client calls made so far (oldest first) and the
    log (oldest first). *)
Record World (S : Type) : Type := mkWorld {
  tenant : S;
  calls : list client.Call;
  logs : list LogEvent
}.
Arguments mkWorld {S} tenant calls logs.
Arguments tenant {S} w.
Arguments calls {S} w.
Arguments logs {S} w.

(** [getWordsForLogging], lines 127-132. *)
Definition getWordsForLogging (isDryRun : bool) : string * string :=
  if isDryRun then ("Validating", "validate") else ("Deploying", "deploy").

(** The verb that DeployConfigs puts into its error messages ([logVerb]). *)
Definition verbOf (opts : DeployConfigsOptions) : string :=
  (getWordsForLogging (DryRun opts)).2.

(** [extractScope], lines 243-254. *)
Definition extractScope (properties : parameter.Properties) : result string :=
  match properties !! config.ScopeParameter with
  | None =>
      Err (errorString ("property '" ++ config.ScopeParameter
                        ++ "' not found, this is most likely a bug"))
  | Some scope =>
      if decide (scope = parameter.StringValue "")
      then Err (errorString "resolved scope is empty")
      else Ok (parameter.Sprint scope)
  end.

Section Deployment.

Context {F : Formats} {Hp : Helpers} {S : Type} {Cl : client.Client S}.

Definition logEvent (e : LogEvent) (w : World S) : World S :=
  mkWorld (tenant w) (calls w) (logs w ++ [e])%list.

(** The three client methods, each call recorded in [calls]. *)
Definition callUpsertConfigByName (a : api.Api) (name payload : string) (w : World S)
    : result api.DynatraceEntity * World S :=
  let '(r, t) := client.UpsertConfigByName a name payload (tenant w) in
  (r, mkWorld t (calls w ++ [client.CallUpsertConfigByName a name payload])%list (logs w)).

Definition callUpsertConfigByNonUniqueNameAndId (a : api.Api) (entityId name payload : string)
    (w : World S) : result api.DynatraceEntity * World S :=
  let '(r, t) := client.UpsertConfigByNonUniqueNameAndId a entityId name payload (tenant w) in
  (r, mkWorld t
        (calls w ++ [client.CallUpsertConfigByNonUniqueNameAndId a entityId name payload])%list
        (logs w)).

Definition callUpsertSettings (obj : client.SettingsObject) (w : World S)
    : result api.DynatraceEntity * World S :=
  let '(r, t) := client.UpsertSettings obj (tenant w) in
  (r, mkWorld t (calls w ++ [client.CallUpsertSettings obj])%list (logs w)).

(** The id that [upsertNonUniqueNameConfig] hands to the client (the Go
    variable [entityUuid] at line 200). *)
Definition entityUuid (conf : config.Config) : string :=
  let configId := coordinate.ConfigId (config.Coordinate conf) in
  let projectId := coordinate.Project (config.Coordinate conf) in
  let entityUuid := configId in
  let isUuidOrMeId := IsUuid entityUuid || IsMeId entityUuid in
  if negb isUuidOrMeId then GenerateUuidFromConfigId projectId configId else entityUuid.

(** The stable id in the words of the specification: the configId if it
    already is a UUID or an ME-id, and the UUID derived from (project,
    configId) otherwise.  It is compared with [entityUuid] below. *)
Definition stableId (project configId : string) : string :=
  if IsUuid configId || IsMeId configId
  then configId
  else GenerateUuidFromConfigId project configId.

(** [upsertNonUniqueNameConfig], lines 189-201. *)
Definition upsertNonUniqueNameConfig (apiToDeploy : api.Api) (conf : config.Config)
    (configName renderedConfig : string) (w : World S)
    : result api.DynatraceEntity * World S :=
  callUpsertConfigByNonUniqueNameAndId apiToDeploy (entityUuid conf) configName renderedConfig w.

(** The entity both deploy functions return after a successful upsert: the
    resolved properties with [id] and [name] set from the client's answer. *)
Definition deployedEntity (conf : config.Config) (properties : parameter.Properties)
    (entity : api.DynatraceEntity) : parameter.ResolvedEntity :=
  let properties := <[config.IdParameter := parameter.StringValue (api.Id entity)]> properties in
  let properties := <[config.NameParameter := parameter.StringValue (api.Name entity)]> properties in
  parameter.mk (api.Name entity) (config.Coordinate conf) properties false.

(** [deployConfig], lines 134-187. *)
Definition deployConfig (apis : api.ApiMap) (entityMap : EntityMap) (conf : config.Config)
    (w : World S) : parameter.ResolvedEntity * list error * World S :=
  match apis !! coordinate.Type_ (config.Coordinate conf) with
  | None =>
      (parameter.zero,
       [errorString ("unknown api `" ++ config.Api (config.Type' conf)
                     ++ "`. this is most likely a bug")], w)
  | Some apiToDeploy =>
      let '(properties, errors) := resolveProperties conf (Resolved entityMap) in
      if Nat.ltb 0 (length errors) then (parameter.zero, errors, w) else
      match extractConfigName conf properties with
      | Err err => (parameter.zero, (errors ++ [err])%list, w)
      | Ok configName =>
          let errors :=
            if Known entityMap (api.GetId apiToDeploy) configName
               && negb (api.IsNonUniqueNameApi apiToDeploy)
            then (errors ++ [configDeployErr conf
                               ("duplicated config name `" ++ configName ++ "`")])%list
            else errors in
          if Nat.ltb 0 (length errors) then (parameter.zero, errors, w) else
          match Render conf properties with
          | Err err => (parameter.zero, [err], w)
          | Ok renderedConfig =>
              let w :=
                if decide (api.DeprecatedBy apiToDeploy = "") then w
                else logEvent (WarnDeprecated (api.GetId apiToDeploy)
                                              (api.DeprecatedBy apiToDeploy)) w in
              let '(r, w) :=
                if api.IsNonUniqueNameApi apiToDeploy
                then upsertNonUniqueNameConfig apiToDeploy conf configName renderedConfig w
                else callUpsertConfigByName apiToDeploy configName renderedConfig w in
              match r with
              | Err err => (parameter.zero, [configDeployErr conf (Error err)], w)
              | Ok entity => (deployedEntity conf properties entity, [], w)
              end
          end
      end
  end.

(** [deploySetting], lines 203-241. *)
Definition deploySetting (entityMap : EntityMap) (c : config.Config) (w : World S)
    : parameter.ResolvedEntity * list error * World S :=
  let '(properties, errors) := resolveProperties c (Resolved entityMap) in
  if Nat.ltb 0 (length errors) then (parameter.zero, errors, w) else
  match extractScope properties with
  | Err err => (parameter.zero, [err], w)
  | Ok scope =>
      match Render c properties with
      | Err err => (parameter.zero, [err], w)
      | Ok renderedConfig =>
          let '(r, w) :=
            callUpsertSettings
              (client.mkSettingsObject
                 (coordinate.ConfigId (config.Coordinate c))
                 (config.SchemaId (config.Type' c))
                 (config.SchemaVersion (config.Type' c))
                 scope
                 renderedConfig
                 (config.OriginObjectId c)) w in
          match r with
          | Err err => (parameter.zero, [configDeployErr c (Error err)], w)
          | Ok entity => (deployedEntity c properties entity, [], w)
          end
      end
  end.

(** The state of the loop of DeployConfigs between two iterations: the Go
    variables [entityMap] and [errors], and the world. *)
Record LoopState : Type := mkLoopState {
  entityMap : EntityMap;
  errors : list error;
  world : World S
}.

(** What an iteration ends with: the next iteration, or [return errors]. *)
Inductive Outcome : Type :=
| Continue (st : LoopState)
| Return (st : LoopState).

(** Lines 95-108 of an iteration for a config that is not skipped: the log
    line and the switch on the config's type.  The result holds the Go
    variables [entity] and [deploymentErrors] ([nil] is [[]]: every error list
    the deploy functions return is either nil or has an element). *)
Definition attempt (opts : DeployConfigsOptions) (apis : api.ApiMap) (c : config.Config)
    (st : LoopState) : parameter.ResolvedEntity * list error * World S :=
  let '(logAction, _) := getWordsForLogging (DryRun opts) in
  let w := logEvent (InfoAction logAction (config.Coordinate c)) (world st) in
  if IsEntities (config.Type' c) then
    (parameter.zero, [], logEvent (DebugNotDeployable (config.EntitiesType (config.Type' c))) w)
  else if IsSettings (config.Type' c) then deploySetting (entityMap st) c w
  else deployConfig apis (entityMap st) c w.

(** The Go variable [deploymentErrors] of the iteration for [c] begun in
    state [st]; a skipped config has none. *)
Definition deploymentErrors (opts : DeployConfigsOptions) (apis : api.ApiMap)
    (c : config.Config) (st : LoopState) : list error :=
  if config.Skip c then [] else (attempt opts apis c st).1.2.

(** One iteration of the loop of DeployConfigs, lines 80-120. *)
Definition iteration (opts : DeployConfigsOptions) (apis : api.ApiMap) (c : config.Config)
    (st : LoopState) : Outcome :=
  if config.Skip c then
    Continue
      (mkLoopState
         (PutResolved (config.Coordinate c)
            (parameter.mk (coordinate.ConfigId (config.Coordinate c))
                          (config.Coordinate c) ∅ true)
            (entityMap st))
         (errors st)
         (logEvent (InfoSkipping (config.Coordinate c)) (world st)))
  else
    let '(_, logVerb) := getWordsForLogging (DryRun opts) in
    let '(entity, deploymentErrors, w) := attempt opts apis c st in
    match deploymentErrors with
    | [] =>
        Continue (mkLoopState
                    (PutResolved (parameter.Coordinate entity) entity (entityMap st))
                    (errors st) w)
    | _ :: _ =>
        let errors :=
          (errors st ++ map (failedTo logVerb (config.Coordinate c)) deploymentErrors)%list in
        if negb (ContinueOnErr opts) && negb (DryRun opts)
        then Return (mkLoopState (entityMap st) errors w)
        else Continue (mkLoopState
                         (PutResolved (parameter.Coordinate entity) entity (entityMap st))
                         errors w)
    end.

(** The loop over [sortedConfigs]. *)
Fixpoint loop (opts : DeployConfigsOptions) (apis : api.ApiMap)
    (sortedConfigs : list config.Config) (st : LoopState) : LoopState :=
  match sortedConfigs with
  | [] => st
  | c :: rest =>
      match iteration opts apis c st with
      | Continue st' => loop opts apis rest st'
      | Return st' => st'
      end
  end.

(** DeployConfigs with everything it leaves behind: the final entity map, the
    returned errors and the world. *)
Definition runDeployConfigs (apis : api.ApiMap) (sortedConfigs : list config.Config)
    (opts : DeployConfigsOptions) (w : World S) : LoopState :=
  loop opts apis sortedConfigs (mkLoopState (NewEntityMap apis) [] w).

(** [DeployConfigs], lines 74-123: the returned errors and the world after. *)
Definition DeployConfigs (apis : api.ApiMap) (sortedConfigs : list config.Config)
    (opts : DeployConfigsOptions) (w : World S) : list error * World S :=
  let st := runDeployConfigs apis sortedConfigs opts w in
  (errors st, world st).

(** The Coordinates the log reports as handled, oldest first. *)
Definition handled (l : list LogEvent) : list coordinate.Coordinate :=
  omap (fun e => match e with
                 | InfoSkipping c => Some c
                 | InfoAction _ c => Some c
                 | _ => None
                 end) l.

(** What the client answers to a recorded call on a tenant in state [t]:
    the result of the method the call names, with the call's arguments. *)
Definition answer (call : client.Call) (t : S) : result api.DynatraceEntity * S :=
  match call with
  | client.CallUpsertConfigByName a name payload =>
      client.UpsertConfigByName a name payload t
  | client.CallUpsertConfigByNonUniqueNameAndId a entityId name payload =>
      client.UpsertConfigByNonUniqueNameAndId a entityId name payload t
  | client.CallUpsertSettings obj =>
      client.UpsertSettings obj t
  end.

(** Can the loop of DeployConfigs reach a client call for the config: it is
    neither skipped nor of type entities. *)
Definition deployable (c : config.Config) : bool :=
  negb (config.Skip c) && negb (IsEntities (config.Type' c)).

(** What DeployConfigs wraps into an error it returns: the Coordinate and the
    cause, without the verb. *)
Definition unwrapped (err : error) : option (coordinate.Coordinate * error) :=
  match err with
  | failedTo _ c cause => Some (c, cause)
  | _ => None
  end.

End Deployment.

(** Case analysis along the branches of the deploy functions. *)
Ltac split_deploy :=
  repeat match goal with
         | |- context [match ?x with _ => _ end] => destruct x eqn:?
         | H : context [match ?x with _ => _ end] |- _ => destruct x eqn:?
         end.

End deploy.

(** ** package settings (download) *)
Module settings.

(** [v2.ConfigsPerType = map[string][]config.Config] *)
Abbreviation ConfigsPerType := (gmap string (list config.Config)).

(** What convertAllObjects uses from outside this package: [encoding/json]
    ([Unmarshal] of a raw value into a [map[string]interface{}], here
    [JSONObject], and [MarshalIndent] with two spaces) and idutils. *)
Class Codec : Type := {
  JSONObject : Type;
  Unmarshal : string -> result JSONObject;
  MarshalIndent : string -> result string;
  GenerateUuidFromName : string -> string
}.

(** [client.SettingsClient] as the download uses it: [ListSettings(schema,
    ListSettingsOptions{})].  Listing does not change the tenant, and the
    tenant is taken as not changing while a download runs: the answer is a
    function of the schema. *)
Record SettingsClient : Type := mkSettingsClient {
  ListSettings : string -> result (list client.DownloadSettingsObject)
}.

Section Download.

Context {Co : Codec}.

(** [Filter]: [ShouldDiscard] inspects the parsed value and answers with
    (discard, reason). *)
Record Filter : Type := mkFilter {
  ShouldDiscard : JSONObject -> bool * string
}.

(** [Filters]: the filters by schema id. *)
Definition Filters : Type := gmap string Filter.

(** Modelled from the spec: [Filters.Get] is not part of the sources at hand.
    After spec section 4.5 "per-schema filters may discard objects by
    inspecting the parsed value"; a schema without a filter discards nothing. *)
Definition Get (filters : Filters) (schemaId : string) : Filter :=
  default (mkFilter (fun _ => (false, ""))) (filters !! schemaId).

(** [Downloader] *)
Record Downloader : Type := mkDownloader {
  client_ : SettingsClient;
  filters_ : Filters
}.

(** Lines 144-172 of convertAllObjects: the config built from one object. *)
Definition convertObject (o : client.DownloadSettingsObject) (projectName : string)
    : config.Config :=
  let content :=
    match MarshalIndent (client.Value o) with
    | Ok bytes => bytes
    | Err _ => client.Value o
    end in
  let configId := GenerateUuidFromName (client.ObjectId o) in
  config.mk
    (config.NewDownloadTemplate configId configId content)
    (coordinate.mk projectName (client.DSchemaId o) configId)
    (config.mkType "" (client.DSchemaId o) (client.DSchemaVersion o) "")
    (<[config.NameParameter := parameter.ValueParameter (parameter.StringValue configId)]>
       (<[config.ScopeParameter :=
            parameter.ValueParameter (parameter.StringValue (client.DScope o))]> ∅))
    false
    (client.ObjectId o).

(** The loop of convertAllObjects with the Go variable [result] as an
    accumulator: a value that does not parse ends the loop ([return result]),
    a discarded object is passed over ([continue]). *)
Fixpoint convertLoop (d : Downloader) (objects : list client.DownloadSettingsObject)
    (projectName : string) (result : list config.Config) : list config.Config :=
  match objects with
  | [] => result
  | o :: rest =>
      match Unmarshal (client.Value o) with
      | Err _ => result
      | Ok contentUnmarshalled =>
          if (ShouldDiscard (Get (filters_ d) (client.DSchemaId o)) contentUnmarshalled).1
          then convertLoop d rest projectName result
          else convertLoop d rest projectName (result ++ [convertObject o projectName])%list
      end
  end.

(** [Downloader.convertAllObjects], lines 128-176 (log output left out). *)
Definition convertAllObjects (d : Downloader) (objects : list client.DownloadSettingsObject)
    (projectName : string) : list config.Config :=
  convertLoop d objects projectName [].

(** The body of one goroutine of [download], lines 106-121, as its effect on
    the shared map: the only access is the assignment under the mutex. *)
Definition downloadOne (d : Downloader) (projectName : string) (s : string)
    (results : ConfigsPerType) : ConfigsPerType :=
  match ListSettings (client_ d) s with
  | Err _ => results
  | Ok objects =>
      if Nat.eqb (length objects) 0 then results
      else <[s := convertAllObjects d objects projectName]> results
  end.

(** What the goroutine for schema [s] assigns to [results[s]], if anything. *)
Definition assigned (d : Downloader) (projectName : string) (s : string)
    : option (list config.Config) :=
  match ListSettings (client_ d) s with
  | Err _ => None
  | Ok objects =>
      if Nat.eqb (length objects) 0 then None
      else Some (convertAllObjects d objects projectName)
  end.

(** [download] when the goroutines reach the mutex in the order [order]. *)
Definition downloadIn (d : Downloader) (order : list string) (projectName : string)
    : ConfigsPerType :=
  foldl (fun results s => downloadOne d projectName s results) ∅ order.

(** [Downloader.download], lines 100-126: one goroutine per schema, joined
    before the map is returned.  Each goroutine writes at most once, under
    the mutex, so a run is an order of the schemas; the order of the list is
    taken here, and [download_in_any_order] below shows that every other
    order gives the same map. *)
Definition download (d : Downloader) (schemas : list string) (projectName : string)
    : ConfigsPerType :=
  downloadIn d schemas projectName.

(** [Downloader.Download], lines 76-78. *)
Definition Download (d : Downloader) (schemaIDs : list string) (projectName : string)
    : ConfigsPerType :=
  download d schemaIDs projectName.

(** Does the object reach the result: its value parses and the filter of its
    schema keeps it. *)
Definition survives (d : Downloader) (o : client.DownloadSettingsObject) : bool :=
  match Unmarshal (client.Value o) with
  | Err _ => false
  | Ok contentUnmarshalled =>
      negb (ShouldDiscard (Get (filters_ d) (client.DSchemaId o)) contentUnmarshalled).1
  end.

(** Does the object's value parse as a JSON object. *)
Definition parses (o : client.DownloadSettingsObject) : bool :=
  match Unmarshal (client.Value o) with
  | Err _ => false
  | Ok _ => true
  end.

(** The objects that the loop of convertAllObjects gets to: those listed
    before the first one whose value does not parse. *)
Fixpoint parsedPrefix (objects : list client.DownloadSettingsObject)
    : list client.DownloadSettingsObject :=
  match objects with
  | [] => []
  | o :: rest => if parses o then o :: parsedPrefix rest else []
  end.

(** [WithFilters], lines 45-49: the option that sets the filters. *)
Definition WithFilters (filters : Filters) : Downloader -> Downloader :=
  fun d => mkDownloader (client_ d) filters.

(** [NewSettingsDownloader], lines 52-61.  The variable
    [defaultSettingsFilters] is not part of the sources at hand and is a
    parameter; the options are applied in the order given. *)
Definition NewSettingsDownloader (defaultSettingsFilters : Filters)
    (client : SettingsClient) (opts : list (Downloader -> Downloader)) : Downloader :=
  foldl (fun d o => o d) (mkDownloader client defaultSettingsFilters) opts.

(** One element of what [ListSchemas] returns. *)
Record Schema : Type := mkSchema {
  SchemaId : string
}.

(** [Downloader.DownloadAll], lines 82-98.  [listed] is the answer of
    [d.client.ListSchemas()]; the nil map returned after an error reads like
    an empty one. *)
Definition DownloadAll (d : Downloader) (listed : result (list Schema))
    (projectName : string) : ConfigsPerType :=
  match listed with
  | Err _ => ∅
  | Ok schemas =>
      let ids := foldl (fun ids i => (ids ++ [SchemaId i])%list) [] schemas in
      download d ids projectName
  end.

End Download.

End settings.

(** ** package manifest *)
Module manifest.

(** Modelled from the spec: the loaded manifest is not part of the sources at
    hand.  An environment has the name delete.go reads ([env.Name]) and
    belongs to the environment group that the group filter of spec section 6
    selects by. *)
Record EnvironmentDefinition : Type := mkEnvironment {
  Name : string;
  Group : string
}.

(** [manifest.Environments = map[string]EnvironmentDefinition], by name. *)
Abbreviation Environments := (gmap string EnvironmentDefinition).

(** The manifest as far as Delete reads it. *)
Record Manifest : Type := mkManifest {
  Environments_ : Environments
}.

End manifest.

(** ** package delete (cmd/monaco/delete) *)
Module delete.

(** What Delete calls outside delete.go.  [Abs] is [filepath.Abs] after
    [filepath.Clean]; [LoadManifest], [LoadEntriesToDelete] and
    [DeleteConfigs] read the file system or talk to a tenant; their answers
    are taken as given.  [Quote] is the [%q] verb of package fmt. *)
Class Collaborators : Type := {
  Fs : Type;
  Entries : Type;
  ClientT : Type;
  DummyClient : ClientT;
  Abs : string -> result string;
  ReplaceAll : string -> string -> string -> string;
  Quote : string -> string;
  NewApis : api.ApiMap;
  GetApiNames : api.ApiMap -> list string;
  LoadManifest : Fs -> string -> manifest.Manifest * list error;
  LoadEntriesToDelete : Fs -> list string -> string -> string -> Entries * list error;
  FilterByGroup : manifest.Environments -> string -> manifest.Environments;
  FilterByNames : manifest.Environments -> list string -> result manifest.Environments;
  GetToken : manifest.EnvironmentDefinition -> result string;
  GetUrl : manifest.EnvironmentDefinition -> result string;
  NewDynatraceClient : string -> string -> result ClientT;
  DeleteConfigs : ClientT -> api.ApiMap -> Entries -> list error
}.

(** What Delete leaves behind besides its return value: the environments
    handed to deleteConfigForEnvironment, in the order of the loop. *)
Record Outcome : Type := mkOutcome {
  returned : option error;
  acted : list manifest.EnvironmentDefinition
}.

Section Delete.

Context {F : Formats} {Co : Collaborators}.

(** [fmt.Sprintf("%s", errs)] for a slice of errors. *)
Definition SprintErrors (errs : list error) : string :=
  "[" ++ String.concat " " (map Error errs) ++ "]".

(** [createClient], lines 124-141. *)
Definition createClient (environment : manifest.EnvironmentDefinition) (dryRun : bool)
    : result ClientT :=
  if dryRun then Ok DummyClient else
  match GetToken environment with
  | Err err => Err err
  | Ok token =>
      match GetUrl environment with
      | Err err => Err err
      | Ok url => NewDynatraceClient url token
      end
  end.

(** [deleteConfigForEnvironment], lines 110-122. *)
Definition deleteConfigForEnvironment (env : manifest.EnvironmentDefinition)
    (apis : api.ApiMap) (entriesToDelete : Entries) : list error :=
  match createClient env false with
  | Err err =>
      [wrapError ("It was not possible to create a client for env `" ++ manifest.Name env
                  ++ "` due to the following error: " ++ Error err) err]
  | Ok dynatraceClient => DeleteConfigs dynatraceClient apis entriesToDelete
  end.

(** [deleteConfigs], lines 97-108. *)
Fixpoint deleteConfigs (environments : list manifest.EnvironmentDefinition)
    (apis : api.ApiMap) (entriesToDelete : Entries) : list error :=
  match environments with
  | [] => []
  | env :: rest =>
      (deleteConfigForEnvironment env apis entriesToDelete
       ++ deleteConfigs rest apis entriesToDelete)%list
  end.

(** Lines 67-84 of Delete: the environments to act upon. *)
Definition selectEnvironments (m : manifest.Manifest) (environmentNames : list string)
    (environmentGroup : string) : result manifest.Environments :=
  let environments := manifest.Environments_ m in
  let afterGroup :=
    if decide (environmentGroup = "") then Ok environments
    else
      let environments := FilterByGroup environments environmentGroup in
      if Nat.eqb (size environments) 0
      then Err (errorString ("no environments in group " ++ Quote environmentGroup))
      else Ok environments in
  match afterGroup with
  | Err err => Err err
  | Ok environments =>
      if Nat.ltb 0 (length environmentNames) then
        match FilterByNames (manifest.Environments_ m) environmentNames with
        | Err err => Err (wrapError ("failed to load environments: " ++ Error err) err)
        | Ok environments => Ok environments
        end
      else Ok environments
  end.

(** [Delete], lines 33-95.  When [filepath.Abs] fails it returns the empty
    path, and that is the path the message then shows.  A nil error slice is
    the empty list.  [maps.Values] lists the selected environments in an
    order Go does not fix; the order of [map_to_list] stands for it.  Log
    output is left out. *)
Definition Delete (fs : Fs) (deploymentManifestPath deletePath : string)
    (environmentNames : list string) (environmentGroup : string) : Outcome :=
  match Abs deploymentManifestPath with
  | Err manifestErr =>
      let deploymentManifestPath := "" in
      mkOutcome (Some (wrapError ("error while finding absolute path for `"
                                  ++ deploymentManifestPath ++ "`: " ++ Error manifestErr)
                                 manifestErr)) []
  | Ok deploymentManifestPath =>
      match Abs deletePath with
      | Err deleteErr =>
          let deletePath := "" in
          mkOutcome (Some (wrapError ("error while finding absolute path for `"
                                      ++ deletePath ++ "`: " ++ Error deleteErr)
                                     deleteErr)) []
      | Ok deletePath =>
          let deleteFileWorkingDir := ReplaceAll deletePath "delete.yaml" "" in
          let deleteFile := "delete.yaml" in
          let apis := NewApis in
          let '(m, manifestLoadError) := LoadManifest fs deploymentManifestPath in
          match manifestLoadError with
          | _ :: _ => mkOutcome (Some (errorString "error while loading manifest")) []
          | [] =>
              let '(entriesToDelete, errs) :=
                LoadEntriesToDelete fs (GetApiNames apis) deleteFileWorkingDir deleteFile in
              match errs with
              | _ :: _ =>
                  mkOutcome
                    (Some (errorString ("encountered errors while parsing delete.yaml: "
                                        ++ SprintErrors errs))) []
              | [] =>
                  match selectEnvironments m environmentNames environmentGroup with
                  | Err err => mkOutcome (Some err) []
                  | Ok environments =>
                      let selected := (map_to_list environments).*2 in
                      let deleteErrors := deleteConfigs selected apis entriesToDelete in
                      mkOutcome
                        (if Nat.ltb 0 (length deleteErrors)
                         then Some (errorString
                                      ("encountered " ++ pretty (length deleteErrors)
                                       ++ " errors during delete"))
                         else None)
                        selected
                  end
              end
          end
      end
  end.

End Delete.

End delete.

(** ** package downloader (the filters of the classic download) *)
Module downloader.

(** A value as [encoding/json] decodes it into [interface{}]: nil, bool,
    number (kept as its literal; the filters never look at one), string,
    slice or [map[string]interface{}]. *)
Local Unset Elimination Schemes.
Inductive JSON : Type :=
| JNull
| JBool (b : bool)
| JNumber (literal : string)
| JString (s : string)
| JArray (items : list JSON)
| JObject (fields : gmap string JSON).
Local Set Elimination Schemes.

(** [json[key]]: a missing key reads as nil, like a key that holds null. *)
Definition index (json : gmap string JSON) (key : string) : JSON :=
  default JNull (json !! key).

(** [v != nil] *)
Definition notNil (v : JSON) : bool :=
  match v with
  | JNull => false
  | _ => true
  end.

(** [v == true]: only a bool compares equal to a bool. *)
Definition isTrue (v : JSON) : bool :=
  match v with
  | JBool true => true
  | _ => false
  end.

(** [v != s] for a string constant [s]. *)
Definition isNotString (v : JSON) (s : string) : bool :=
  match v with
  | JString s' => negb (bool_decide (s' = s))
  | _ => true
  end.

(** A call either returns or panics (a failed type assertion). *)
Inductive Run (A : Type) : Type :=
| Returns (a : A)
| Panics.
Arguments Returns {A} a.
Arguments Panics {A}.

(** [api.Value] with the field the filters read ([Owner *string]). *)
Record Value : Type := mkValue {
  Owner : option string
}.

(** [apiFilter]: both callbacks are optional (nil when absent). *)
Record apiFilter : Type := mkApiFilter {
  shouldBeSkippedPreDownload : option (Value -> bool);
  shouldConfigBePersisted_ : option (gmap string JSON -> Run bool)
}.

(** The callbacks of the entry "dashboard". *)
Definition dashboardSkippedPreDownload (value : Value) : bool :=
  match Owner value with
  | Some owner => bool_decide (owner = "Dynatrace")
  | None => false
  end.

Definition dashboardPersisted (json : gmap string JSON) : Run bool :=
  if notNil (index json "dashboardMetadata") then
    match index json "dashboardMetadata" with
    | JObject metadata =>
        if notNil (index metadata "preset") && isTrue (index metadata "preset")
        then Returns false
        else Returns true
    | _ => Panics
    end
  else Returns true.

(** The callback of the entry "synthetic-location". *)
Definition syntheticLocationPersisted (json : gmap string JSON) : Run bool :=
  Returns (isNotString (index json "type") "PRIVATE").

(** [apiFilters] *)
Definition apiFilters : gmap string apiFilter :=
  <["dashboard" := mkApiFilter (Some dashboardSkippedPreDownload) (Some dashboardPersisted)]>
    (<["synthetic-location" := mkApiFilter None (Some syntheticLocationPersisted)]> ∅).

(** [apiFilters[id]]: a missing key gives the zero value, with both callbacks
    nil. *)
Definition filterOf (id : string) : apiFilter :=
  default (mkApiFilter None None) (apiFilters !! id).

(** [shouldConfigBeSkipped] *)
Definition shouldConfigBeSkipped (a : api.Api) (value : Value) : bool :=
  match shouldBeSkippedPreDownload (filterOf (api.GetId a)) with
  | Some callback => callback value
  | None => false
  end.

(** [shouldConfigBePersisted] *)
Definition shouldConfigBePersisted (a : api.Api) (json : gmap string JSON) : Run bool :=
  match shouldConfigBePersisted_ (filterOf (api.GetId a)) with
  | Some callback => callback json
  | None => Returns true
  end.

End downloader.

(** ** package v1 (project): paths of a project folder *)
Module project.

Section Paths.

(** [os.PathSeparator] *)
Variable PathSeparator : ascii.

(** [string(os.PathSeparator)] *)
Definition separator : string := String PathSeparator EmptyString.

(** [strings.Split(s, string(os.PathSeparator))]: the pieces between the
    separators, one more than there are separators. *)
Fixpoint Split (s : string) : list string :=
  match s with
  | EmptyString => [EmptyString]
  | String c rest =>
      if Ascii.eqb c PathSeparator then EmptyString :: Split rest
      else match Split rest with
           | first :: others => String c first :: others
           | [] => [String c EmptyString]
           end
  end.

(** [strings.Join(elems, string(os.PathSeparator))] *)
Fixpoint Join (elems : list string) : string :=
  match elems with
  | [] => EmptyString
  | [e] => e
  | e :: rest => e ++ separator ++ Join rest
  end.

(** [removeYamlFileFromPath]: the path without its last piece. *)
Definition removeYamlFileFromPath (location : string) : result string :=
  let split := Split location in
  if Nat.leb (length split) 1
  then Err (errorString ("path " ++ location ++ " too short"))
  else Ok (Join (take (length split - 1) split)).

(** The loop of getConfigTypeFromLocation when its index is about to go from
    [n] to [n-1]: the pieces [n-1], [n-2], ..., [0] are looked up in turn. *)
Fixpoint lookDown (apis : api.ApiMap) (split : list string) (n : nat) : option api.Api :=
  match n with
  | O => None
  | Datatypes.S i =>
      match split !! i with
      | Some potentialApi =>
          match apis !! potentialApi with
          | Some a => Some a
          | None => lookDown apis split i
          end
      | None => lookDown apis split i
      end
  end.

(** [getConfigTypeFromLocation] (and [getExtendedInformationFromLocation],
    which only calls it): the loop starts at the piece before the last. *)
Definition getConfigTypeFromLocation (apis : api.ApiMap) (location : string)
    : result api.Api :=
  let split := Split location in
  if Nat.leb (length split) 1
  then Err (errorString ("path " ++ location ++ " too short"))
  else match lookDown apis split (length split - 1) with
       | Some a => Ok a
       | None => Err (errorString ("API was unknown. Not found in " ++ location))
       end.

(** Is the string free of separators, as the name of a file or folder is. *)
Fixpoint isName (s : string) : bool :=
  match s with
  | EmptyString => true
  | String c rest => negb (Ascii.eqb c PathSeparator) && isName rest
  end.

End Paths.

(** [os.FileInfo] as readFolder reads it. *)
Record FileInfo : Type := mkFileInfo {
  Name : string;
  IsDir : bool
}.

(** What the project builder uses from outside this file, each with the
    result pair of its Go signature: the type of a config of package
    config/v1 and the factory [p.configFactory.NewConfig], the file system
    [p.fs] behind [afero.ReadDir] and [afero.ReadFile], [filepath.Join],
    [files.IsYamlFileExtension], the YAML parser
    ([template.UnmarshalYamlFunc]) and [errutils.CheckError]. *)
Class Environment : Type := {
  Config : Type;
  ReadDir : string -> list FileInfo * option error;
  ReadFile : string -> string * option error;
  FilepathJoin : string -> string -> string;
  IsYamlFileExtension : string -> bool;
  unmarshalYaml : string -> string -> gmap string (gmap string string) * option error;
  NewConfig :
    string -> string -> string -> gmap string (gmap string string) -> option api.Api ->
    Config * option error;
  CheckError : option error -> string -> bool
}.

Section Builder.

Variable PathSeparator : ascii.
Context {E : Environment}.

(** [projectBuilder] without the fields that are part of [Environment]. *)
Record projectBuilder : Type := mkBuilder {
  projectRootFolder : string;
  projectId : string;
  configs : list Config;
  apis : api.ApiMap
}.

(** [p.configs = append(p.configs, c)] *)
Definition appendConfig (p : projectBuilder) (c : Config) : projectBuilder :=
  mkBuilder (projectRootFolder p) (projectId p) (configs p ++ [c])%list (apis p).

(** [standardizeLocation] *)
Definition standardizeLocation (p : projectBuilder) (location folderPath : string) : string :=
  if String.prefix (separator PathSeparator) location
  then FilepathJoin (projectRootFolder p) location
  else FilepathJoin folderPath location.

(** [getExtendedInformationFromLocation], with the pair the Go method
    returns: an error and a nil api, or no error and the api. *)
Definition getExtendedInformationFromLocation (p : projectBuilder) (location : string)
    : option error * option api.Api :=
  match getConfigTypeFromLocation PathSeparator (apis p) location with
  | Err err => (Some err, None)
  | Ok a => (None, Some a)
  end.

(** The loop of processConfigSection over the templates. *)
Fixpoint processTemplates (p : projectBuilder)
    (properties : gmap string (gmap string string)) (folderPath : string)
    (templates : list (string * string)) : option error * projectBuilder :=
  match templates with
  | [] => (None, p)
  | (configName, location) :: rest =>
      let location := standardizeLocation p location folderPath in
      let '(err, a) := getExtendedInformationFromLocation p location in
      if CheckError err "Could not find API fom location" then (err, p) else
      let '(c, err) := NewConfig configName (projectId p) location properties a in
      if CheckError err ("Could not create config" ++ configName) then (err, p) else
      match err with
      | Some _ => (err, p)
      | None => processTemplates (appendConfig p c) properties folderPath rest
      end
  end.

(** [processConfigSection].  Go does not fix the order in which the loop
    visits the map [templates]; the order of [map_to_list] stands for it. *)
Definition processConfigSection (p : projectBuilder)
    (properties : gmap string (gmap string string)) (folderPath : string)
    : option error * projectBuilder :=
  match properties !! "config" with
  | None => (Some (errorString "property 'config' was not available"), p)
  | Some templates => processTemplates p properties folderPath (map_to_list templates)
  end.

(** [processYaml] *)
Definition processYaml (p : projectBuilder) (filename : string)
    : option error * projectBuilder :=
  let '(bytes, err) := ReadFile filename in
  if CheckError err ("Error while reading file " ++ filename) then (err, p) else
  let '(properties, err) := unmarshalYaml bytes filename in
  if CheckError err ("Error while converting file " ++ filename) then (err, p) else
  let '(err, folderPath) :=
    match removeYamlFileFromPath PathSeparator filename with
    | Err err => (Some err, "")
    | Ok folderPath => (None, folderPath)
    end in
  if CheckError err ("Error while stripping yaml from file path " ++ filename) then (err, p) else
  processConfigSection p properties folderPath.

(** The loop of readFolder over the entries of a folder, with the Go variable
    [err] as an argument; [recurse] is the call of readFolder for a
    subfolder.  [None] stands for a call that has not returned. *)
Fixpoint scanFolder
    (recurse : string -> projectBuilder -> option (option error * projectBuilder))
    (folder : string) (isProjectRoot : bool) (filesInFolder : list FileInfo)
    (p : projectBuilder) (err : option error) : option (option error * projectBuilder) :=
  match filesInFolder with
  | [] => Some (err, p)
  | file :: rest =>
      let fullFileName := FilepathJoin folder (Name file) in
      if IsDir file then
        match recurse fullFileName p with
        | None => None
        | Some (Some err', p') => Some (Some err', p')
        | Some (None, p') => scanFolder recurse folder isProjectRoot rest p' None
        end
      else if negb isProjectRoot && IsYamlFileExtension (Name file) then
        let '(err', p') := processYaml p fullFileName in
        scanFolder recurse folder isProjectRoot rest p' err'
      else scanFolder recurse folder isProjectRoot rest p err
  end.

(** [readFolder].  The recursion follows the folders of the file system; the
    first argument bounds its depth, and [None] is returned when the bound is
    reached before the call has returned. *)
Fixpoint readFolder (depth : nat) (folder : string) (isProjectRoot : bool)
    (p : projectBuilder) : option (option error * projectBuilder) :=
  match depth with
  | O => None
  | Datatypes.S depth' =>
      let '(filesInFolder, err) := ReadDir folder in
      if CheckError err ("Folder " ++ folder ++ " could not be read") then Some (err, p) else
      scanFolder (fun sub p' => readFolder depth' sub false p')
                 folder isProjectRoot filesInFolder p err
  end.

(** What a builder method may change: configs are added at the end, the
    other fields stay. *)
Definition extends (p p' : projectBuilder) : Prop :=
  projectRootFolder p' = projectRootFolder p /\
  projectId p' = projectId p /\
  apis p' = apis p /\
  exists added, configs p' = (configs p ++ added)%list.

(** [errutils.CheckError] never reports a nil error. *)
Definition passesNil : Prop := forall message, CheckError None message = false.

End Builder.

End project.

(** ** Concrete inputs

    Stand-ins for the parameters of the development and a few configurations,
    used to run the embedded code on concrete inputs. *)
Module fixtures.
Import deploy.

Definition coordinateString (c : coordinate.Coordinate) : string :=
  coordinate.Project c ++ ":" ++ coordinate.Type_ c ++ ":" ++ coordinate.ConfigId c.

Definition formats : Formats := {|
  CoordinateString := coordinateString;
  configDeployErrText conf details :=
    coordinateString (config.Coordinate conf) ++ ": " ++ details
|}.

(** Modelled from the spec: resolution of one parameter against the entity
    map, after spec section 4.1: a literal is used verbatim; a reference
    fails when its target is absent or skipped, and reads the requested
    property otherwise. *)
Definition resolveParameter (entities : parameter.ResolvedEntities)
    (p : parameter.Parameter_) : result parameter.Value :=
  match p with
  | parameter.ValueParameter v => Ok v
  | parameter.ReferenceParameter target property =>
      match entities !! target with
      | None => Err (errorString "referenced configuration is not resolved")
      | Some e =>
          if parameter.Skip e
          then Err (errorString "referenced configuration is skipped")
          else match parameter.Properties_ e !! property with
               | Some v => Ok v
               | None => Err (errorString "referenced property is missing")
               end
      end
  end.

(** Modelled from the spec: resolution of all parameters of a config (spec
    section 4.1): the mapping propertyName -> value, and the errors. *)
Definition resolveAll (conf : config.Config) (entities : parameter.ResolvedEntities)
    : parameter.Properties * list error :=
  let resolved := resolveParameter entities <$> config.Parameters conf in
  (omap (fun r => match r with Ok v => Some v | Err _ => None end) resolved,
   omap (fun kr => match kr.2 with Ok _ => None | Err err => Some err end)
        (map_to_list resolved)).

(** Modelled from the spec: the reserved property [name] must be a non-empty
    string (spec section 4.3). *)
Definition nameOf (conf : config.Config) (properties : parameter.Properties) : result string :=
  match properties !! config.NameParameter with
  | Some (parameter.StringValue n) =>
      if decide (n = "") then Err (errorString "the name is empty") else Ok n
  | Some (parameter.OtherValue _) => Err (errorString "the name is not a string")
  | None => Err (errorString "the name is missing")
  end.

(** A template without placeholders renders to its content. *)
Definition renderLiteral (conf : config.Config) (properties : parameter.Properties)
    : result string :=
  match config.Template_ conf with
  | config.NewDownloadTemplate _ _ content => Ok content
  | config.FileTemplate _ content => Ok content
  end.

Definition helpers : Helpers := {|
  resolveProperties := resolveAll;
  extractConfigName := nameOf;
  Render := renderLiteral;
  IsEntities t := bool_decide (config.EntitiesType t <> "");
  IsSettings t := bool_decide (config.SchemaId t <> "");
  IsUuid s := Nat.eqb (String.length s) 36;
  IsMeId s := String.prefix "HOST-" s;
  GenerateUuidFromConfigId projectId configId := "uuid-of:" ++ projectId ++ "/" ++ configId
|}.

(** A tenant that accepts every upsert and answers with the name it was
    given; its state counts the upserts. *)
Definition acceptingClient : client.Client nat := {|
  client.UpsertConfigByName a name payload n :=
    (Ok (api.mkEntity ("id-of-" ++ name) name), Datatypes.S n);
  client.UpsertConfigByNonUniqueNameAndId a entityId name payload n :=
    (Ok (api.mkEntity entityId name), Datatypes.S n);
  client.UpsertSettings obj n :=
    (Ok (api.mkEntity ("object-of-" ++ client.Id obj) (client.Id obj)), Datatypes.S n)
|}.

(** A tenant that refuses every upsert. *)
Definition refusingClient : client.Client nat := {|
  client.UpsertConfigByName a name payload n :=
    (Err (errorString "HTTP 400"), n);
  client.UpsertConfigByNonUniqueNameAndId a entityId name payload n :=
    (Err (errorString "HTTP 400"), n);
  client.UpsertSettings obj n :=
    (Err (errorString "HTTP 400"), n)
|}.

(** A tenant that accepts every upsert and answers with a name of its own
    making: the name it was given with [ (1)] behind it. *)
Definition renamingClient : client.Client nat := {|
  client.UpsertConfigByName a name payload n :=
    (Ok (api.mkEntity ("id-of-" ++ name) (name ++ " (1)")), Datatypes.S n);
  client.UpsertConfigByNonUniqueNameAndId a entityId name payload n :=
    (Ok (api.mkEntity entityId (name ++ " (1)")), Datatypes.S n);
  client.UpsertSettings obj n :=
    (Ok (api.mkEntity ("object-of-" ++ client.Id obj) (client.Id obj ++ " (1)")),
     Datatypes.S n)
|}.

Definition dashboard : api.Api := api.mk "dashboard" false "".
Definition alertingProfile : api.Api := api.mk "alerting-profile" true "".

Definition apis : api.ApiMap :=
  <["dashboard" := dashboard]> (<["alerting-profile" := alertingProfile]> ∅).

Definition classicType (apiId : string) : config.Type_ := config.mkType apiId "" "" "".
Definition settingsType (schemaId version : string) : config.Type_ :=
  config.mkType "" schemaId version "".

Definition named (name : string) : gmap string parameter.Parameter_ :=
  {[ config.NameParameter := parameter.ValueParameter (parameter.StringValue name) ]}.

(** Two dashboards with the same name, a skipped one and one of an API with
    non-unique names. *)
Definition overview : config.Config :=
  config.mk (config.FileTemplate "overview.json" "{}")
            (coordinate.mk "project" "dashboard" "overview")
            (classicType "dashboard") (named "Overview") false "".

Definition overviewTwin : config.Config :=
  config.mk (config.FileTemplate "twin.json" "{}")
            (coordinate.mk "project" "dashboard" "twin")
            (classicType "dashboard") (named "Overview") false "".

Definition skipped : config.Config :=
  config.mk (config.FileTemplate "skipped.json" "{}")
            (coordinate.mk "project" "dashboard" "skipped")
            (classicType "dashboard") (named "Skipped") true "".

Definition profile : config.Config :=
  config.mk (config.FileTemplate "profile.json" "{}")
            (coordinate.mk "project" "alerting-profile" "profile")
            (classicType "alerting-profile") (named "Profile") false "".

(** A config of an API that the ApiMap does not hold. *)
Definition unknownApi : config.Config :=
  config.mk (config.FileTemplate "x.json" "{}")
            (coordinate.mk "project" "no-such-api" "x")
            (classicType "no-such-api") (named "X") false "".

(** Settings 2.0 objects: with a scope, with an empty scope, without one. *)
Definition scoped (scope : string) : gmap string parameter.Parameter_ :=
  <[ config.ScopeParameter := parameter.ValueParameter (parameter.StringValue scope) ]>
    (named "setting").

Definition setting : config.Config :=
  config.mk (config.FileTemplate "setting.json" "{}")
            (coordinate.mk "project" "builtin:tags" "setting")
            (settingsType "builtin:tags" "1.0") (scoped "environment") false "origin-1".

Definition settingEmptyScope : config.Config :=
  config.mk (config.FileTemplate "setting.json" "{}")
            (coordinate.mk "project" "builtin:tags" "empty-scope")
            (settingsType "builtin:tags" "1.0") (scoped "") false "".

Definition settingNoScope : config.Config :=
  config.mk (config.FileTemplate "setting.json" "{}")
            (coordinate.mk "project" "builtin:tags" "no-scope")
            (settingsType "builtin:tags" "1.0") (named "setting") false "".

(** A config of type entities, and an entity map that already knows the name
    of the alerting profile. *)
Definition hosts : config.Config :=
  config.mk (config.FileTemplate "hosts.json" "{}")
            (coordinate.mk "project" "HOST" "hosts")
            (config.mkType "" "" "" "HOST") (named "hosts") false "".

Definition knowsProfile : EntityMap :=
  PutResolved (config.Coordinate profile)
    (parameter.mk "Profile" (config.Coordinate profile) ∅ false) (NewEntityMap apis).

Definition fresh : World nat := mkWorld 0 [] [].

(** The loop state DeployConfigs starts from. *)
Definition start : LoopState (S := nat) := mkLoopState (NewEntityMap apis) [] fresh.

Definition continueOnError : DeployConfigsOptions := mkOptions true false.
Definition stopOnError : DeployConfigsOptions := mkOptions false false.
Definition dryRun : DeployConfigsOptions := mkOptions false true.

(** A stand-in for encoding/json: a value parses when it starts with a
    brace, and the parsed object is the text itself. *)
Definition codec : settings.Codec := {|
  settings.JSONObject := string;
  settings.Unmarshal v :=
    if String.prefix "{" v then Ok v else Err (errorString "invalid character");
  settings.MarshalIndent v := Ok v;
  settings.GenerateUuidFromName objectId := "uuid-of:" ++ objectId
|}.

Definition tag (objectId value : string) : client.DownloadSettingsObject :=
  client.mkDownloadSettingsObject objectId "builtin:tags" "1.0" "environment" value.

Definition preset (objectId : string) : client.DownloadSettingsObject :=
  client.mkDownloadSettingsObject objectId "builtin:presets" "1.0" "environment" "{}".

(** A tenant with three schemas: two tags followed by a broken one and one
    more tag; presets, all of which the filter discards; a schema whose only
    object is broken.  Every other schema has no object. *)
Definition tenantSettings : settings.SettingsClient := settings.mkSettingsClient
  (fun schema =>
     if decide (schema = "builtin:tags")
     then Ok [tag "t1" "{}"; tag "t2" "{}"; tag "t3" "oops"; tag "t4" "{}"]
     else if decide (schema = "builtin:presets")
     then Ok [preset "p1"; preset "p2"]
     else if decide (schema = "builtin:broken")
     then Ok [client.mkDownloadSettingsObject "b1" "builtin:broken" "1.0" "environment" "oops"]
     else if decide (schema = "builtin:forbidden")
     then Err (errorString "HTTP 403")
     else Ok []).

Definition discardPresets : settings.Filters (Co := codec) :=
  {[ "builtin:presets" :=
       settings.mkFilter (Co := codec) (fun _ => (true, "presets cannot be changed")) ]}.

Definition downloader : settings.Downloader (Co := codec) :=
  settings.mkDownloader (Co := codec) tenantSettings discardPresets.

(** A manifest with two environments of the group dev and one of the group
    prod. *)
Definition dev1 : manifest.EnvironmentDefinition := manifest.mkEnvironment "dev-1" "dev".
Definition dev2 : manifest.EnvironmentDefinition := manifest.mkEnvironment "dev-2" "dev".
Definition prod1 : manifest.EnvironmentDefinition := manifest.mkEnvironment "prod-1" "prod".

Definition loaded : manifest.Manifest :=
  manifest.mkManifest (<["dev-1" := dev1]> (<["dev-2" := dev2]> (<["prod-1" := prod1]> ∅))).

(** Modelled from the spec: the environment-group filter of spec section 6
    keeps the environments of the group. *)
Definition filterByGroup (environments : manifest.Environments) (group : string)
    : manifest.Environments :=
  filter (fun kv => manifest.Group kv.2 = group) environments.

(** Modelled from the spec: the environment-name filter of spec section 6
    keeps the environments with the given names and fails on a name the
    manifest does not have. *)
Fixpoint filterByNames (environments : manifest.Environments) (names : list string)
    : result manifest.Environments :=
  match names with
  | [] => Ok ∅
  | name :: rest =>
      match environments !! name with
      | None => Err (errorString ("no environment named " ++ name))
      | Some env =>
          match filterByNames environments rest with
          | Err err => Err err
          | Ok selected => Ok (<[name := env]> selected)
          end
      end
  end.

Definition doubleQuote : string := String (Ascii.ascii_of_nat 34) EmptyString.

(** Collaborators that never fail: every path is absolute, the manifest is
    [loaded], the tenant deletes what it is asked to. *)
Definition collaborators : delete.Collaborators := {|
  delete.Fs := unit;
  delete.Entries := unit;
  delete.ClientT := string;
  delete.DummyClient := "dummy";
  delete.Abs path := Ok path;
  delete.ReplaceAll s old new := s;
  delete.Quote s := doubleQuote ++ s ++ doubleQuote;
  delete.NewApis := apis;
  delete.GetApiNames a := (map_to_list a).*1;
  delete.LoadManifest fs path := (loaded, []);
  delete.LoadEntriesToDelete fs names dir file := (tt, []);
  delete.FilterByGroup := filterByGroup;
  delete.FilterByNames := filterByNames;
  delete.GetToken env := Ok "token";
  delete.GetUrl env := Ok ("https://" ++ manifest.Name env);
  delete.NewDynatraceClient url token := Ok url;
  delete.DeleteConfigs c a entries := []
|}.

(** A preset dashboard, and a dashboard whose metadata is a string. *)
Definition presetDashboard : gmap string downloader.JSON :=
  {[ "dashboardMetadata" :=
       downloader.JObject {[ "name" := downloader.JString "Home";
                             "preset" := downloader.JBool true ]} ]}.

Definition malformedDashboard : gmap string downloader.JSON :=
  {[ "dashboardMetadata" := downloader.JString "Home" ]}.

(** Folders on disk: [proj] holds a stray YAML file and the folder
    [dashboard], which holds [a.yaml], which does not parse, and [b.yaml],
    which names one template; [stray] holds a YAML file only; no other
    folder can be listed. *)
Definition listing (folder : string) : list project.FileInfo * option error :=
  if String.eqb folder "proj" then
    ([project.mkFileInfo "stray.yaml" false; project.mkFileInfo "dashboard" true], None)
  else if String.eqb folder "proj/dashboard" then
    ([project.mkFileInfo "a.yaml" false; project.mkFileInfo "b.yaml" false], None)
  else if String.eqb folder "stray" then
    ([project.mkFileInfo "stray.yaml" false], None)
  else ([], Some (errorString "open: no such directory")).

Definition parse (text fileName : string) : gmap string (gmap string string) * option error :=
  if String.eqb fileName "proj/dashboard/b.yaml" then
    ({[ "config" := {[ "overview" := "overview.json" ]} ]}, None)
  else (∅, Some (errorString "yaml: did not find expected key")).

Definition slash : ascii := ascii_of_nat 47.

Definition environment : project.Environment := {|
  project.Config := string * string;
  project.ReadDir := listing;
  project.ReadFile name := (name, None);
  project.FilepathJoin dir name := dir ++ "/" ++ name;
  project.IsYamlFileExtension name :=
    String.eqb (substring (String.length name - 5) 5 name) ".yaml";
  project.unmarshalYaml := parse;
  project.NewConfig name projectId location properties a := ((name, location), None);
  project.CheckError err message := match err with Some _ => true | None => false end
|}.

Definition builder : project.projectBuilder (E := environment) :=
  project.mkBuilder "proj" "proj" [] apis.

Definition overviewTemplate : @project.Config environment :=
  ("overview", "proj/dashboard/overview.json").

(** The builder after [proj] has been read. *)
Definition gathered : project.projectBuilder (E := environment) :=
  project.mkBuilder "proj" "proj" [overviewTemplate] apis.

(** The same disk read by a parser that accepts [a.yaml] and no other file:
    in [proj/dashboard] the first file gives a config and the second one an
    error. *)
Definition parseFirst (text fileName : string)
    : gmap string (gmap string string) * option error :=
  if String.eqb fileName "proj/dashboard/a.yaml" then
    ({[ "config" := {[ "overview" := "overview.json" ]} ]}, None)
  else (∅, Some (errorString "yaml: did not find expected key")).

Definition environmentFirst : project.Environment := {|
  project.Config := string * string;
  project.ReadDir := listing;
  project.ReadFile name := (name, None);
  project.FilepathJoin dir name := dir ++ "/" ++ name;
  project.IsYamlFileExtension name :=
    String.eqb (substring (String.length name - 5) 5 name) ".yaml";
  project.unmarshalYaml := parseFirst;
  project.NewConfig name projectId location properties a := ((name, location), None);
  project.CheckError err message := match err with Some _ => true | None => false end
|}.

Definition builderFirst : project.projectBuilder (E := environmentFirst) :=
  project.mkBuilder "proj" "proj" [] apis.

Definition overviewTemplateFirst : @project.Config environmentFirst :=
  ("overview", "proj/dashboard/overview.json").

(** The builder after [a.yaml] has been read. *)
Definition gatheredFirst : project.projectBuilder (E := environmentFirst) :=
  project.mkBuilder "proj" "proj" [overviewTemplateFirst] apis.

End fixtures.
(** * Properties

    ** idutils: the external ID *)
Section ExternalID.
Import idutils.

Lemma sliceFrom_length (n : nat) (s : string) :
  String.length (sliceFrom n s) = String.length s - n.
Proof.
  revert s. induction n as [|n IH]; intros s; simpl.
  - lia.
  - destruct s as [|c s]; simpl; [reflexivity | apply IH].
Qed.

Lemma append_length (s t : string) :
  String.length (s ++ t) = String.length s + String.length t.
Proof. induction s as [|c s IH]; simpl; [reflexivity | now rewrite IH]. Qed.

(** Induction on strings three bytes at a time, the way the encoder reads. *)
Lemma string_ind3 (P : string -> Prop) :
  P EmptyString ->
  (forall a, P (String a EmptyString)) ->
  (forall a b, P (String a (String b EmptyString))) ->
  (forall a b c rest, P rest -> P (String a (String b (String c rest)))) ->
  forall s, P s.
Proof.
  intros H0 H1 H2 H3.
  fix IH 1. intros [|a [|b [|c rest]]].
  - exact H0.
  - apply H1.
  - apply H2.
  - apply H3, IH.
Qed.

(** Every group of three bytes (the last one possibly short) gives four. *)
Lemma EncodeToString_length (src : string) :
  String.length (EncodeToString src) = 4 * ((String.length src + 2) / 3).
Proof.
  induction src as [| a | a b | a b c rest IH] using string_ind3.
  - reflexivity.
  - reflexivity.
  - reflexivity.
  - cbn [EncodeToString String.length]. rewrite IH.
    replace (S (S (S (String.length rest))) + 2) with (1 * 3 + (String.length rest + 2)) by lia.
    rewrite Nat.div_add_l by lia. lia.
Qed.

Lemma GenerateExternalID_unfold (schema ID : string) :
  GenerateExternalID schema ID =
  let encodedID := EncodeToString (schema ++ "$" ++ ID) in
  "monaco:" ++ (if Nat.ltb 493 (String.length encodedID)
                then sliceFrom 493 encodedID else encodedID).
Proof. reflexivity. Qed.

(** The result always starts with the prefix. *)
Lemma GenerateExternalID_prefix (schema ID : string) :
  exists rest, GenerateExternalID schema ID = "monaco:" ++ rest.
Proof. rewrite GenerateExternalID_unfold. cbv zeta. eauto. Qed.

(** An encoding that fits is kept whole. *)
Lemma GenerateExternalID_fits (schema ID : string) :
  String.length (EncodeToString (schema ++ "$" ++ ID)) <= 493 ->
  GenerateExternalID schema ID = "monaco:" ++ EncodeToString (schema ++ "$" ++ ID).
Proof.
  intros Hlen. rewrite GenerateExternalID_unfold. cbv zeta.
  destruct (Nat.ltb_spec 493 (String.length (EncodeToString (schema ++ "$" ++ ID))));
    [lia | reflexivity].
Qed.

(** A longer encoding loses its first 493 bytes: what is kept is the rest,
    whatever its length. *)
Lemma GenerateExternalID_cut (schema ID : string) :
  493 < String.length (EncodeToString (schema ++ "$" ++ ID)) ->
  GenerateExternalID schema ID
    = "monaco:" ++ sliceFrom 493 (EncodeToString (schema ++ "$" ++ ID)) /\
  String.length (GenerateExternalID schema ID)
    = 7 + (String.length (EncodeToString (schema ++ "$" ++ ID)) - 493).
Proof.
  intros Hlen. rewrite GenerateExternalID_unfold. cbv zeta.
  destruct (Nat.ltb_spec 493 (String.length (EncodeToString (schema ++ "$" ++ ID))));
    [| lia].
  split; [reflexivity |].
  rewrite append_length, sliceFrom_length. reflexivity.
Qed.

(** The documented bound of 500 holds exactly for encodings of at most 986
    bytes, that is for [len(schema) + 1 + len(ID) <= 738]. *)
Lemma GenerateExternalID_length_le_500_iff (schema ID : string) :
  String.length (GenerateExternalID schema ID) <= 500 <->
  String.length schema + 1 + String.length ID <= 738.
Proof.
  pose proof (EncodeToString_length (schema ++ "$" ++ ID)) as Hl.
  rewrite !append_length in Hl. cbn [String.length] in Hl.
  set (n := String.length schema + 1 + String.length ID).
  replace (String.length schema + (1 + String.length ID) + 2) with (n + 2) in Hl by (subst n; lia).
  pose proof (Nat.div_mod_eq (n + 2) 3) as Hd.
  pose proof (Nat.mod_upper_bound (n + 2) 3 ltac:(lia)) as Hm.
  destruct (Nat.le_gt_cases (String.length (EncodeToString (schema ++ "$" ++ ID))) 493) as [Hs|Hs].
  - rewrite (GenerateExternalID_fits _ _ Hs), append_length. cbn [String.length]. lia.
  - destruct (GenerateExternalID_cut _ _ Hs) as [_ ->]. lia.
Qed.

(** C4, evaluated on the code: for a schema of 738 bytes and an empty ID the
    encoding has 988 bytes, the slice [encodedID[493:]] keeps 495 of them and
    the external ID has 502 bytes, more than the documented maximum of 500;
    for a schema of 370 bytes the encoding has 496 bytes and only its last 3
    are kept, not its last 493. *)
Theorem GenerateExternalID_breaks_max_length :
  String.length (GenerateExternalID (repeatByte "a" 738) "") = 502 /\
  String.length (EncodeToString (repeatByte "a" 370 ++ "$" ++ "")) = 496 /\
  GenerateExternalID (repeatByte "a" 370) "" = "monaco:SQ=" /\
  GenerateExternalID (repeatByte "a" 370) ""
    <> "monaco:" ++ lastBytes 493 (EncodeToString (repeatByte "a" 370 ++ "$" ++ "")).
Proof.
  split; [vm_compute; reflexivity |].
  split; [vm_compute; reflexivity |].
  split; [vm_compute; reflexivity |].
  intros Heq. apply (f_equal String.length) in Heq.
  vm_compute in Heq. discriminate Heq.
Qed.

End ExternalID.

(** ** deploy: DeployConfigs, deployConfig, deploySetting *)
Section DeploymentProperties.
Import deploy.

Context {F : Formats} {Hp : Helpers} {S : Type} {Cl : client.Client S}.

(** *** The entity map *)

Lemma Resolved_PutResolved (c : coordinate.Coordinate) (e : parameter.ResolvedEntity)
    (r : EntityMap) :
  Resolved (PutResolved c e r) = <[c := e]> (Resolved r).
Proof. reflexivity. Qed.

Lemma Known_PutResolved (c : coordinate.Coordinate) (e : parameter.ResolvedEntity)
    (r : EntityMap) :
  parameter.Skip e = false ->
  Known (PutResolved c e r) (coordinate.Type_ c) (parameter.EntityName e) = true.
Proof.
  intros Hskip. unfold Known, PutResolved, namesOf. cbn. rewrite Hskip.
  rewrite lookup_insert_eq. cbn. apply bool_decide_eq_true. set_solver.
Qed.

Lemma Known_NewEntityMap (apis : api.ApiMap) (entityType name : string) :
  Known (NewEntityMap apis) entityType name = false.
Proof.
  unfold Known, NewEntityMap, namesOf. cbn. rewrite lookup_empty. cbn.
  apply bool_decide_eq_false. set_solver.
Qed.

(** *** The client calls are only ever appended to *)

Lemma logEvent_calls (e : LogEvent) (w : World S) : calls (logEvent e w) = calls w.
Proof. reflexivity. Qed.

Lemma logEvent_tenant (e : LogEvent) (w : World S) : tenant (logEvent e w) = tenant w.
Proof. reflexivity. Qed.

(** *** Error lists of the deploy functions *)

(** A nil error list means success: the entity carries the config's own
    Coordinate and is not marked as skipped. *)
Lemma deployConfig_success (apis : api.ApiMap) (em : EntityMap) (conf : config.Config)
    (w w' : World S) (e : parameter.ResolvedEntity) :
  deployConfig apis em conf w = (e, [], w') ->
  parameter.Coordinate e = config.Coordinate conf /\ parameter.Skip e = false.
Proof.
  unfold deployConfig. intros Hd. split_deploy; simplify_eq; cbn in *; try discriminate;
    auto.
  all: match goal with l : list error |- _ => destruct l; cbn in *; discriminate end.
Qed.

Lemma deploySetting_success (em : EntityMap) (c : config.Config)
    (w w' : World S) (e : parameter.ResolvedEntity) :
  deploySetting em c w = (e, [], w') ->
  parameter.Coordinate e = config.Coordinate c /\ parameter.Skip e = false.
Proof.
  unfold deploySetting. intros Hd. split_deploy; simplify_eq; cbn in *; try discriminate;
    auto.
Qed.

(** An error list with an element means failure: the entity is the zero
    value, whose Coordinate is the zero Coordinate. *)
Lemma deployConfig_failure (apis : api.ApiMap) (em : EntityMap) (conf : config.Config)
    (w w' : World S) (e : parameter.ResolvedEntity) (errs : list error) :
  deployConfig apis em conf w = (e, errs, w') -> errs <> [] -> e = parameter.zero.
Proof.
  unfold deployConfig. intros Hd Hne. split_deploy; simplify_eq; cbn in *; congruence.
Qed.

Lemma deploySetting_failure (em : EntityMap) (c : config.Config)
    (w w' : World S) (e : parameter.ResolvedEntity) (errs : list error) :
  deploySetting em c w = (e, errs, w') -> errs <> [] -> e = parameter.zero.
Proof.
  unfold deploySetting. intros Hd Hne. split_deploy; simplify_eq; cbn in *; congruence.
Qed.

(** Neither deploy function writes a log line that reports a config as
    handled. *)
Lemma deployConfig_handled (apis : api.ApiMap) (em : EntityMap) (conf : config.Config)
    (w : World S) :
  handled (logs (deployConfig apis em conf w).2) = handled (logs w).
Proof.
  unfold deployConfig, upsertNonUniqueNameConfig, callUpsertConfigByNonUniqueNameAndId,
    callUpsertConfigByName, logEvent, handled.
  split_deploy; simplify_eq; cbn; rewrite ?omap_app; cbn; rewrite ?app_nil_r; reflexivity.
Qed.

Lemma deploySetting_handled (em : EntityMap) (c : config.Config) (w : World S) :
  handled (logs (deploySetting em c w).2) = handled (logs w).
Proof.
  unfold deploySetting, callUpsertSettings, handled.
  split_deploy; simplify_eq; cbn; reflexivity.
Qed.

Lemma attempt_handled (opts : DeployConfigsOptions) (apis : api.ApiMap) (c : config.Config)
    (st : LoopState) :
  handled (logs (attempt opts apis c st).2)
  = (handled (logs (world st)) ++ [config.Coordinate c])%list.
Proof.
  unfold attempt.
  destruct (getWordsForLogging (DryRun opts)) as [logAction logVerb].
  destruct (IsEntities (config.Type' c)); [| destruct (IsSettings (config.Type' c))].
  - unfold handled, logEvent. cbn. rewrite !omap_app. cbn. rewrite app_nil_r. reflexivity.
  - rewrite deploySetting_handled. unfold handled, logEvent. cbn.
    rewrite omap_app. reflexivity.
  - rewrite deployConfig_handled. unfold handled, logEvent. cbn.
    rewrite omap_app. reflexivity.
Qed.

(** The entity of an attempt that ends with errors is the zero value. *)
Lemma attempt_failure (opts : DeployConfigsOptions) (apis : api.ApiMap) (c : config.Config)
    (st : LoopState) :
  (attempt opts apis c st).1.2 <> [] -> (attempt opts apis c st).1.1 = parameter.zero.
Proof.
  unfold attempt.
  destruct (getWordsForLogging (DryRun opts)) as [logAction logVerb].
  destruct (IsEntities (config.Type' c)); [| destruct (IsSettings (config.Type' c))].
  - reflexivity.
  - intros Hne.
    destruct (deploySetting _ _ _) as [[e errs] w'] eqn:Hd. eapply deploySetting_failure; eauto.
  - intros Hne.
    destruct (deployConfig _ _ _ _) as [[e errs] w'] eqn:Hd. eapply deployConfig_failure; eauto.
Qed.

(** *** The three ways an iteration can go *)

Lemma iteration_skip (opts : DeployConfigsOptions) (apis : api.ApiMap) (c : config.Config)
    (st : LoopState) :
  config.Skip c = true ->
  iteration opts apis c st =
  Continue (mkLoopState
              (PutResolved (config.Coordinate c)
                 (parameter.mk (coordinate.ConfigId (config.Coordinate c))
                               (config.Coordinate c) ∅ true)
                 (entityMap st))
              (errors st)
              (logEvent (InfoSkipping (config.Coordinate c)) (world st))).
Proof. intros Hs. unfold iteration. rewrite Hs. reflexivity. Qed.

Lemma iteration_success (opts : DeployConfigsOptions) (apis : api.ApiMap) (c : config.Config)
    (st : LoopState) :
  config.Skip c = false ->
  (attempt opts apis c st).1.2 = [] ->
  iteration opts apis c st =
  Continue (mkLoopState
              (PutResolved (parameter.Coordinate (attempt opts apis c st).1.1)
                           (attempt opts apis c st).1.1 (entityMap st))
              (errors st)
              (attempt opts apis c st).2).
Proof.
  intros Hs Herrs. unfold iteration. rewrite Hs.
  destruct (getWordsForLogging (DryRun opts)) as [logAction logVerb].
  destruct (attempt opts apis c st) as [[e errs] w']. cbn in *. subst errs. reflexivity.
Qed.

Lemma iteration_errors (opts : DeployConfigsOptions) (apis : api.ApiMap) (c : config.Config)
    (st : LoopState) :
  config.Skip c = false ->
  (attempt opts apis c st).1.2 <> [] ->
  iteration opts apis c st =
  let errors' :=
    (errors st
     ++ map (failedTo (verbOf opts) (config.Coordinate c)) (attempt opts apis c st).1.2)%list in
  if negb (ContinueOnErr opts) && negb (DryRun opts)
  then Return (mkLoopState (entityMap st) errors' (attempt opts apis c st).2)
  else Continue (mkLoopState
                   (PutResolved coordinate.zero parameter.zero (entityMap st))
                   errors' (attempt opts apis c st).2).
Proof.
  intros Hs Herrs. pose proof (attempt_failure opts apis c st Herrs) as Hz.
  unfold iteration, verbOf. rewrite Hs.
  destruct (getWordsForLogging (DryRun opts)) as [logAction logVerb].
  destruct (attempt opts apis c st) as [[e errs] w']. cbn in *. subst e.
  destruct errs as [|err errs]; [congruence |]. reflexivity.
Qed.

(** *** The loop *)

(** The error list only grows, and an iteration that returns has added to it. *)
Lemma iteration_errors_grow (opts : DeployConfigsOptions) (apis : api.ApiMap)
    (c : config.Config) (st : LoopState) :
  match iteration opts apis c st with
  | Continue st' => exists more, errors st' = (errors st ++ more)%list
  | Return st' => exists more, errors st' = (errors st ++ more)%list /\ more <> []
  end.
Proof.
  destruct (config.Skip c) eqn:Hs.
  - rewrite iteration_skip by assumption. exists []. cbn. now rewrite app_nil_r.
  - destruct (decide ((attempt opts apis c st).1.2 = [])) as [Hnil | Hne].
    + rewrite iteration_success by assumption. exists []. cbn. now rewrite app_nil_r.
    + rewrite iteration_errors by assumption. cbv zeta.
      destruct (negb (ContinueOnErr opts) && negb (DryRun opts)); cbn; eexists; eauto.
      split; [reflexivity |]. intros Hm. apply map_eq_nil in Hm. contradiction.
Qed.

Lemma loop_errors_grow (opts : DeployConfigsOptions) (apis : api.ApiMap)
    (cs : list config.Config) (st : LoopState) :
  exists more, errors (loop opts apis cs st) = (errors st ++ more)%list.
Proof.
  revert st. induction cs as [|c cs IH]; intros st; cbn.
  - exists []. now rewrite app_nil_r.
  - pose proof (iteration_errors_grow opts apis c st) as Hg.
    destruct (iteration opts apis c st) as [st' | st'].
    + destruct Hg as [m1 Hm1]. destruct (IH st') as [m2 Hm2].
      exists (m1 ++ m2)%list. rewrite Hm2, Hm1, app_assoc. reflexivity.
    + destruct Hg as [m [Hm _]]. eauto.
Qed.

(** Configs that add no error do not end the loop. *)
Lemma loop_app_without_errors (opts : DeployConfigsOptions) (apis : api.ApiMap)
    (pre post : list config.Config) (st : LoopState) :
  errors (loop opts apis pre st) = errors st ->
  loop opts apis (pre ++ post) st = loop opts apis post (loop opts apis pre st).
Proof.
  revert st. induction pre as [|c pre IH]; intros st Hsame; cbn in *; [reflexivity |].
  pose proof (iteration_errors_grow opts apis c st) as Hg.
  destruct (iteration opts apis c st) as [st' | st'].
  - apply IH. destruct Hg as [m1 Hm1]. destruct (loop_errors_grow opts apis pre st') as [m2 Hm2].
    rewrite Hm2. rewrite Hm2, Hm1, <- app_assoc in Hsame.
    rewrite <- (app_nil_r (errors st)) in Hsame at 2.
    apply app_inv_head in Hsame. apply app_eq_nil in Hsame as [-> ->].
    now rewrite !app_nil_r.
  - destruct Hg as [m [Hm Hne]]. rewrite Hm in Hsame.
    rewrite <- (app_nil_r (errors st)) in Hsame at 2.
    apply app_inv_head in Hsame. contradiction.
Qed.

(** When errors do not stop the loop, no iteration returns. *)
Lemma iteration_continues (opts : DeployConfigsOptions) (apis : api.ApiMap)
    (c : config.Config) (st : LoopState) :
  ContinueOnErr opts = true \/ DryRun opts = true ->
  exists st',
    iteration opts apis c st = Continue st' /\
    errors st' = (errors st ++ map (failedTo (verbOf opts) (config.Coordinate c))
                                   (deploymentErrors opts apis c st))%list /\
    handled (logs (world st'))
      = (handled (logs (world st)) ++ [config.Coordinate c])%list.
Proof.
  intros Hmode. unfold deploymentErrors.
  destruct (config.Skip c) eqn:Hs.
  - rewrite iteration_skip by assumption. eexists. split; [reflexivity |]. cbn.
    rewrite app_nil_r. split; [reflexivity |].
    unfold handled. rewrite omap_app. reflexivity.
  - destruct (decide ((attempt opts apis c st).1.2 = [])) as [Hnil | Hne].
    + rewrite iteration_success by assumption. eexists. split; [reflexivity |]. cbn.
      rewrite Hnil. cbn. rewrite app_nil_r. split; [reflexivity |]. apply attempt_handled.
    + rewrite iteration_errors by assumption. cbv zeta.
      replace (negb (ContinueOnErr opts) && negb (DryRun opts)) with false
        by (destruct Hmode as [-> | ->]; [reflexivity | now rewrite andb_false_r]).
      eexists. split; [reflexivity |]. cbn. split; [reflexivity |]. apply attempt_handled.
Qed.

Lemma loop_continues (opts : DeployConfigsOptions) (apis : api.ApiMap)
    (cs1 cs2 : list config.Config) (st : LoopState) :
  ContinueOnErr opts = true \/ DryRun opts = true ->
  loop opts apis (cs1 ++ cs2) st = loop opts apis cs2 (loop opts apis cs1 st).
Proof.
  intros Hmode. revert st. induction cs1 as [|c cs1 IH]; intros st; cbn; [reflexivity |].
  destruct (iteration_continues opts apis c st Hmode) as (st' & -> & _). apply IH.
Qed.

Lemma loop_handles_all (opts : DeployConfigsOptions) (apis : api.ApiMap)
    (cs : list config.Config) (st : LoopState) :
  ContinueOnErr opts = true \/ DryRun opts = true ->
  handled (logs (world (loop opts apis cs st)))
  = (handled (logs (world st)) ++ map config.Coordinate cs)%list.
Proof.
  intros Hmode. revert st. induction cs as [|c cs IH]; intros st; cbn.
  - now rewrite app_nil_r.
  - destruct (iteration_continues opts apis c st Hmode) as (st' & -> & _ & Hh).
    rewrite IH, Hh, <- app_assoc. reflexivity.
Qed.

(** In that mode the errors at the end are those of all configs in order,
    each config's deployment errors taken in the state the loop had reached
    before it. *)
Lemma loop_accumulates (opts : DeployConfigsOptions) (apis : api.ApiMap)
    (cs : list config.Config) (st : LoopState) :
  ContinueOnErr opts = true \/ DryRun opts = true ->
  errors (loop opts apis cs st)
  = (errors st
     ++ concat (imap (fun k c =>
                        map (failedTo (verbOf opts) (config.Coordinate c))
                            (deploymentErrors opts apis c (loop opts apis (take k cs) st)))
                     cs))%list.
Proof.
  intros Hmode. induction cs as [|c cs IH] using rev_ind.
  - cbn. now rewrite app_nil_r.
  - rewrite loop_continues by assumption. cbn.
    destruct (iteration_continues opts apis c (loop opts apis cs st) Hmode)
      as (st' & -> & Herr & _).
    rewrite Herr, IH, imap_app, concat_app. cbn.
    rewrite Nat.add_0_r, take_app_length, app_nil_r, <- app_assoc.
    do 2 f_equal. f_equal. apply imap_ext. intros k x Hk. cbn.
    rewrite take_app_le; [reflexivity |].
    apply lookup_lt_Some in Hk. lia.
Qed.

(** C8: a config with skip=true costs no client call; the iteration records,
    under the config's own Coordinate, a ResolvedEntity with Skip=true, no
    properties and the configId as EntityName, adds no error, and the loop
    goes on with the next config from there. *)
Theorem skipped_config_is_recorded_without_client_call
    (opts : DeployConfigsOptions) (apis : api.ApiMap) (c : config.Config)
    (rest : list config.Config) (st : LoopState) :
  config.Skip c = true ->
  let recorded :=
    parameter.mk (coordinate.ConfigId (config.Coordinate c)) (config.Coordinate c) ∅ true in
  exists st',
    iteration opts apis c st = Continue st' /\
    calls (world st') = calls (world st) /\
    tenant (world st') = tenant (world st) /\
    errors st' = errors st /\
    entityMap st' = PutResolved (config.Coordinate c) recorded (entityMap st) /\
    Resolved (entityMap st') !! config.Coordinate c = Some recorded /\
    loop opts apis (c :: rest) st = loop opts apis rest st'.
Proof.
  intros Hs recorded. eexists. split; [apply iteration_skip; assumption |].
  cbn [world entityMap errors]. repeat split.
  - rewrite Resolved_PutResolved. apply lookup_insert_eq.
  - cbn [loop]. rewrite iteration_skip by assumption. reflexivity.
Qed.

(** C1, as amended: after the iteration for a config that is skipped, or that
    is a settings object or a classic config whose deployment returned no
    error, the entity map holds a ResolvedEntity under the config's own
    Coordinate (and that entity carries this Coordinate). *)
Theorem iteration_records_entity_of_skip_or_success
    (opts : DeployConfigsOptions) (apis : api.ApiMap) (c : config.Config) (st : LoopState) :
  config.Skip c = true \/
  (config.Skip c = false /\ IsEntities (config.Type' c) = false /\
   deploymentErrors opts apis c st = []) ->
  exists st' e,
    iteration opts apis c st = Continue st' /\
    Resolved (entityMap st') !! config.Coordinate c = Some e /\
    parameter.Coordinate e = config.Coordinate c.
Proof.
  intros [Hs | (Hs & Hent & Hnil)].
  - rewrite iteration_skip by assumption. do 2 eexists. split; [reflexivity |].
    cbn [entityMap]. rewrite Resolved_PutResolved, lookup_insert_eq. split; reflexivity.
  - unfold deploymentErrors in Hnil. rewrite Hs in Hnil.
    rewrite iteration_success by assumption.
    assert (parameter.Coordinate (attempt opts apis c st).1.1 = config.Coordinate c) as Hc.
    { revert Hnil. unfold attempt.
      destruct (getWordsForLogging (DryRun opts)) as [logAction logVerb].
      rewrite Hent. destruct (IsSettings (config.Type' c)).
      - destruct (deploySetting _ _ _) as [[e errs] w'] eqn:Hd. cbn. intros ->.
        apply deploySetting_success in Hd. tauto.
      - destruct (deployConfig _ _ _ _) as [[e errs] w'] eqn:Hd. cbn. intros ->.
        apply deployConfig_success in Hd. tauto. }
    do 2 eexists. split; [reflexivity |]. cbn [entityMap].
    rewrite Resolved_PutResolved, Hc, lookup_insert_eq. split; [reflexivity | exact Hc].
Qed.

(** What the iteration does instead after deployment errors: when the loop
    stops the entity map is left as it was; when it goes on, the zero-valued
    entity is put under the zero-valued Coordinate, so the entry of any other
    Coordinate is left as it was. *)
Lemma iteration_after_errors_leaves_own_coordinate
    (opts : DeployConfigsOptions) (apis : api.ApiMap) (c : config.Config) (st : LoopState) :
  deploymentErrors opts apis c st <> [] ->
  config.Coordinate c <> coordinate.zero ->
  forall st',
    (iteration opts apis c st = Continue st' \/ iteration opts apis c st = Return st') ->
    Resolved (entityMap st') !! config.Coordinate c
    = Resolved (entityMap st) !! config.Coordinate c.
Proof.
  intros Hne Hnz st' Hit. unfold deploymentErrors in Hne.
  destruct (config.Skip c) eqn:Hs; [congruence |].
  rewrite iteration_errors in Hit by assumption. cbv zeta in Hit.
  destruct (negb (ContinueOnErr opts) && negb (DryRun opts));
    destruct Hit as [Hit | Hit]; simplify_eq; cbn [entityMap]; [reflexivity |].
  rewrite Resolved_PutResolved. apply lookup_insert_ne. congruence.
Qed.

(** C2: DeployConfigs returns right after the first config whose deployment
    yields errors exactly when continueOnError=false and dryRun=false.
    (1) In that mode, if the configs before [c] added no error and [c] yields
        errors, the loop ends with [c]: the entity map is the one reached
        before [c], the errors returned are those of [c], wrapped with its
        Coordinate and the verb deploy, and the configs [post] after [c] make
        no difference at all.
    (2) An iteration returns only in that mode and only after errors.
    (3) In every other mode the loop handles every config of sortedConfigs
        (one log line each, in order) and DeployConfigs returns the errors of
        all of them, each wrapped with the Coordinate of its config and the
        verb deploy, or validate when dryRun=true. *)
Theorem DeployConfigs_stops_on_first_error_iff
    (opts : DeployConfigsOptions) (apis : api.ApiMap) :
  (ContinueOnErr opts = false -> DryRun opts = false ->
   forall (pre : list config.Config) (c : config.Config) (post : list config.Config)
          (st : LoopState),
     errors (loop opts apis pre st) = errors st ->
     deploymentErrors opts apis c (loop opts apis pre st) <> [] ->
     loop opts apis (pre ++ c :: post) st
     = mkLoopState
         (entityMap (loop opts apis pre st))
         (errors st ++ map (failedTo "deploy" (config.Coordinate c))
                           (deploymentErrors opts apis c (loop opts apis pre st)))%list
         (attempt opts apis c (loop opts apis pre st)).2 /\
     loop opts apis (pre ++ c :: post) st = loop opts apis (pre ++ [c]) st) /\
  (forall (c : config.Config) (st st' : LoopState),
     iteration opts apis c st = Return st' ->
     ContinueOnErr opts = false /\ DryRun opts = false /\
     deploymentErrors opts apis c st <> []) /\
  (ContinueOnErr opts = true \/ DryRun opts = true ->
   verbOf opts = (if DryRun opts then "validate" else "deploy") /\
   forall (sortedConfigs : list config.Config) (w : World S),
     let init := mkLoopState (NewEntityMap apis) [] w in
     handled (logs (DeployConfigs apis sortedConfigs opts w).2)
     = (handled (logs w) ++ map config.Coordinate sortedConfigs)%list /\
     (DeployConfigs apis sortedConfigs opts w).1
     = concat (imap (fun k c =>
                       map (failedTo (verbOf opts) (config.Coordinate c))
                           (deploymentErrors opts apis c
                              (loop opts apis (take k sortedConfigs) init)))
                    sortedConfigs)).
Proof.
  split; [| split].
  - intros Hc Hd pre c post st Hpre Herrs.
    assert (forall rest,
              loop opts apis (pre ++ c :: rest) st
              = mkLoopState
                  (entityMap (loop opts apis pre st))
                  (errors st ++ map (failedTo "deploy" (config.Coordinate c))
                                    (deploymentErrors opts apis c (loop opts apis pre st)))%list
                  (attempt opts apis c (loop opts apis pre st)).2) as Hend.
    { intros rest. rewrite loop_app_without_errors by assumption. cbn [loop].
      unfold deploymentErrors in *.
      destruct (config.Skip c) eqn:Hs; [congruence |].
      rewrite iteration_errors by assumption. cbv zeta.
      rewrite Hc, Hd. cbn. unfold verbOf. rewrite Hd, Hpre. reflexivity. }
    split; [apply Hend |]. rewrite (Hend post), (Hend []). reflexivity.
  - intros c st st' Hret. unfold deploymentErrors.
    destruct (config.Skip c) eqn:Hs.
    { rewrite iteration_skip in Hret by assumption. discriminate. }
    destruct (decide ((attempt opts apis c st).1.2 = [])) as [Hnil | Hne].
    { rewrite iteration_success in Hret by assumption. discriminate. }
    rewrite iteration_errors in Hret by assumption. cbv zeta in Hret.
    destruct (ContinueOnErr opts), (DryRun opts); cbn in Hret; try discriminate.
    auto.
  - intros Hmode. split.
    { unfold verbOf, getWordsForLogging. destruct (DryRun opts); reflexivity. }
    intros cs w init. unfold DeployConfigs, runDeployConfigs. cbn [fst snd].
    fold init. split.
    + rewrite loop_handles_all by assumption. reflexivity.
    + rewrite loop_accumulates by assumption. reflexivity.
Qed.

(** *** deployConfig and deploySetting *)

(** The duplicate-name check of deployConfig: no client call, no log line,
    one error. *)
Lemma deployConfig_duplicate_name (apis : api.ApiMap) (em : EntityMap) (conf : config.Config)
    (w : World S) (a : api.Api) (properties : parameter.Properties) (configName : string) :
  apis !! coordinate.Type_ (config.Coordinate conf) = Some a ->
  api.IsNonUniqueNameApi a = false ->
  resolveProperties conf (Resolved em) = (properties, []) ->
  extractConfigName conf properties = Ok configName ->
  Known em (api.GetId a) configName = true ->
  deployConfig apis em conf w
  = (parameter.zero,
     [configDeployErr conf ("duplicated config name `" ++ configName ++ "`")], w).
Proof.
  intros Ha Hu Hr Hn Hk. unfold deployConfig.
  rewrite Ha, Hr. cbn. rewrite Hn, Hk, Hu. reflexivity.
Qed.

(** A classic config of a unique-name API whose name is not yet known and
    whose template renders is upserted by name, once. *)
Lemma deployConfig_upsert_by_name (apis : api.ApiMap) (em : EntityMap) (conf : config.Config)
    (w : World S) (a : api.Api) (properties : parameter.Properties)
    (configName renderedConfig : string) (entity : api.DynatraceEntity) (t' : S) :
  apis !! coordinate.Type_ (config.Coordinate conf) = Some a ->
  api.IsNonUniqueNameApi a = false ->
  resolveProperties conf (Resolved em) = (properties, []) ->
  extractConfigName conf properties = Ok configName ->
  Known em (api.GetId a) configName = false ->
  Render conf properties = Ok renderedConfig ->
  client.UpsertConfigByName a configName renderedConfig (tenant w) = (Ok entity, t') ->
  exists w',
    deployConfig apis em conf w = (deployedEntity conf properties entity, [], w') /\
    calls w' = (calls w ++ [client.CallUpsertConfigByName a configName renderedConfig])%list /\
    tenant w' = t'.
Proof.
  intros Ha Hu Hr Hn Hk Hrender Hup. unfold deployConfig.
  rewrite Ha, Hr. cbn. rewrite Hn, Hk, Hu. cbn. rewrite Hrender.
  unfold callUpsertConfigByName.
  destruct (decide (api.DeprecatedBy a = "")); cbn; rewrite Hup;
    eexists; (split; [reflexivity |]); cbn; split; reflexivity.
Qed.

(** C5: when deployConfig handles a classic config whose API does not permit
    non-unique names and the entity map already knows the extracted name for
    the API's id, it returns one duplicated-config-name error and makes no
    client call (the world is left as it was).  Consequently, for two configs
    of one unique-name API (registered in the ApiMap under its own id) that
    both resolve to the name [n], where the upsert of the first succeeds and
    the client answers with the name it was given, DeployConfigs makes
    exactly one client call, the upsert of the first, and returns exactly one
    error, the duplicate-name error of the second. *)
Theorem duplicate_name_is_an_error_without_upsert :
  (forall (apis : api.ApiMap) (em : EntityMap) (conf : config.Config) (w : World S)
          (a : api.Api) (properties : parameter.Properties) (configName : string),
     apis !! coordinate.Type_ (config.Coordinate conf) = Some a ->
     api.IsNonUniqueNameApi a = false ->
     resolveProperties conf (Resolved em) = (properties, []) ->
     extractConfigName conf properties = Ok configName ->
     Known em (api.GetId a) configName = true ->
     deployConfig apis em conf w
     = (parameter.zero,
        [configDeployErr conf ("duplicated config name `" ++ configName ++ "`")], w)) /\
  (forall (apis : api.ApiMap) (opts : DeployConfigsOptions) (w : World S)
          (c1 c2 : config.Config) (a : api.Api) (p1 p2 : parameter.Properties)
          (n rendered1 entityId : string) (t' : S),
     config.Skip c1 = false -> config.Skip c2 = false ->
     IsEntities (config.Type' c1) = false -> IsSettings (config.Type' c1) = false ->
     IsEntities (config.Type' c2) = false -> IsSettings (config.Type' c2) = false ->
     apis !! coordinate.Type_ (config.Coordinate c1) = Some a ->
     apis !! coordinate.Type_ (config.Coordinate c2) = Some a ->
     api.GetId a = coordinate.Type_ (config.Coordinate c1) ->
     api.IsNonUniqueNameApi a = false ->
     resolveProperties c1 ∅ = (p1, []) ->
     extractConfigName c1 p1 = Ok n ->
     Render c1 p1 = Ok rendered1 ->
     client.UpsertConfigByName a n rendered1 (tenant w)
       = (Ok (api.mkEntity entityId n), t') ->
     resolveProperties c2
       {[ config.Coordinate c1 := deployedEntity c1 p1 (api.mkEntity entityId n) ]}
       = (p2, []) ->
     extractConfigName c2 p2 = Ok n ->
     (DeployConfigs apis [c1; c2] opts w).1
       = [failedTo (verbOf opts) (config.Coordinate c2)
            (configDeployErr c2 ("duplicated config name `" ++ n ++ "`"))] /\
     calls (DeployConfigs apis [c1; c2] opts w).2
       = (calls w ++ [client.CallUpsertConfigByName a n rendered1])%list).
Proof.
  split; [intros; eapply deployConfig_duplicate_name; eassumption |].
  intros apis opts w c1 c2 a p1 p2 n rendered1 entityId t'
    Hs1 Hs2 He1 Hse1 He2 Hse2 Ha1 Ha2 Hid Hu Hr1 Hn1 Hrender1 Hup Hr2 Hn2.
  set (st0 := mkLoopState (NewEntityMap apis) [] w).
  set (e1 := deployedEntity c1 p1 (api.mkEntity entityId n)).
  (* the first config: one upsert, no error *)
  assert (exists w1,
             attempt opts apis c1 st0 = (e1, [], w1) /\
             calls w1 = (calls w ++ [client.CallUpsertConfigByName a n rendered1])%list)
    as (w1 & Hat1 & Hcalls1).
  { unfold attempt. destruct (getWordsForLogging (DryRun opts)) as [logAction logVerb].
    rewrite He1, Hse1.
    destruct (deployConfig_upsert_by_name apis (entityMap st0) c1
                (logEvent (InfoAction logAction (config.Coordinate c1)) (world st0))
                a p1 n rendered1 (api.mkEntity entityId n) t'
                Ha1 Hu Hr1 Hn1 (Known_NewEntityMap apis _ _) Hrender1 Hup)
      as (w1 & Hd & Hc & _).
    exists w1. split; [exact Hd | exact Hc]. }
  set (st1 := mkLoopState (PutResolved (config.Coordinate c1) e1 (NewEntityMap apis)) [] w1).
  assert (iteration opts apis c1 st0 = Continue st1) as Hit1.
  { rewrite iteration_success by (try assumption; rewrite Hat1; reflexivity).
    rewrite Hat1. reflexivity. }
  (* the second config: the name is known by now *)
  assert (attempt opts apis c2 st1
          = (parameter.zero,
             [configDeployErr c2 ("duplicated config name `" ++ n ++ "`")],
             logEvent (InfoAction (getWordsForLogging (DryRun opts)).1 (config.Coordinate c2)) w1))
    as Hat2.
  { unfold attempt. destruct (getWordsForLogging (DryRun opts)) as [logAction logVerb].
    rewrite He2, Hse2. cbn [fst].
    eapply deployConfig_duplicate_name; eauto.
    rewrite Hid. apply (Known_PutResolved (config.Coordinate c1) e1). reflexivity. }
  unfold DeployConfigs, runDeployConfigs. fold st0. cbn [loop fst snd].
  rewrite Hit1.
  rewrite iteration_errors by (try assumption; rewrite Hat2; discriminate).
  cbv zeta. rewrite Hat2. cbn [fst snd].
  destruct (negb (ContinueOnErr opts) && negb (DryRun opts)); cbn; auto.
Qed.

(** C6: with the resolved properties at hand, deploySetting returns an error
    and leaves the world as it was (UpsertSettings is not called) when the
    properties have no [scope] entry or the entry is the empty string; when
    the scope is not the empty string and the template renders, it calls
    UpsertSettings exactly once, with id = the config's configId, the
    config's schemaId and schemaVersion, the scope, the rendered content and
    the originObjectId. *)
Theorem deploySetting_needs_a_scope (em : EntityMap) (c : config.Config) (w : World S)
    (properties : parameter.Properties) :
  resolveProperties c (Resolved em) = (properties, []) ->
  (properties !! "scope" = None \/
   properties !! "scope" = Some (parameter.StringValue "") ->
   exists err, deploySetting em c w = (parameter.zero, [err], w)) /\
  (forall (scope : parameter.Value) (renderedConfig : string),
     properties !! "scope" = Some scope ->
     scope <> parameter.StringValue "" ->
     Render c properties = Ok renderedConfig ->
     calls (deploySetting em c w).2
     = (calls w ++
        [client.CallUpsertSettings
           (client.mkSettingsObject
              (coordinate.ConfigId (config.Coordinate c))
              (config.SchemaId (config.Type' c))
              (config.SchemaVersion (config.Type' c))
              (parameter.Sprint scope)
              renderedConfig
              (config.OriginObjectId c))])%list).
Proof.
  intros Hr. split.
  - intros Hscope. unfold deploySetting, extractScope. rewrite Hr. cbn.
    change config.ScopeParameter with "scope".
    destruct Hscope as [-> | ->]; [eauto |].
    destruct (decide _) as [_ | Hne]; [eauto | congruence].
  - intros scope renderedConfig Hscope Hne Hrender.
    unfold deploySetting, extractScope. rewrite Hr. cbn.
    change config.ScopeParameter with "scope". rewrite Hscope.
    destruct (decide _) as [Heq | _]; [congruence |].
    rewrite Hrender. unfold callUpsertSettings.
    destruct (client.UpsertSettings _ _) as [[entity | err] t']; reflexivity.
Qed.

(** Every call that deployConfig adds is an upsert of the config at hand. *)
Lemma deployConfig_calls (apis : api.ApiMap) (em : EntityMap) (conf : config.Config)
    (w : World S) :
  calls (deployConfig apis em conf w).2 = calls w \/
  exists (a : api.Api) (configName renderedConfig : string),
    apis !! coordinate.Type_ (config.Coordinate conf) = Some a /\
    calls (deployConfig apis em conf w).2
    = (calls w ++
       [if api.IsNonUniqueNameApi a
        then client.CallUpsertConfigByNonUniqueNameAndId a (entityUuid conf)
               configName renderedConfig
        else client.CallUpsertConfigByName a configName renderedConfig])%list.
Proof.
  unfold deployConfig, upsertNonUniqueNameConfig, callUpsertConfigByNonUniqueNameAndId,
    callUpsertConfigByName.
  destruct (apis !! _) as [a |] eqn:Ha; [| left; reflexivity].
  destruct (resolveProperties _ _) as [properties errs].
  destruct (0 <? length errs)%nat; [left; reflexivity |].
  destruct (extractConfigName _ _) as [configName | err]; [| left; reflexivity].
  destruct (0 <? length _)%nat; [left; reflexivity |].
  destruct (Render _ _) as [renderedConfig | err]; [| left; reflexivity].
  right. exists a, configName, renderedConfig. split; [reflexivity |].
  destruct (decide (api.DeprecatedBy a = "")), (api.IsNonUniqueNameApi a); cbn;
    repeat match goal with
           | |- context [client.UpsertConfigByName ?a ?n ?p ?t] =>
               destruct (client.UpsertConfigByName a n p t) as [[? | ?] ?]
           | |- context [client.UpsertConfigByNonUniqueNameAndId ?a ?i ?n ?p ?t] =>
               destruct (client.UpsertConfigByNonUniqueNameAndId a i n p t) as [[? | ?] ?]
           end; reflexivity.
Qed.

(** C7: whatever deployConfig does for a config, an id it hands to
    UpsertConfigByNonUniqueNameAndId is [stableId project configId]: the
    configId itself when that is a UUID or an ME-id, the UUID derived from
    (project, configId) otherwise.  [stableId] is a function of the project
    and the configId alone, so the id is the same on every run and for every
    config with this project and configId. *)
Theorem nonUniqueName_upsert_uses_stable_id
    (apis : api.ApiMap) (em : EntityMap) (conf : config.Config) (w : World S) :
  entityUuid conf
    = stableId (coordinate.Project (config.Coordinate conf))
               (coordinate.ConfigId (config.Coordinate conf)) /\
  (forall (a : api.Api) (configName renderedConfig : string) (w0 : World S),
     calls (upsertNonUniqueNameConfig a conf configName renderedConfig w0).2
     = (calls w0 ++
        [client.CallUpsertConfigByNonUniqueNameAndId a
           (stableId (coordinate.Project (config.Coordinate conf))
                     (coordinate.ConfigId (config.Coordinate conf)))
           configName renderedConfig])%list) /\
  exists added : list client.Call,
    calls (deployConfig apis em conf w).2 = (calls w ++ added)%list /\
    forall (a : api.Api) (entityId configName renderedConfig : string),
      client.CallUpsertConfigByNonUniqueNameAndId a entityId configName renderedConfig
        ∈ added ->
      entityId = stableId (coordinate.Project (config.Coordinate conf))
                          (coordinate.ConfigId (config.Coordinate conf)).
Proof.
  assert (entityUuid conf
          = stableId (coordinate.Project (config.Coordinate conf))
                     (coordinate.ConfigId (config.Coordinate conf))) as Hid.
  { unfold entityUuid, stableId. cbv zeta.
    destruct (IsUuid _ || IsMeId _); reflexivity. }
  split; [exact Hid |]. split.
  - intros a configName renderedConfig w0.
    unfold upsertNonUniqueNameConfig, callUpsertConfigByNonUniqueNameAndId. rewrite Hid.
    destruct (client.UpsertConfigByNonUniqueNameAndId _ _ _ _ _) as [r t']. reflexivity.
  - destruct (deployConfig_calls apis em conf w) as [Hsame | (a & n & p & _ & Hcall)].
    + exists []. rewrite app_nil_r. split; [exact Hsame |].
      intros a entityId n p Hin. apply elem_of_nil in Hin. contradiction.
    + eexists. split; [exact Hcall |].
      intros a' entityId n' p' Hin. apply list_elem_of_singleton in Hin.
      destruct (api.IsNonUniqueNameApi a); [| discriminate].
      injection Hin as -> -> -> ->. exact Hid.
Qed.

End DeploymentProperties.

(** *** The deployment run on concrete inputs *)
Section DeploymentExamples.
Import deploy fixtures.

(** A skipped dashboard: recorded, and the accepting tenant is never asked. *)
Lemma skipped_config_witness :
  exists st',
    iteration (F := formats) (Hp := helpers) (Cl := acceptingClient)
      stopOnError apis skipped start = Continue st' /\
    calls (world st') = [] /\
    Resolved (entityMap st') !! config.Coordinate skipped
    = Some (parameter.mk "skipped" (config.Coordinate skipped) ∅ true).
Proof.
  destruct (skipped_config_is_recorded_without_client_call
              (F := formats) (Hp := helpers) (Cl := acceptingClient)
              stopOnError apis skipped [] start eq_refl)
    as (st' & Hit & Hcalls & _ & _ & _ & Hput & _).
  exists st'. split; [exact Hit |]. split; [rewrite Hcalls; reflexivity | exact Hput].
Defined.

(** A dashboard that the accepting tenant takes is recorded under its own
    Coordinate. *)
Lemma iteration_records_entity_witness :
  exists st' e,
    iteration (F := formats) (Hp := helpers) (Cl := acceptingClient)
      stopOnError apis overview start = Continue st' /\
    Resolved (entityMap st') !! config.Coordinate overview = Some e /\
    parameter.Coordinate e = config.Coordinate overview.
Proof.
  apply (iteration_records_entity_of_skip_or_success
           (F := formats) (Hp := helpers) (Cl := acceptingClient)).
  right. repeat split; vm_compute; reflexivity.
Defined.

(** C1 as stated fails: the refusing tenant makes deployConfig return an
    error for the dashboard; with continueOnError the iteration goes on, and
    afterwards the entity map holds nothing under the dashboard's Coordinate
    (the zero-valued entity sits under the zero-valued Coordinate). *)
Lemma failed_config_is_not_recorded_under_its_coordinate :
  exists st',
    iteration (F := formats) (Hp := helpers) (Cl := refusingClient)
      continueOnError apis overview start = Continue st' /\
    deploymentErrors (F := formats) (Hp := helpers) (Cl := refusingClient)
      continueOnError apis overview start
    = [configDeployErr overview "HTTP 400"] /\
    Resolved (entityMap st') !! config.Coordinate overview = None /\
    Resolved (entityMap st') !! coordinate.zero = Some parameter.zero.
Proof.
  eexists. split; [vm_compute; reflexivity |].
  split; [vm_compute; reflexivity |].
  split; vm_compute; reflexivity.
Qed.

(** Stop mode: the dashboard is fine, the config of an unknown API fails, the
    alerting profile after it is never deployed.  Continue mode: all three
    are handled and both failures are reported. *)
Lemma DeployConfigs_stops_on_first_error_witness :
  calls (world (loop (F := formats) (Hp := helpers) (Cl := acceptingClient)
                  stopOnError apis ([overview] ++ unknownApi :: [profile]) start))
  = [client.CallUpsertConfigByName dashboard "Overview" "{}"] /\
  handled (logs (DeployConfigs (F := formats) (Hp := helpers) (Cl := acceptingClient)
                   apis [settingEmptyScope; unknownApi; profile] dryRun fresh).2)
  = map config.Coordinate [settingEmptyScope; unknownApi; profile] /\
  length (DeployConfigs (F := formats) (Hp := helpers) (Cl := acceptingClient)
            apis [settingEmptyScope; unknownApi; profile] dryRun fresh).1 = 2.
Proof.
  pose proof (DeployConfigs_stops_on_first_error_iff
                (F := formats) (Hp := helpers) (Cl := acceptingClient) stopOnError apis)
    as (Hstop & _ & _).
  pose proof (DeployConfigs_stops_on_first_error_iff
                (F := formats) (Hp := helpers) (Cl := acceptingClient) dryRun apis)
    as (_ & _ & Hall).
  split.
  - destruct (Hstop eq_refl eq_refl [overview] unknownApi [profile] start) as [-> _];
      [vm_compute; reflexivity | vm_compute; discriminate |].
    vm_compute. reflexivity.
  - destruct (Hall (or_intror eq_refl)) as [_ Hrun].
    destruct (Hrun [settingEmptyScope; unknownApi; profile] fresh) as [Hlog Herrs].
    split; [rewrite Hlog; reflexivity |].
    rewrite Herrs. vm_compute. reflexivity.
Defined.

(** The twin of the dashboard has the same name: one upsert, one error. *)
Lemma duplicate_name_witness :
  deployConfig (F := formats) (Hp := helpers) (Cl := acceptingClient) apis
    (PutResolved (config.Coordinate overview)
       (parameter.mk "Overview" (config.Coordinate overview) ∅ false)
       (NewEntityMap apis))
    overviewTwin fresh
  = (parameter.zero,
     [configDeployErr overviewTwin "duplicated config name `Overview`"], fresh) /\
  (DeployConfigs (F := formats) (Hp := helpers) (Cl := acceptingClient)
     apis [overview; overviewTwin] stopOnError fresh).1
  = [failedTo "deploy" (config.Coordinate overviewTwin)
       (configDeployErr overviewTwin "duplicated config name `Overview`")] /\
  calls (DeployConfigs (F := formats) (Hp := helpers) (Cl := acceptingClient)
           apis [overview; overviewTwin] stopOnError fresh).2
  = [client.CallUpsertConfigByName dashboard "Overview" "{}"].
Proof.
  pose proof (duplicate_name_is_an_error_without_upsert
                (F := formats) (Hp := helpers) (Cl := acceptingClient)) as [Hdup Hrun].
  split.
  - apply (Hdup apis _ overviewTwin fresh dashboard
             (resolveAll overviewTwin ∅) .1 "Overview"); vm_compute; reflexivity.
  - apply (Hrun apis stopOnError fresh overview overviewTwin dashboard
             (resolveAll overview ∅).1 (resolveAll overviewTwin ∅).1
             "Overview" "{}" "id-of-Overview" 1); vm_compute; reflexivity.
Defined.

(** C5, the consequence without its conditions: the two dashboards resolve
    to the same name [Overview], but the tenant answers the first upsert with
    the name [Overview (1)], which is the name the entity map then knows; the
    second dashboard is upserted as well, and DeployConfigs returns no
    error. *)
Lemma same_name_is_upserted_twice_after_renaming :
  extractConfigName (Helpers := helpers) overview (resolveAll overview ∅).1 = Ok "Overview" /\
  extractConfigName (Helpers := helpers) overviewTwin
    (resolveAll overviewTwin
       {[ config.Coordinate overview :=
            deployedEntity overview (resolveAll overview ∅).1
              (api.mkEntity "id-of-Overview" "Overview (1)") ]}).1
    = Ok "Overview" /\
  api.IsNonUniqueNameApi dashboard = false /\
  (DeployConfigs (F := formats) (Hp := helpers) (Cl := renamingClient)
     apis [overview; overviewTwin] stopOnError fresh).1 = [] /\
  calls (DeployConfigs (F := formats) (Hp := helpers) (Cl := renamingClient)
           apis [overview; overviewTwin] stopOnError fresh).2
  = [client.CallUpsertConfigByName dashboard "Overview" "{}";
     client.CallUpsertConfigByName dashboard "Overview" "{}"].
Proof.
  repeat split; vm_compute; reflexivity.
Qed.

(** Three settings objects: scope "environment", scope "", no scope. *)
Lemma deploySetting_needs_a_scope_witness :
  calls (deploySetting (F := formats) (Hp := helpers) (Cl := acceptingClient)
           (NewEntityMap apis) setting fresh).2
  = [client.CallUpsertSettings
       (client.mkSettingsObject "setting" "builtin:tags" "1.0" "environment" "{}"
          "origin-1")] /\
  (exists err,
     deploySetting (F := formats) (Hp := helpers) (Cl := acceptingClient)
       (NewEntityMap apis) settingEmptyScope fresh = (parameter.zero, [err], fresh)) /\
  (exists err,
     deploySetting (F := formats) (Hp := helpers) (Cl := acceptingClient)
       (NewEntityMap apis) settingNoScope fresh = (parameter.zero, [err], fresh)).
Proof.
  split; [| split].
  - apply (proj2 (deploySetting_needs_a_scope
                    (F := formats) (Hp := helpers) (Cl := acceptingClient)
                    (NewEntityMap apis) setting fresh (resolveAll setting ∅).1
                    ltac:(vm_compute; reflexivity))
             (parameter.StringValue "environment") "{}");
      [vm_compute; reflexivity | discriminate | vm_compute; reflexivity].
  - apply (proj1 (deploySetting_needs_a_scope
                    (F := formats) (Hp := helpers) (Cl := acceptingClient)
                    (NewEntityMap apis) settingEmptyScope fresh
                    (resolveAll settingEmptyScope ∅).1
                    ltac:(vm_compute; reflexivity))).
    right. vm_compute. reflexivity.
  - apply (proj1 (deploySetting_needs_a_scope
                    (F := formats) (Hp := helpers) (Cl := acceptingClient)
                    (NewEntityMap apis) settingNoScope fresh
                    (resolveAll settingNoScope ∅).1
                    ltac:(vm_compute; reflexivity))).
    left. vm_compute. reflexivity.
Defined.

(** The alerting profile (an API with non-unique names) has a configId that
    is neither a UUID nor an ME-id: the id is derived from project and
    configId. *)
Lemma nonUniqueName_upsert_witness :
  entityUuid (Hp := helpers) profile = "uuid-of:project/profile" /\
  calls (upsertNonUniqueNameConfig (Hp := helpers) (Cl := acceptingClient)
           alertingProfile profile "Profile" "{}" fresh).2
  = [client.CallUpsertConfigByNonUniqueNameAndId alertingProfile
       "uuid-of:project/profile" "Profile" "{}"].
Proof.
  destruct (nonUniqueName_upsert_uses_stable_id
              (F := formats) (Hp := helpers) (Cl := acceptingClient)
              apis (NewEntityMap apis) profile fresh) as (Hid & Hcall & _).
  split; [rewrite Hid; reflexivity |].
  rewrite Hcall. reflexivity.
Defined.

End DeploymentExamples.

(** ** settings: the download engine *)
Section DownloadProperties.
Import settings.

Context {Co : Codec}.

(** The accumulator of the loop is only appended to. *)
Lemma convertLoop_acc (d : Downloader) (objects : list client.DownloadSettingsObject)
    (projectName : string) (acc : list config.Config) :
  convertLoop d objects projectName acc
  = (acc ++ convertLoop d objects projectName [])%list.
Proof.
  revert acc. induction objects as [|o rest IH]; intros acc; cbn.
  - now rewrite app_nil_r.
  - destruct (Unmarshal (client.Value o)) as [content | err]; [| now rewrite app_nil_r].
    destruct (ShouldDiscard _ _).1; [apply IH |].
    rewrite IH, (IH [_]), app_assoc. reflexivity.
Qed.

Lemma convertAllObjects_cons (d : Downloader) (o : client.DownloadSettingsObject)
    (rest : list client.DownloadSettingsObject) (projectName : string) :
  convertAllObjects d (o :: rest) projectName
  = if parses o
    then ((if survives d o then [convertObject o projectName] else [])
          ++ convertAllObjects d rest projectName)%list
    else [].
Proof.
  unfold convertAllObjects, parses, survives. cbn.
  destruct (Unmarshal (client.Value o)) as [content | err]; [| reflexivity].
  destruct (ShouldDiscard _ _).1; cbn; [reflexivity |].
  now rewrite convertLoop_acc.
Qed.

(** As long as every value parses, the result is the conversion of the
    objects that the filters keep, in listing order. *)
Lemma convertAllObjects_all_parse (d : Downloader)
    (objects : list client.DownloadSettingsObject) (projectName : string) :
  Forall (fun o => parses o = true) objects ->
  convertAllObjects d objects projectName
  = map (fun o => convertObject o projectName) (List.filter (survives d) objects).
Proof.
  induction 1 as [|o rest Ho _ IH]; [reflexivity |].
  rewrite convertAllObjects_cons, Ho, IH. cbn.
  destruct (survives d o); reflexivity.
Qed.

(** C9: if the value of [o] does not parse as a JSON object while the values
    of all objects listed before it do, the conversion of the schema stops at
    [o]: the result is exactly the conversion of the objects before [o] (of
    those the filters keep, in listing order), whatever follows [o]. *)
Theorem convertAllObjects_stops_at_unparseable (d : Downloader)
    (before : list client.DownloadSettingsObject) (o : client.DownloadSettingsObject)
    (after : list client.DownloadSettingsObject) (projectName : string) :
  Forall (fun x => parses x = true) before ->
  parses o = false ->
  convertAllObjects d (before ++ o :: after) projectName
  = convertAllObjects d before projectName /\
  convertAllObjects d before projectName
  = map (fun x => convertObject x projectName) (List.filter (survives d) before).
Proof.
  intros Hbefore Ho. split; [| apply convertAllObjects_all_parse; assumption].
  induction Hbefore as [|x before Hx _ IH]; cbn [app].
  - rewrite convertAllObjects_cons, Ho. reflexivity.
  - rewrite !convertAllObjects_cons, Hx, IH. reflexivity.
Qed.

(** *** download *)

Lemma downloadOne_lookup (d : Downloader) (projectName s s' : string)
    (results : ConfigsPerType) :
  downloadOne d projectName s results !! s'
  = if decide (s = s')
    then match assigned d projectName s with
         | Some configs => Some configs
         | None => results !! s'
         end
    else results !! s'.
Proof.
  unfold downloadOne, assigned.
  destruct (ListSettings (client_ d) s) as [objects | err];
    [destruct (Nat.eqb (length objects) 0) |]; destruct (decide (s = s')) as [-> | Hne];
    try reflexivity.
  - apply lookup_insert_eq.
  - apply lookup_insert_ne. assumption.
Qed.

(** The entry of a schema does not depend on the order of the goroutines. *)
Lemma downloadIn_lookup (d : Downloader) (order : list string) (projectName s : string) :
  downloadIn d order projectName !! s
  = if decide (s ∈ order) then assigned d projectName s else None.
Proof.
  unfold downloadIn. induction order as [|x order IH] using rev_ind.
  - cbn. rewrite lookup_empty. destruct (decide (s ∈ [])) as [Hin | _]; [| reflexivity].
    apply elem_of_nil in Hin. contradiction.
  - rewrite foldl_app. cbn. rewrite downloadOne_lookup, IH.
    destruct (decide (x = s)) as [-> | Hne].
    + destruct (decide (s ∈ (order ++ [s])%list)) as [_ | Hnot];
        [| exfalso; apply Hnot; set_solver].
      destruct (assigned d projectName s); [reflexivity |].
      destruct (decide (s ∈ order)); reflexivity.
    + destruct (decide (s ∈ order)) as [Hin | Hnin];
        destruct (decide (s ∈ (order ++ [x])%list)) as [Hin' | Hnin']; try reflexivity;
        exfalso.
      * apply Hnin', elem_of_app. left. assumption.
      * apply elem_of_app in Hin' as [Hin' | Hin']; [contradiction |].
        apply list_elem_of_singleton in Hin'. congruence.
Qed.

(** Every order in which the goroutines reach the mutex gives the map that
    [download] stands for. *)
Lemma download_in_any_order (d : Downloader) (schemas order : list string)
    (projectName : string) :
  order ≡ₚ schemas ->
  downloadIn d order projectName = download d schemas projectName.
Proof.
  intros Hperm. apply map_eq. intros s. unfold download.
  rewrite !downloadIn_lookup.
  destruct (decide (s ∈ order)) as [Hin | Hnin];
    destruct (decide (s ∈ schemas)) as [Hin' | Hnin']; try reflexivity; exfalso.
  - apply Hnin'. rewrite <- Hperm. assumption.
  - apply Hnin. rewrite Hperm. assumption.
Qed.

(** C3, as amended: the map returned by download has no entry for a schema
    that was not asked for, whose fetch failed or whose fetch returned no
    object; a schema that was asked for and whose fetch returned at least one
    object has an entry, and the entry is what convertAllObjects makes of the
    objects, whatever its length. *)
Theorem download_omits_failed_and_empty_fetches (d : Downloader) (schemas : list string)
    (projectName s : string) :
  (download d schemas projectName !! s = None <->
   s ∉ schemas \/
   (exists err, ListSettings (client_ d) s = Err err) \/
   ListSettings (client_ d) s = Ok []) /\
  (forall objects : list client.DownloadSettingsObject,
     s ∈ schemas ->
     ListSettings (client_ d) s = Ok objects ->
     objects <> [] ->
     download d schemas projectName !! s = Some (convertAllObjects d objects projectName)).
Proof.
  unfold download. rewrite downloadIn_lookup. unfold assigned. split.
  - destruct (decide (s ∈ schemas)) as [Hin | Hnin]; [| tauto].
    destruct (ListSettings (client_ d) s) as [[|o objects] | err]; cbn.
    + tauto.
    + split; [discriminate |].
      intros [Hnin | [[err Herr] | Hnil]]; [contradiction | discriminate | discriminate].
    + split; eauto.
  - intros objects Hin Hlist Hne.
    destruct (decide (s ∈ schemas)) as [_ | Hnin]; [| contradiction].
    rewrite Hlist. destruct objects as [|o objects]; [congruence | reflexivity].
Qed.

End DownloadProperties.

(** *** The download run on a concrete tenant *)
Section DownloadExamples.
Import settings fixtures.

(** C3 as stated fails: all presets are discarded and the only object of
    the broken schema does not parse, yet both schemas have an entry in the
    returned map, and the entry is the empty list. *)
Lemma download_keeps_empty_entries :
  download (Co := codec) downloader ["builtin:presets"; "builtin:broken"] "project"
    !! "builtin:presets" = Some [] /\
  download (Co := codec) downloader ["builtin:presets"; "builtin:broken"] "project"
    !! "builtin:broken" = Some [].
Proof. split; vm_compute; reflexivity. Qed.

(** The forbidden schema and the schema without objects have no entry; the
    tags have one, with the two tags listed before the broken one. *)
Lemma download_omits_witness :
  download (Co := codec) downloader
    ["builtin:tags"; "builtin:forbidden"; "builtin:nothing"] "project"
    !! "builtin:forbidden" = None /\
  download (Co := codec) downloader
    ["builtin:tags"; "builtin:forbidden"; "builtin:nothing"] "project"
    !! "builtin:nothing" = None /\
  download (Co := codec) downloader
    ["builtin:tags"; "builtin:forbidden"; "builtin:nothing"] "project"
    !! "builtin:tags"
  = Some [convertObject (Co := codec) (tag "t1" "{}") "project";
          convertObject (Co := codec) (tag "t2" "{}") "project"].
Proof.
  pose proof (download_omits_failed_and_empty_fetches (Co := codec) downloader
                ["builtin:tags"; "builtin:forbidden"; "builtin:nothing"] "project") as Hd.
  split; [| split].
  - apply (proj1 (Hd "builtin:forbidden")). right. left.
    exists (errorString "HTTP 403"). reflexivity.
  - apply (proj1 (Hd "builtin:nothing")). right. right. reflexivity.
  - rewrite (proj2 (Hd "builtin:tags")
               [tag "t1" "{}"; tag "t2" "{}"; tag "t3" "oops"; tag "t4" "{}"]);
      [reflexivity | repeat constructor | reflexivity | discriminate].
Defined.

(** The third tag is broken: the first two are converted, the fourth is not. *)
Lemma convertAllObjects_stops_witness :
  convertAllObjects (Co := codec) downloader
    ([tag "t1" "{}"; tag "t2" "{}"] ++ tag "t3" "oops" :: [tag "t4" "{}"]) "project"
  = [convertObject (Co := codec) (tag "t1" "{}") "project";
     convertObject (Co := codec) (tag "t2" "{}") "project"].
Proof.
  destruct (convertAllObjects_stops_at_unparseable (Co := codec) downloader
              [tag "t1" "{}"; tag "t2" "{}"] (tag "t3" "oops") [tag "t4" "{}"] "project")
    as [Hstop Hbefore].
  - repeat constructor.
  - reflexivity.
  - rewrite Hstop, Hbefore. reflexivity.
Defined.

End DownloadExamples.

(** ** delete: the environments Delete acts upon *)
Section DeleteProperties.
Import delete.

Context {F : Formats} {Co : Collaborators}.

(** What the name filter alone selects from the full manifest, with the
    error message of Delete. *)
Lemma selectEnvironments_no_group (m : manifest.Manifest) (environmentNames : list string) :
  environmentNames <> [] ->
  selectEnvironments m environmentNames ""
  = match FilterByNames (manifest.Environments_ m) environmentNames with
    | Err err => Err (wrapError ("failed to load environments: " ++ Error err) err)
    | Ok environments => Ok environments
    end.
Proof.
  intros Hne. unfold selectEnvironments. cbn.
  destruct environmentNames; [congruence | reflexivity].
Qed.

(** The guard on the group filter comes first. *)
Lemma selectEnvironments_empty_group (m : manifest.Manifest)
    (environmentNames : list string) (environmentGroup : string) :
  environmentGroup <> "" ->
  size (FilterByGroup (manifest.Environments_ m) environmentGroup) = 0 ->
  selectEnvironments m environmentNames environmentGroup
  = Err (errorString ("no environments in group " ++ Quote environmentGroup)).
Proof.
  intros Hg Hsize. unfold selectEnvironments.
  destruct (decide (environmentGroup = "")); [contradiction |].
  rewrite Hsize. reflexivity.
Qed.

(** C10, as amended: when the environment-names list is not empty and the
    group filter, if one is given, selects at least one environment, the
    environments selected are those that filtering the manifest's full set
    of environments by the names gives, so the group filter has no effect on
    the selection and on what Delete does; when a group is given that selects
    no environment, the selection fails with "no environments in group"
    before the names are looked at. *)
Theorem names_filter_replaces_group_filter (m : manifest.Manifest)
    (environmentNames : list string) (environmentGroup : string) :
  environmentNames <> [] ->
  (environmentGroup = "" \/
   size (FilterByGroup (manifest.Environments_ m) environmentGroup) <> 0 ->
   selectEnvironments m environmentNames environmentGroup
   = match FilterByNames (manifest.Environments_ m) environmentNames with
     | Err err => Err (wrapError ("failed to load environments: " ++ Error err) err)
     | Ok environments => Ok environments
     end /\
   selectEnvironments m environmentNames environmentGroup
   = selectEnvironments m environmentNames "" /\
   forall (fs : Fs) (deploymentManifestPath deletePath : string),
     (forall path, Abs deploymentManifestPath = Ok path -> (LoadManifest fs path).1 = m) ->
     Delete fs deploymentManifestPath deletePath environmentNames environmentGroup
     = Delete fs deploymentManifestPath deletePath environmentNames "") /\
  (environmentGroup <> "" ->
   size (FilterByGroup (manifest.Environments_ m) environmentGroup) = 0 ->
   selectEnvironments m environmentNames environmentGroup
   = Err (errorString ("no environments in group " ++ Quote environmentGroup))).
Proof.
  intros Hnames. split; [| apply selectEnvironments_empty_group].
  intros Hguard.
  assert (selectEnvironments m environmentNames environmentGroup
          = selectEnvironments m environmentNames "") as Hsame.
  { unfold selectEnvironments. cbn.
    destruct (decide (environmentGroup = "")) as [-> | Hg]; [reflexivity |].
    destruct Hguard as [? | Hsize]; [contradiction |].
    destruct (Nat.eqb_spec (size (FilterByGroup (manifest.Environments_ m) environmentGroup)) 0);
      [contradiction |].
    destruct environmentNames; [congruence | reflexivity]. }
  split; [rewrite Hsame; apply selectEnvironments_no_group; assumption |].
  split; [exact Hsame |].
  intros fs deploymentManifestPath deletePath Hm. unfold Delete.
  destruct (Abs deploymentManifestPath) as [path | err]; [| reflexivity].
  destruct (Abs deletePath) as [path' | err]; [| reflexivity].
  specialize (Hm path eq_refl).
  destruct (LoadManifest fs path) as [m' manifestLoadError]. cbn in Hm. subst m'.
  destruct manifestLoadError; [| reflexivity].
  destruct (LoadEntriesToDelete _ _ _ _) as [entriesToDelete errs].
  destruct errs; [| reflexivity].
  rewrite Hsame. reflexivity.
Qed.

End DeleteProperties.

(** *** Delete run on a concrete manifest *)
Section DeleteExamples.
Import delete fixtures.

(** The names dev-1 and prod-1 with the group dev: both environments are
    acted upon, as without a group. *)
Lemma names_filter_replaces_group_filter_witness :
  Delete (F := formats) (Co := collaborators) tt "manifest.yaml" "delete.yaml"
    ["dev-1"; "prod-1"] "dev"
  = Delete (F := formats) (Co := collaborators) tt "manifest.yaml" "delete.yaml"
      ["dev-1"; "prod-1"] "" /\
  selectEnvironments (F := formats) (Co := collaborators) loaded ["dev-1"; "prod-1"] "dev"
  = Ok (<["dev-1" := dev1]> (<["prod-1" := prod1]> ∅)) /\
  selectEnvironments (F := formats) (Co := collaborators) loaded ["dev-1"] "staging"
  = Err (errorString ("no environments in group " ++ doubleQuote ++ "staging" ++ doubleQuote)).
Proof.
  destruct (names_filter_replaces_group_filter (F := formats) (Co := collaborators)
              loaded ["dev-1"; "prod-1"] "dev" ltac:(discriminate)) as [Hpass _].
  destruct Hpass as (Hsel & _ & Hdelete).
  { right. vm_compute. discriminate. }
  destruct (names_filter_replaces_group_filter (F := formats) (Co := collaborators)
              loaded ["dev-1"] "staging" ltac:(discriminate)) as [_ Hguard].
  split; [apply Hdelete; intros path _; reflexivity |].
  split; [rewrite Hsel; reflexivity |].
  apply Hguard; [discriminate | vm_compute; reflexivity].
Defined.

(** C10 as stated fails: with the name dev-1 and the group staging, which
    has no environment, Delete returns an error and acts upon nothing,
    although filtering the manifest's full set of environments by the name
    selects dev-1, and Delete acts upon dev-1 when no group is given. *)
Lemma group_filter_can_stop_delete :
  acted (Delete (F := formats) (Co := collaborators) tt "manifest.yaml" "delete.yaml"
           ["dev-1"] "staging") = [] /\
  returned (Delete (F := formats) (Co := collaborators) tt "manifest.yaml" "delete.yaml"
              ["dev-1"] "staging")
  = Some (errorString ("no environments in group " ++ doubleQuote ++ "staging" ++ doubleQuote)) /\
  FilterByNames (Collaborators := collaborators) (manifest.Environments_ loaded) ["dev-1"]
  = Ok {[ "dev-1" := dev1 ]} /\
  acted (Delete (F := formats) (Co := collaborators) tt "manifest.yaml" "delete.yaml"
           ["dev-1"] "") = [dev1].
Proof. repeat split; vm_compute; reflexivity. Qed.

End DeleteExamples.

(** * Further properties

    ** idutils: what the external ID keeps of its input *)
Section ExternalIDFurther.
Import idutils.

Lemma append_assoc (s t u : string) : (s ++ t) ++ u = s ++ (t ++ u).
Proof.
  induction s as [|c s IH]; [reflexivity |].
  change (String c ((s ++ t) ++ u) = String c (s ++ t ++ u)). f_equal. exact IH.
Qed.

Lemma sliceFrom_app (n : nat) (a b : string) :
  String.length a <= n ->
  sliceFrom n (a ++ b) = sliceFrom (n - String.length a) b.
Proof.
  revert n. induction a as [|c a IH]; intros n Hlen; cbn in *.
  - now rewrite Nat.sub_0_r.
  - destruct n as [|n]; [lia |]. cbn. apply IH. lia.
Qed.

(** The encoder works on groups of three bytes: a prefix made of whole
    groups is encoded on its own. *)
Lemma EncodeToString_app (p s : string) :
  String.length p mod 3 = 0 ->
  EncodeToString (p ++ s) = EncodeToString p ++ EncodeToString s.
Proof.
  induction p as [| a | a b | a b c rest IH] using string_ind3; intros Hmod.
  - reflexivity.
  - discriminate Hmod.
  - discriminate Hmod.
  - cbn [String.length] in Hmod.
    replace (S (S (S (String.length rest)))) with (String.length rest + 1 * 3) in Hmod by lia.
    rewrite Nat.Div0.mod_add in Hmod.
    change (String a (String b (String c rest)) ++ s)
      with (String a (String b (String c (rest ++ s)))).
    cbn [EncodeToString]. rewrite (IH Hmod). reflexivity.
Qed.

(** The encoding of [schema$ID] is kept whole exactly for inputs of at most
    369 bytes in all (separator included); every longer input loses the head
    of its encoding. *)
Theorem GenerateExternalID_whole_iff (schema ID : string) :
  GenerateExternalID schema ID = "monaco:" ++ EncodeToString (schema ++ "$" ++ ID) <->
  String.length schema + 1 + String.length ID <= 369.
Proof.
  pose proof (EncodeToString_length (schema ++ "$" ++ ID)) as Hl.
  rewrite !append_length in Hl. cbn [String.length] in Hl.
  set (n := String.length schema + 1 + String.length ID).
  replace (String.length schema + (1 + String.length ID) + 2) with (n + 2) in Hl
    by (subst n; lia).
  pose proof (Nat.div_mod_eq (n + 2) 3) as Hd.
  pose proof (Nat.mod_upper_bound (n + 2) 3 ltac:(lia)) as Hm.
  destruct (Nat.le_gt_cases (String.length (EncodeToString (schema ++ "$" ++ ID))) 493)
    as [Hs | Hs].
  - split; [lia | intros _; apply GenerateExternalID_fits; assumption].
  - split; [| lia]. intros Heq. apply (f_equal String.length) in Heq.
    destruct (GenerateExternalID_cut _ _ Hs) as [_ Hcut]. rewrite Hcut in Heq.
    rewrite append_length in Heq. cbn [String.length] in Heq. lia.
Qed.

(** The separator is not escaped: a dollar sign may be read as the end of the
    schema or as a part of the ID, and both readings give the same external
    ID. *)
Theorem GenerateExternalID_separator_is_ambiguous (schema middle ID : string) :
  GenerateExternalID (schema ++ "$" ++ middle) ID
  = GenerateExternalID schema (middle ++ "$" ++ ID).
Proof.
  unfold GenerateExternalID.
  replace ((schema ++ "$" ++ middle) ++ "$" ++ ID)
    with (schema ++ "$" ++ (middle ++ "$" ++ ID)); [reflexivity |].
  rewrite !append_assoc. reflexivity.
Qed.

(** Only the bytes from position 369 on reach the external ID of a long
    input: two schemas that differ in their first 369 bytes and agree in the
    rest get the same external ID, whatever the ID. *)
Theorem GenerateExternalID_forgets_long_prefix (head1 head2 rest ID : string) :
  String.length head1 = 369 ->
  String.length head2 = 369 ->
  GenerateExternalID (head1 ++ rest) ID = GenerateExternalID (head2 ++ rest) ID.
Proof.
  assert (forall head,
            String.length head = 369 ->
            GenerateExternalID (head ++ rest) ID
            = "monaco:" ++ sliceFrom 1 (EncodeToString (rest ++ "$" ++ ID))) as Hone.
  { intros head Hlen.
    assert (String.length (EncodeToString head) = 492) as Hhead
        by (rewrite EncodeToString_length, Hlen; reflexivity).
    assert (EncodeToString ((head ++ rest) ++ "$" ++ ID)
            = EncodeToString head ++ EncodeToString (rest ++ "$" ++ ID)) as Henc.
    { rewrite append_assoc. apply EncodeToString_app. rewrite Hlen. reflexivity. }
    assert (4 <= String.length (EncodeToString (rest ++ "$" ++ ID))) as Htail.
    { rewrite EncodeToString_length, !append_length. cbn [String.length].
      pose proof (Nat.div_mod_eq (String.length rest + (1 + String.length ID) + 2) 3).
      pose proof (Nat.mod_upper_bound (String.length rest + (1 + String.length ID) + 2) 3
                    ltac:(lia)).
      lia. }
    destruct (GenerateExternalID_cut (head ++ rest) ID) as [-> _].
    - rewrite Henc, append_length. lia.
    - rewrite Henc, sliceFrom_app by lia. rewrite Hhead. reflexivity. }
  intros H1 H2. rewrite (Hone head1 H1), (Hone head2 H2). reflexivity.
Qed.

End ExternalIDFurther.

Section ExternalIDFurtherExamples.
Import idutils.

(** Two schemas of 372 bytes, one starting with 369 a's and one with 369
    b's, collide. *)
Lemma GenerateExternalID_forgets_long_prefix_witness :
  GenerateExternalID (repeatByte "a" 369 ++ "xyz") "id"
  = GenerateExternalID (repeatByte "b" 369 ++ "xyz") "id".
Proof.
  apply GenerateExternalID_forgets_long_prefix; vm_compute; reflexivity.
Defined.

End ExternalIDFurtherExamples.

(** ** deploy: what DeployConfigs does to errors, log and client *)
Section DeploymentFurther.
Import deploy.

Context {F : Formats} {Hp : Helpers} {S : Type} {Cl : client.Client S}.

(** Whatever way an iteration ends, it has appended the wrapped deployment
    errors of its config and written one log line that names the config. *)
Lemma iteration_effect (opts : DeployConfigsOptions) (apis : api.ApiMap)
    (c : config.Config) (st : LoopState) :
  exists st',
    (iteration opts apis c st = Continue st' \/ iteration opts apis c st = Return st') /\
    errors st'
    = (errors st ++ map (failedTo (verbOf opts) (config.Coordinate c))
                        (deploymentErrors opts apis c st))%list /\
    handled (logs (world st'))
    = (handled (logs (world st)) ++ [config.Coordinate c])%list.
Proof.
  unfold deploymentErrors. destruct (config.Skip c) eqn:Hs.
  - rewrite iteration_skip by assumption. eexists. split; [left; reflexivity |]. cbn.
    rewrite app_nil_r. split; [reflexivity |]. unfold handled. rewrite omap_app. reflexivity.
  - destruct (decide ((attempt opts apis c st).1.2 = [])) as [Hnil | Hne].
    + rewrite iteration_success by assumption. eexists. split; [left; reflexivity |]. cbn.
      rewrite Hnil. cbn. rewrite app_nil_r. split; [reflexivity | apply attempt_handled].
    + rewrite iteration_errors by assumption. cbv zeta.
      destruct (negb (ContinueOnErr opts) && negb (DryRun opts));
        eexists; (split; [(left; reflexivity) || (right; reflexivity) |]); cbn;
        (split; [reflexivity | apply attempt_handled]).
Qed.

(** In stop mode an iteration that goes on has added no error. *)
Lemma iteration_continue_in_stop_mode (opts : DeployConfigsOptions) (apis : api.ApiMap)
    (c : config.Config) (st st' : LoopState) :
  ContinueOnErr opts = false -> DryRun opts = false ->
  iteration opts apis c st = Continue st' ->
  errors st' = errors st /\ deploymentErrors opts apis c st = [].
Proof.
  intros Hc Hd Hit. unfold deploymentErrors. destruct (config.Skip c) eqn:Hs.
  - rewrite iteration_skip in Hit by assumption. simplify_eq. auto.
  - destruct (decide ((attempt opts apis c st).1.2 = [])) as [Hnil | Hne].
    + rewrite iteration_success in Hit by assumption. simplify_eq. auto.
    + rewrite iteration_errors in Hit by assumption. cbv zeta in Hit.
      rewrite Hc, Hd in Hit. discriminate.
Qed.

(** An iteration ends the loop only after deployment errors. *)
Lemma iteration_return_has_errors (opts : DeployConfigsOptions) (apis : api.ApiMap)
    (c : config.Config) (st st' : LoopState) :
  iteration opts apis c st = Return st' -> deploymentErrors opts apis c st <> [].
Proof.
  intros Hret. unfold deploymentErrors. destruct (config.Skip c) eqn:Hs.
  - rewrite iteration_skip in Hret by assumption. discriminate.
  - intros Hnil. rewrite iteration_success in Hret by assumption. discriminate.
Qed.

(** Every error DeployConfigs returns, in every mode, is the wrapped error of
    one of the given configs that is not skipped: it carries that config's
    Coordinate and the verb of the mode. *)
Theorem DeployConfigs_errors_are_wrapped (apis : api.ApiMap)
    (sortedConfigs : list config.Config) (opts : DeployConfigsOptions) (w : World S) :
  Forall (fun err =>
            exists (c : config.Config) (cause : error),
              c ∈ sortedConfigs /\ config.Skip c = false /\
              err = failedTo (verbOf opts) (config.Coordinate c) cause)
         (DeployConfigs apis sortedConfigs opts w).1.
Proof.
  unfold DeployConfigs, runDeployConfigs. cbn [fst].
  set (P := fun err =>
              exists (c : config.Config) (cause : error),
                c ∈ sortedConfigs /\ config.Skip c = false /\
                err = failedTo (verbOf opts) (config.Coordinate c) cause).
  assert (forall cs st,
            (forall c, c ∈ cs -> c ∈ sortedConfigs) ->
            Forall P (errors st) -> Forall P (errors (loop opts apis cs st))) as Hloop.
  { induction cs as [|c cs IH]; intros st Hsub Hst; cbn [loop]; [assumption |].
    destruct (iteration_effect opts apis c st) as (st' & Hit & Herr & _).
    assert (Forall P (errors st')) as Hst'.
    { rewrite Herr. apply Forall_app. split; [assumption |].
      apply Forall_forall. intros err Hin. apply list_elem_of_fmap in Hin as (cause & -> & Hin).
      exists c, cause. split; [apply Hsub; left |]. split; [| reflexivity].
      unfold deploymentErrors in Hin. destruct (config.Skip c); [| reflexivity].
      apply elem_of_nil in Hin. contradiction. }
    destruct Hit as [-> | ->]; [| assumption].
    apply IH; [| assumption]. intros c' Hc'. apply Hsub. right. assumption. }
  apply Hloop; [auto | constructor].
Qed.


(** DeployConfigs handles the configs in the given order and never passes
    over one: what the log reports as handled is a prefix of sortedConfigs,
    and all of it when no error is returned. *)
Theorem DeployConfigs_handles_a_prefix (apis : api.ApiMap)
    (sortedConfigs : list config.Config) (opts : DeployConfigsOptions) (w : World S) :
  exists k : nat,
    k <= length sortedConfigs /\
    handled (logs (DeployConfigs apis sortedConfigs opts w).2)
    = (handled (logs w) ++ map config.Coordinate (take k sortedConfigs))%list /\
    ((DeployConfigs apis sortedConfigs opts w).1 = [] -> k = length sortedConfigs).
Proof.
  unfold DeployConfigs, runDeployConfigs. cbn [fst snd].
  assert (forall cs st,
            exists k : nat,
              k <= length cs /\
              handled (logs (world (loop opts apis cs st)))
              = (handled (logs (world st)) ++ map config.Coordinate (take k cs))%list /\
              (errors (loop opts apis cs st) = errors st -> k = length cs)) as Hloop.
  { induction cs as [|c cs IH]; intros st; cbn [loop].
    - exists 0. cbn. rewrite app_nil_r. auto.
    - destruct (iteration_effect opts apis c st) as (st' & Hit & Herr & Hh).
      destruct Hit as [Hit | Hit]; rewrite Hit.
      + destruct (IH st') as (k & Hk & Hlog & Hall). exists (Datatypes.S k).
        split; [cbn; lia |]. split.
        * rewrite Hlog, Hh, <- app_assoc. reflexivity.
        * intros Hsame. cbn. f_equal. apply Hall.
          destruct (loop_errors_grow opts apis cs st') as [more Hmore].
          rewrite Hmore, Herr, <- app_assoc in Hsame.
          rewrite <- (app_nil_r (errors st)) in Hsame at 2.
          apply app_inv_head in Hsame. apply app_eq_nil in Hsame as [_ ->].
          rewrite Hmore, app_nil_r. reflexivity.
      + exists 1. split; [cbn; lia |]. split; [exact Hh |].
        intros Hsame. exfalso.
        apply (iteration_return_has_errors opts apis c st st' Hit).
        rewrite Herr in Hsame. rewrite <- (app_nil_r (errors st)) in Hsame at 2.
        apply app_inv_head in Hsame. apply map_eq_nil in Hsame. exact Hsame. }
  destruct (Hloop sortedConfigs (mkLoopState (NewEntityMap apis) [] w))
    as (k & Hk & Hlog & Hall).
  exists k. auto.
Qed.

(** *** Client calls *)

Lemma deploySetting_calls (em : EntityMap) (c : config.Config) (w : World S) :
  calls (deploySetting em c w).2 = calls w \/
  exists obj : client.SettingsObject,
    calls (deploySetting em c w).2 = (calls w ++ [client.CallUpsertSettings obj])%list.
Proof.
  unfold deploySetting, callUpsertSettings.
  destruct (resolveProperties _ _) as [properties errs].
  destruct (0 <? length errs)%nat; [left; reflexivity |].
  destruct (extractScope properties) as [scope | err]; [| left; reflexivity].
  destruct (Render _ _) as [renderedConfig | err]; [| left; reflexivity].
  right. eexists.
  destruct (client.UpsertSettings _ _) as [[entity | err] t']; reflexivity.
Qed.

Lemma attempt_calls (opts : DeployConfigsOptions) (apis : api.ApiMap) (c : config.Config)
    (st : LoopState) :
  exists added : list client.Call,
    calls (attempt opts apis c st).2 = (calls (world st) ++ added)%list /\
    length added <= (if IsEntities (config.Type' c) then 0 else 1).
Proof.
  unfold attempt. destruct (getWordsForLogging (DryRun opts)) as [logAction logVerb].
  destruct (IsEntities (config.Type' c)); [| destruct (IsSettings (config.Type' c))].
  - exists []. cbn. rewrite app_nil_r. auto.
  - destruct (deploySetting_calls (entityMap st) c
                (logEvent (InfoAction logAction (config.Coordinate c)) (world st)))
      as [Hsame | [obj Hcall]].
    + exists []. rewrite Hsame, app_nil_r. cbn. auto.
    + eexists. split; [exact Hcall | cbn; lia].
  - destruct (deployConfig_calls apis (entityMap st) c
                (logEvent (InfoAction logAction (config.Coordinate c)) (world st)))
      as [Hsame | (a & n & p & _ & Hcall)].
    + exists []. rewrite Hsame, app_nil_r. cbn. auto.
    + eexists. split; [exact Hcall | cbn; lia].
Qed.

Lemma iteration_calls (opts : DeployConfigsOptions) (apis : api.ApiMap)
    (c : config.Config) (st : LoopState) :
  exists (st' : LoopState) (added : list client.Call),
    (iteration opts apis c st = Continue st' \/ iteration opts apis c st = Return st') /\
    calls (world st') = (calls (world st) ++ added)%list /\
    length added <= (if deployable c then 1 else 0).
Proof.
  unfold deployable. destruct (config.Skip c) eqn:Hs.
  - rewrite iteration_skip by assumption. eexists; exists []. split; [left; reflexivity |].
    cbn. rewrite app_nil_r. auto.
  - destruct (attempt_calls opts apis c st) as (added & Hcalls & Hlen).
    assert (length added <= (if negb false && negb (IsEntities (config.Type' c))
                             then 1 else 0)) as Hlen'
        by (destruct (IsEntities (config.Type' c)); exact Hlen).
    destruct (decide ((attempt opts apis c st).1.2 = [])) as [Hnil | Hne].
    + rewrite iteration_success by assumption. eexists; exists added.
      split; [left; reflexivity |]. cbn [world]. auto.
    + rewrite iteration_errors by assumption. cbv zeta.
      destruct (negb (ContinueOnErr opts) && negb (DryRun opts));
        eexists; exists added; (split; [(left; reflexivity) || (right; reflexivity) |]);
        cbn [world]; auto.
Qed.

(** DeployConfigs only adds to the client calls made before, and it adds at
    most one call for each config that is neither skipped nor of type
    entities. *)
Theorem DeployConfigs_calls_at_most_once_per_config (apis : api.ApiMap)
    (sortedConfigs : list config.Config) (opts : DeployConfigsOptions) (w : World S) :
  exists added : list client.Call,
    calls (DeployConfigs apis sortedConfigs opts w).2 = (calls w ++ added)%list /\
    length added <= length (List.filter deployable sortedConfigs).
Proof.
  unfold DeployConfigs, runDeployConfigs. cbn [snd].
  assert (forall cs st,
            exists added : list client.Call,
              calls (world (loop opts apis cs st)) = (calls (world st) ++ added)%list /\
              length added <= length (List.filter deployable cs)) as Hloop.
  { induction cs as [|c cs IH]; intros st; cbn [loop List.filter].
    - exists []. rewrite app_nil_r. cbn. auto.
    - destruct (iteration_calls opts apis c st) as (st' & added & Hit & Hcalls & Hlen).
      destruct Hit as [-> | ->].
      + destruct (IH st') as (added' & Hcalls' & Hlen').
        exists (added ++ added')%list. split.
        * rewrite Hcalls', Hcalls, app_assoc. reflexivity.
        * rewrite length_app. destruct (deployable c); cbn [length]; lia.
      + exists added. split; [exact Hcalls |].
        destruct (deployable c); cbn [length]; lia. }
  apply Hloop.
Qed.

(** *** What a deployment returns *)

Lemma deployedEntity_properties (conf : config.Config) (properties : parameter.Properties)
    (entity : api.DynatraceEntity) :
  parameter.Properties_ (deployedEntity conf properties entity) !! "id"
  = Some (parameter.StringValue (api.Id entity)) /\
  parameter.Properties_ (deployedEntity conf properties entity) !! "name"
  = Some (parameter.StringValue (api.Name entity)) /\
  forall k : string,
    k <> "id" -> k <> "name" ->
    parameter.Properties_ (deployedEntity conf properties entity) !! k = properties !! k.
Proof.
  unfold deployedEntity. cbn.
  change config.IdParameter with "id". change config.NameParameter with "name".
  split; [| split].
  - rewrite lookup_insert_ne by discriminate. apply lookup_insert_eq.
  - apply lookup_insert_eq.
  - intros k Hid Hname. rewrite !lookup_insert_ne by congruence. reflexivity.
Qed.

(** When deployConfig or deploySetting returns no error, all parameters of the
    config were resolved without error and exactly one client call was made;
    the client answered that call, on the tenant as it was, with an entity,
    and the tenant is left as that call left it.  The entity returned carries
    the config's Coordinate, is not skipped, has the name of the client's
    answer, and holds the resolved properties with [id] and [name] set to the
    id and the name of the client's answer. *)
Theorem successful_deployment_sets_id_and_name (apis : api.ApiMap) (em : EntityMap)
    (conf : config.Config) (w w' : World S) (e : parameter.ResolvedEntity) :
  deployConfig apis em conf w = (e, [], w') \/ deploySetting em conf w = (e, [], w') ->
  exists (properties : parameter.Properties) (entity : api.DynatraceEntity)
         (call : client.Call),
    resolveProperties conf (Resolved em) = (properties, []) /\
    calls w' = (calls w ++ [call])%list /\
    answer call (tenant w) = (Ok entity, tenant w') /\
    parameter.EntityName e = api.Name entity /\
    parameter.Coordinate e = config.Coordinate conf /\
    parameter.Skip e = false /\
    parameter.Properties_ e !! "id" = Some (parameter.StringValue (api.Id entity)) /\
    parameter.Properties_ e !! "name" = Some (parameter.StringValue (api.Name entity)) /\
    forall k : string,
      k <> "id" -> k <> "name" -> parameter.Properties_ e !! k = properties !! k.
Proof.
  intros Hdeploy.
  assert (exists (properties : parameter.Properties) (entity : api.DynatraceEntity)
                 (call : client.Call),
             resolveProperties conf (Resolved em) = (properties, []) /\
             calls w' = (calls w ++ [call])%list /\
             answer call (tenant w) = (Ok entity, tenant w') /\
             e = deployedEntity conf properties entity)
    as (properties & entity & call & Hr & Hcalls & Hanswer & ->).
  { destruct Hdeploy as [Hd | Hd]; revert Hd.
    - unfold deployConfig.
      destruct (apis !! _) as [a |]; [| discriminate].
      destruct (resolveProperties _ _) as [properties errs].
      destruct errs as [|err errs]; [| discriminate]. cbn.
      destruct (extractConfigName _ _) as [configName | err]; [| discriminate].
      destruct (Known _ _ _ && _); [discriminate |]. cbn.
      destruct (Render _ _) as [renderedConfig | err]; [| discriminate].
      unfold upsertNonUniqueNameConfig, callUpsertConfigByNonUniqueNameAndId,
        callUpsertConfigByName.
      destruct (decide (api.DeprecatedBy a = "")), (api.IsNonUniqueNameApi a); cbn.
      all: match goal with
           | |- context [client.UpsertConfigByName ?a ?n ?p ?t] =>
               destruct (client.UpsertConfigByName a n p t) as [[entity | err] t'] eqn:Hcall
           | |- context [client.UpsertConfigByNonUniqueNameAndId ?a ?i ?n ?p ?t] =>
               destruct (client.UpsertConfigByNonUniqueNameAndId a i n p t)
                 as [[entity | err] t'] eqn:Hcall
           end.
      all: intros Heq; inversion Heq; subst.
      all: exists properties, entity; eexists.
      all: split; [reflexivity |]; split; [reflexivity |]; split; [exact Hcall | reflexivity].
    - unfold deploySetting.
      destruct (resolveProperties _ _) as [properties errs].
      destruct errs as [|err errs]; [| discriminate]. cbn.
      destruct (extractScope _) as [scope | err]; [| discriminate].
      destruct (Render _ _) as [renderedConfig | err]; [| discriminate].
      unfold callUpsertSettings.
      destruct (client.UpsertSettings _ _) as [[entity | err] t'] eqn:Hcall;
        intros Heq; inversion Heq; subst.
      exists properties, entity; eexists.
      split; [reflexivity |]; split; [reflexivity |]; split; [exact Hcall | reflexivity]. }
  exists properties, entity, call.
  destruct (deployedEntity_properties conf properties entity) as (Hid & Hname & Hrest).
  repeat split; assumption.
Qed.

(** An error of deployConfig or deploySetting either left the world exactly as
    it was (no client call, no log line), or exactly one client call was
    made, the client refused that call on the tenant as it was, and the
    single error returned is made from the text of the client's error. *)
Theorem failed_deployment_is_local_or_the_clients (apis : api.ApiMap) (em : EntityMap)
    (conf : config.Config) (w w' : World S) (e : parameter.ResolvedEntity)
    (errs : list error) :
  deployConfig apis em conf w = (e, errs, w') \/ deploySetting em conf w = (e, errs, w') ->
  errs <> [] ->
  w' = w \/
  exists (err : error) (call : client.Call),
    calls w' = (calls w ++ [call])%list /\
    answer call (tenant w) = (Err err, tenant w') /\
    errs = [configDeployErr conf (Error err)].
Proof.
  intros [Hd | Hd] Hne; revert Hd.
  - unfold deployConfig, upsertNonUniqueNameConfig, callUpsertConfigByNonUniqueNameAndId,
      callUpsertConfigByName.
    destruct (apis !! _) as [a |]; [| intros; simplify_eq; left; reflexivity].
    destruct (resolveProperties _ _) as [properties errs0].
    destruct (0 <? length errs0)%nat; [intros; simplify_eq; left; reflexivity |].
    destruct (extractConfigName _ _) as [configName | err];
      [| intros; simplify_eq; left; reflexivity].
    destruct (0 <? length _)%nat; [intros; simplify_eq; left; reflexivity |].
    destruct (Render _ _) as [renderedConfig | err];
      [| intros; simplify_eq; left; reflexivity].
    destruct (decide (api.DeprecatedBy a = "")), (api.IsNonUniqueNameApi a); cbn.
    all: match goal with
         | |- context [client.UpsertConfigByName ?a ?n ?p ?t] =>
             destruct (client.UpsertConfigByName a n p t) as [[entity | err] t'] eqn:Hcall
         | |- context [client.UpsertConfigByNonUniqueNameAndId ?a ?i ?n ?p ?t] =>
             destruct (client.UpsertConfigByNonUniqueNameAndId a i n p t)
               as [[entity | err] t'] eqn:Hcall
         end.
    all: intros Heq; inversion Heq; subst; try congruence.
    all: right; exists err; eexists.
    all: split; [reflexivity |]; split; [exact Hcall | reflexivity].
  - unfold deploySetting, callUpsertSettings.
    destruct (resolveProperties _ _) as [properties errs0].
    destruct (0 <? length errs0)%nat; [intros; simplify_eq; left; reflexivity |].
    destruct (extractScope _) as [scope | err]; [| intros; simplify_eq; left; reflexivity].
    destruct (Render _ _) as [renderedConfig | err];
      [| intros; simplify_eq; left; reflexivity].
    destruct (client.UpsertSettings _ _) as [[entity | err] t'] eqn:Hcall;
      intros Heq; inversion Heq; subst; try congruence.
    right. exists err; eexists.
    split; [reflexivity |]; split; [exact Hcall | reflexivity].
Qed.

(** An API that permits non-unique names is not subject to the duplicate-name
    check: whether or not the entity map knows the name, deployConfig upserts
    the config by its stable id. *)
Theorem nonUniqueName_api_is_not_checked_for_duplicates (apis : api.ApiMap)
    (em : EntityMap) (conf : config.Config) (w : World S) (a : api.Api)
    (properties : parameter.Properties) (configName renderedConfig : string) :
  apis !! coordinate.Type_ (config.Coordinate conf) = Some a ->
  api.IsNonUniqueNameApi a = true ->
  resolveProperties conf (Resolved em) = (properties, []) ->
  extractConfigName conf properties = Ok configName ->
  Render conf properties = Ok renderedConfig ->
  calls (deployConfig apis em conf w).2
  = (calls w ++
     [client.CallUpsertConfigByNonUniqueNameAndId a (entityUuid conf)
        configName renderedConfig])%list.
Proof.
  intros Ha Hn Hr Hname Hrender.
  unfold deployConfig, upsertNonUniqueNameConfig, callUpsertConfigByNonUniqueNameAndId.
  rewrite Ha, Hr. cbn. rewrite Hname, Hn, andb_false_r. cbn. rewrite Hrender.
  destruct (decide (api.DeprecatedBy a = "")); cbn;
    destruct (client.UpsertConfigByNonUniqueNameAndId _ _ _ _ _) as [[entity | err] t'];
    reflexivity.
Qed.

(** A config of type entities that is not skipped is never deployed, even if
    its type also counts as settings: its iteration makes no client call,
    leaves the tenant alone, adds no error and lets the loop go on. *)
Theorem entities_are_not_deployed (opts : DeployConfigsOptions) (apis : api.ApiMap)
    (c : config.Config) (rest : list config.Config) (st : LoopState) :
  config.Skip c = false ->
  IsEntities (config.Type' c) = true ->
  exists st',
    iteration opts apis c st = Continue st' /\
    calls (world st') = calls (world st) /\
    tenant (world st') = tenant (world st) /\
    errors st' = errors st /\
    Resolved (entityMap st') !! config.Coordinate c
    = (if decide (config.Coordinate c = coordinate.zero) then Some parameter.zero
       else Resolved (entityMap st) !! config.Coordinate c) /\
    loop opts apis (c :: rest) st = loop opts apis rest st'.
Proof.
  intros Hs He.
  assert (attempt opts apis c st
          = (parameter.zero, [],
             logEvent (DebugNotDeployable (config.EntitiesType (config.Type' c)))
               (logEvent (InfoAction (getWordsForLogging (DryRun opts)).1
                                     (config.Coordinate c)) (world st)))) as Hat.
  { unfold attempt. destruct (getWordsForLogging (DryRun opts)). rewrite He. reflexivity. }
  eexists. split.
  { rewrite iteration_success by (try assumption; rewrite Hat; reflexivity).
    rewrite Hat. reflexivity. }
  cbn [world entityMap errors fst snd]. repeat split.
  - rewrite Resolved_PutResolved. cbn.
    destruct (decide (config.Coordinate c = coordinate.zero)) as [-> | Hne].
    + apply lookup_insert_eq.
    + apply lookup_insert_ne. congruence.
  - cbn [loop]. rewrite iteration_success by (try assumption; rewrite Hat; reflexivity).
    rewrite Hat. reflexivity.
Qed.

(** *** Dry run *)

(** Neither deploy function reads the log: what it returns and what it does
    to the tenant and the call list depends on the tenant and the call list
    alone. *)
Lemma deployConfig_frame (apis : api.ApiMap) (em : EntityMap) (conf : config.Config)
    (w1 w2 : World S) :
  tenant w1 = tenant w2 -> calls w1 = calls w2 ->
  (deployConfig apis em conf w1).1 = (deployConfig apis em conf w2).1 /\
  tenant (deployConfig apis em conf w1).2 = tenant (deployConfig apis em conf w2).2 /\
  calls (deployConfig apis em conf w1).2 = calls (deployConfig apis em conf w2).2.
Proof.
  destruct w1 as [t1 c1 l1], w2 as [t2 c2 l2]. cbn. intros -> ->.
  unfold deployConfig, upsertNonUniqueNameConfig, callUpsertConfigByNonUniqueNameAndId,
    callUpsertConfigByName, logEvent.
  repeat (case_match; simplify_eq; cbn in * ); auto.
Qed.

Lemma deploySetting_frame (em : EntityMap) (c : config.Config) (w1 w2 : World S) :
  tenant w1 = tenant w2 -> calls w1 = calls w2 ->
  (deploySetting em c w1).1 = (deploySetting em c w2).1 /\
  tenant (deploySetting em c w1).2 = tenant (deploySetting em c w2).2 /\
  calls (deploySetting em c w1).2 = calls (deploySetting em c w2).2.
Proof.
  destruct w1 as [t1 c1 l1], w2 as [t2 c2 l2]. cbn. intros -> ->.
  unfold deploySetting, callUpsertSettings.
  repeat (case_match; simplify_eq; cbn in * ); auto.
Qed.

Lemma attempt_frame (opts1 opts2 : DeployConfigsOptions) (apis : api.ApiMap)
    (c : config.Config) (st1 st2 : LoopState) :
  entityMap st1 = entityMap st2 ->
  tenant (world st1) = tenant (world st2) ->
  calls (world st1) = calls (world st2) ->
  (attempt opts1 apis c st1).1 = (attempt opts2 apis c st2).1 /\
  tenant (attempt opts1 apis c st1).2 = tenant (attempt opts2 apis c st2).2 /\
  calls (attempt opts1 apis c st1).2 = calls (attempt opts2 apis c st2).2.
Proof.
  intros Hem Ht Hc. unfold attempt. rewrite Hem.
  destruct (getWordsForLogging (DryRun opts1)) as [action1 verb1].
  destruct (getWordsForLogging (DryRun opts2)) as [action2 verb2].
  destruct (IsEntities (config.Type' c)); [cbn; auto |].
  destruct (IsSettings (config.Type' c)).
  - apply deploySetting_frame; assumption.
  - apply deployConfig_frame; assumption.
Qed.

(** For DeployConfigs a dry run is a run with continueOnError: apart from the
    verb in the errors and the words in the log, the two (and any two runs
    that do not stop on errors) end with the same entity map, the same
    tenant, the same client calls and the same errors for the same
    Coordinates.  DeployConfigs itself holds back no client call in a dry
    run. *)
Theorem DeployConfigs_dry_run_differs_in_words_only (apis : api.ApiMap)
    (sortedConfigs : list config.Config) (opts1 opts2 : DeployConfigsOptions)
    (w : World S) :
  ContinueOnErr opts1 = true \/ DryRun opts1 = true ->
  ContinueOnErr opts2 = true \/ DryRun opts2 = true ->
  entityMap (runDeployConfigs apis sortedConfigs opts1 w)
  = entityMap (runDeployConfigs apis sortedConfigs opts2 w) /\
  tenant (DeployConfigs apis sortedConfigs opts1 w).2
  = tenant (DeployConfigs apis sortedConfigs opts2 w).2 /\
  calls (DeployConfigs apis sortedConfigs opts1 w).2
  = calls (DeployConfigs apis sortedConfigs opts2 w).2 /\
  map unwrapped (DeployConfigs apis sortedConfigs opts1 w).1
  = map unwrapped (DeployConfigs apis sortedConfigs opts2 w).1.
Proof.
  intros Hm1 Hm2. unfold DeployConfigs, runDeployConfigs. cbn [fst snd].
  set (R := fun st1 st2 : LoopState (S := S) =>
              entityMap st1 = entityMap st2 /\
              tenant (world st1) = tenant (world st2) /\
              calls (world st1) = calls (world st2) /\
              map unwrapped (errors st1) = map unwrapped (errors st2)).
  assert (forall c st1 st2,
            R st1 st2 ->
            exists st1' st2',
              iteration opts1 apis c st1 = Continue st1' /\
              iteration opts2 apis c st2 = Continue st2' /\
              R st1' st2') as Hstep.
  { intros c st1 st2 (Hem & Ht & Hc & He).
    destruct (config.Skip c) eqn:Hs.
    - rewrite !iteration_skip by assumption. do 2 eexists.
      split; [reflexivity |]. split; [reflexivity |].
      unfold R. cbn. rewrite Hem. auto.
    - destruct (attempt_frame opts1 opts2 apis c st1 st2 Hem Ht Hc) as (Hres & Ht' & Hc').
      destruct (decide ((attempt opts1 apis c st1).1.2 = [])) as [Hnil | Hne].
      + assert ((attempt opts2 apis c st2).1.2 = []) as Hnil2 by (rewrite <- Hres; exact Hnil).
        rewrite !iteration_success by assumption. do 2 eexists.
        split; [reflexivity |]. split; [reflexivity |].
        unfold R. cbn. rewrite Hem, Hres. auto.
      + assert ((attempt opts2 apis c st2).1.2 <> []) as Hne2 by (rewrite <- Hres; exact Hne).
        rewrite !iteration_errors by assumption. cbv zeta.
        replace (negb (ContinueOnErr opts1) && negb (DryRun opts1)) with false
          by (destruct Hm1 as [-> | ->]; [reflexivity | now rewrite andb_false_r]).
        replace (negb (ContinueOnErr opts2) && negb (DryRun opts2)) with false
          by (destruct Hm2 as [-> | ->]; [reflexivity | now rewrite andb_false_r]).
        do 2 eexists. split; [reflexivity |]. split; [reflexivity |].
        unfold R. cbn. rewrite Hem. repeat split; try assumption.
        rewrite !map_app, He, Hres, !map_map. reflexivity. }
  assert (forall cs st1 st2,
            R st1 st2 -> R (loop opts1 apis cs st1) (loop opts2 apis cs st2)) as Hloop.
  { induction cs as [|c cs IH]; intros st1 st2 HR; cbn [loop]; [assumption |].
    destruct (Hstep c st1 st2 HR) as (st1' & st2' & -> & -> & HR'). apply IH. assumption. }
  apply Hloop. unfold R. cbn. auto.
Qed.

End DeploymentFurther.

Section DeploymentFurtherExamples.
Import deploy fixtures.


(** The dashboard on the accepting tenant: one call, and the entity has the
    id and the name of the tenant's answer to it. *)
Lemma successful_deployment_witness :
  exists (properties : parameter.Properties) (entity : api.DynatraceEntity)
         (call : client.Call),
    resolveAll overview ∅ = (properties, []) /\
    calls (deployConfig (F := formats) (Hp := helpers) (Cl := acceptingClient)
             apis (NewEntityMap apis) overview fresh).2
    = (calls fresh ++ [call])%list /\
    answer (Cl := acceptingClient) call (tenant fresh)
    = (Ok entity,
       tenant (deployConfig (F := formats) (Hp := helpers) (Cl := acceptingClient)
                 apis (NewEntityMap apis) overview fresh).2) /\
    api.Name entity = "Overview" /\
    parameter.Properties_
      (deployConfig (F := formats) (Hp := helpers) (Cl := acceptingClient)
         apis (NewEntityMap apis) overview fresh).1.1 !! "id"
    = Some (parameter.StringValue (api.Id entity)).
Proof.
  destruct (successful_deployment_sets_id_and_name
              (F := formats) (Hp := helpers) (Cl := acceptingClient)
              apis (NewEntityMap apis) overview fresh
              (deployConfig (F := formats) (Hp := helpers) (Cl := acceptingClient)
                 apis (NewEntityMap apis) overview fresh).2
              (deployConfig (F := formats) (Hp := helpers) (Cl := acceptingClient)
                 apis (NewEntityMap apis) overview fresh).1.1)
    as (properties & entity & call & Hr & Hcalls & Hanswer & Hname & _ & _ & Hid & _).
  { left. vm_compute. reflexivity. }
  exists properties, entity, call.
  split; [exact Hr |]. split; [exact Hcalls |]. split; [exact Hanswer |].
  split; [| exact Hid].
  rewrite <- Hname. vm_compute. reflexivity.
Defined.

(** The dashboard on the refusing tenant: one call, and the one error is made
    from the tenant's refusal of it. *)
Lemma failed_deployment_witness :
  exists (err : error) (call : client.Call),
    calls (deployConfig (F := formats) (Hp := helpers) (Cl := refusingClient)
             apis (NewEntityMap apis) overview fresh).2 = (calls fresh ++ [call])%list /\
    answer (Cl := refusingClient) call (tenant fresh)
    = (Err err,
       tenant (deployConfig (F := formats) (Hp := helpers) (Cl := refusingClient)
                 apis (NewEntityMap apis) overview fresh).2) /\
    (deployConfig (F := formats) (Hp := helpers) (Cl := refusingClient)
       apis (NewEntityMap apis) overview fresh).1.2
    = [configDeployErr overview (@Error formats err)].
Proof.
  destruct (failed_deployment_is_local_or_the_clients
              (F := formats) (Hp := helpers) (Cl := refusingClient)
              apis (NewEntityMap apis) overview fresh
              (deployConfig (F := formats) (Hp := helpers) (Cl := refusingClient)
                 apis (NewEntityMap apis) overview fresh).2
              (deployConfig (F := formats) (Hp := helpers) (Cl := refusingClient)
                 apis (NewEntityMap apis) overview fresh).1.1
              (deployConfig (F := formats) (Hp := helpers) (Cl := refusingClient)
                 apis (NewEntityMap apis) overview fresh).1.2)
    as [Hsame | (err & call & Hcall & Hanswer & Herr)].
  - left. vm_compute. reflexivity.
  - vm_compute. discriminate.
  - vm_compute in Hsame. discriminate Hsame.
  - exists err, call. split; [exact Hcall |]. split; [exact Hanswer | exact Herr].
Defined.

(** The alerting profile is upserted although its name is already known. *)
Lemma nonUniqueName_api_witness :
  Known knowsProfile "alerting-profile" "Profile" = true /\
  calls (deployConfig (F := formats) (Hp := helpers) (Cl := acceptingClient)
           apis knowsProfile profile fresh).2
  = [client.CallUpsertConfigByNonUniqueNameAndId alertingProfile
       "uuid-of:project/profile" "Profile" "{}"].
Proof.
  split; [vm_compute; reflexivity |].
  rewrite (nonUniqueName_api_is_not_checked_for_duplicates
             (F := formats) (Hp := helpers) (Cl := acceptingClient)
             apis knowsProfile profile fresh alertingProfile
             (resolveAll profile (Resolved knowsProfile)).1 "Profile" "{}");
    vm_compute; reflexivity.
Defined.

(** The hosts are of type entities: nothing is called. *)
Lemma entities_are_not_deployed_witness :
  exists st',
    iteration (F := formats) (Hp := helpers) (Cl := acceptingClient)
      stopOnError apis hosts start = Continue st' /\
    calls (world st') = [] /\ errors st' = [].
Proof.
  destruct (entities_are_not_deployed
              (F := formats) (Hp := helpers) (Cl := acceptingClient)
              stopOnError apis hosts [] start)
    as (st' & Hit & Hcalls & _ & Herr & _).
  - reflexivity.
  - vm_compute. reflexivity.
  - exists st'. split; [exact Hit |]. split; [rewrite Hcalls | rewrite Herr]; reflexivity.
Defined.

(** A dry run and a run with continueOnError on the refusing tenant make the
    same two calls. *)
Lemma DeployConfigs_dry_run_witness :
  calls (DeployConfigs (F := formats) (Hp := helpers) (Cl := refusingClient)
           apis [overview; profile] dryRun fresh).2
  = calls (DeployConfigs (F := formats) (Hp := helpers) (Cl := refusingClient)
             apis [overview; profile] continueOnError fresh).2 /\
  length (calls (DeployConfigs (F := formats) (Hp := helpers) (Cl := refusingClient)
                   apis [overview; profile] dryRun fresh).2) = 2.
Proof.
  destruct (DeployConfigs_dry_run_differs_in_words_only
              (F := formats) (Hp := helpers) (Cl := refusingClient)
              apis [overview; profile] dryRun continueOnError fresh)
    as (_ & _ & Hcalls & _).
  - right. reflexivity.
  - left. reflexivity.
  - split; [exact Hcalls | vm_compute; reflexivity].
Defined.

End DeploymentFurtherExamples.

(** ** settings: what a download holds *)
Section DownloadFurther.
Import settings.

Context {Co : Codec}.

(** For every listing, the result of convertAllObjects is the conversion, in
    listing order, of the objects that are listed before the first
    unparseable one and that the filter of their schema keeps. *)
Theorem convertAllObjects_is_filtered_prefix (d : Downloader)
    (objects : list client.DownloadSettingsObject) (projectName : string) :
  convertAllObjects d objects projectName
  = map (fun o => convertObject o projectName)
        (List.filter (survives d) (parsedPrefix objects)).
Proof.
  induction objects as [|o rest IH]; [reflexivity |].
  rewrite convertAllObjects_cons. cbn [parsedPrefix].
  destruct (parses o); [| reflexivity].
  cbn [List.filter]. rewrite IH. destruct (survives d o); reflexivity.
Qed.

Lemma convertAllObjects_length (d : Downloader)
    (objects : list client.DownloadSettingsObject) (projectName : string) :
  length (convertAllObjects d objects projectName) <= length objects.
Proof.
  induction objects as [|o rest IH]; [reflexivity |].
  rewrite convertAllObjects_cons.
  destruct (parses o); [| cbn; lia].
  destruct (survives d o); cbn [app length]; lia.
Qed.

Lemma convertAllObjects_elem (d : Downloader)
    (objects : list client.DownloadSettingsObject) (projectName : string)
    (c : config.Config) :
  c ∈ convertAllObjects d objects projectName ->
  exists o : client.DownloadSettingsObject,
    o ∈ objects /\ parses o = true /\ survives d o = true /\
    c = convertObject o projectName.
Proof.
  induction objects as [|o rest IH].
  - intros Hin. apply elem_of_nil in Hin. contradiction.
  - rewrite convertAllObjects_cons.
    destruct (parses o) eqn:Hparses;
      [| intros Hin; apply elem_of_nil in Hin; contradiction].
    assert (c ∈ convertAllObjects d rest projectName ->
            exists o' : client.DownloadSettingsObject,
              o' ∈ o :: rest /\ parses o' = true /\ survives d o' = true /\
              c = convertObject o' projectName) as Hrest.
    { intros Hin. destruct (IH Hin) as (o' & Ho' & Hrest).
      exists o'. split; [right; exact Ho' | exact Hrest]. }
    destruct (survives d o) eqn:Hsurvives; [| exact Hrest].
    cbn [app]. intros Hin. apply elem_of_cons in Hin as [-> | Hin]; [| exact (Hrest Hin)].
    exists o. repeat split; [left | assumption | assumption].
Qed.

(** Every downloaded config comes from one listed object whose value parses
    and that is not discarded: it is not skipped, keeps the object's id as
    originObjectId, lies in the given project under the object's schema,
    and has the UUID derived from the object id as its configId and as its
    [name] parameter, and the object's scope as its [scope] parameter.  There
    are never more configs than objects. *)
Theorem downloaded_configs_come_from_objects (d : Downloader)
    (objects : list client.DownloadSettingsObject) (projectName : string) :
  length (convertAllObjects d objects projectName) <= length objects /\
  Forall (fun c =>
            exists o : client.DownloadSettingsObject,
              o ∈ objects /\ survives d o = true /\
              config.Skip c = false /\
              config.OriginObjectId c = client.ObjectId o /\
              config.Coordinate c
              = coordinate.mk projectName (client.DSchemaId o)
                  (GenerateUuidFromName (client.ObjectId o)) /\
              config.SchemaId (config.Type' c) = client.DSchemaId o /\
              config.SchemaVersion (config.Type' c) = client.DSchemaVersion o /\
              config.Parameters c !! "name"
              = Some (parameter.ValueParameter
                        (parameter.StringValue
                           (GenerateUuidFromName (client.ObjectId o)))) /\
              config.Parameters c !! "scope"
              = Some (parameter.ValueParameter
                        (parameter.StringValue (client.DScope o))))
         (convertAllObjects d objects projectName).
Proof.
  split; [apply convertAllObjects_length |].
  apply Forall_forall. intros c Hin.
  apply convertAllObjects_elem in Hin as (o & Hin & _ & Hsurv & ->).
  exists o. unfold convertObject. cbn.
  change config.NameParameter with "name". change config.ScopeParameter with "scope".
  repeat split; assumption.
Qed.

(** The map that download returns depends on the set of requested schemas
    only: neither the order of the list nor a schema given twice changes
    it. *)
Theorem download_depends_on_the_set_of_schemas (d : Downloader)
    (schemas1 schemas2 : list string) (projectName : string) :
  (forall s : string, s ∈ schemas1 <-> s ∈ schemas2) ->
  download d schemas1 projectName = download d schemas2 projectName.
Proof.
  intros Hsame. apply map_eq. intros s. unfold download.
  rewrite !downloadIn_lookup.
  destruct (decide (s ∈ schemas1)) as [Hin | Hnin];
    destruct (decide (s ∈ schemas2)) as [Hin' | Hnin']; try reflexivity; exfalso.
  - apply Hnin', Hsame, Hin.
  - apply Hnin, Hsame, Hin'.
Qed.

Lemma listed_ids (schemas : list Schema) (acc : list string) :
  foldl (fun ids i => (ids ++ [SchemaId i])%list) acc schemas
  = (acc ++ map SchemaId schemas)%list.
Proof.
  revert acc. induction schemas as [|i schemas IH]; intros acc; cbn.
  - now rewrite app_nil_r.
  - rewrite IH, <- app_assoc. reflexivity.
Qed.

(** DownloadAll returns the empty map when the schemas cannot be listed;
    otherwise the map has an entry for a schema exactly when the schema is
    listed and its fetch returns at least one object, and the entry is what
    convertAllObjects makes of the objects. *)
Theorem DownloadAll_entries (d : Downloader) (listed : result (list Schema))
    (projectName s : string) (configs : list config.Config) :
  DownloadAll d listed projectName !! s = Some configs <->
  exists (schemas : list Schema) (objects : list client.DownloadSettingsObject),
    listed = Ok schemas /\
    s ∈ map SchemaId schemas /\
    ListSettings (client_ d) s = Ok objects /\
    objects <> [] /\
    configs = convertAllObjects d objects projectName.
Proof.
  unfold DownloadAll. destruct listed as [schemas | err].
  - cbv zeta. rewrite listed_ids. cbn [app]. unfold download.
    rewrite downloadIn_lookup. unfold assigned. split.
    + destruct (decide (s ∈ map SchemaId schemas)) as [Hin | Hnin]; [| discriminate].
      destruct (ListSettings (client_ d) s) as [[|o objects] | err]; cbn;
        try discriminate.
      intros Heq. injection Heq as <-.
      exists schemas, (o :: objects). repeat split; try assumption. discriminate.
    + intros (schemas' & objects & Heq & Hin & Hlist & Hne & ->).
      injection Heq as <-.
      destruct (decide (s ∈ map SchemaId schemas)) as [_ | Hnin]; [| contradiction].
      rewrite Hlist. destruct objects; [congruence | reflexivity].
  - rewrite lookup_empty. split; [discriminate |].
    intros (schemas & objects & Heq & _). discriminate.
Qed.

(** Whatever WithFilters options NewSettingsDownloader is given, the
    downloader keeps the client; its filters are those of the last option,
    and the default filters when there is none. *)
Theorem NewSettingsDownloader_last_filters_win (defaultSettingsFilters : Filters)
    (client : SettingsClient) (given : list Filters) :
  client_ (NewSettingsDownloader defaultSettingsFilters client (map WithFilters given))
  = client /\
  filters_ (NewSettingsDownloader defaultSettingsFilters client (map WithFilters given))
  = List.last given defaultSettingsFilters.
Proof.
  unfold NewSettingsDownloader.
  induction given as [|f given IH] using rev_ind; [split; reflexivity |].
  rewrite map_app, foldl_app. cbn. destruct IH as [-> _].
  split; [reflexivity |]. rewrite List.last_last. reflexivity.
Qed.

End DownloadFurther.

Section DownloadFurtherExamples.
Import settings fixtures.

(** Asking for the tags twice, before and after the presets, changes
    nothing. *)
Lemma download_depends_on_the_set_witness :
  download (Co := codec) downloader ["builtin:tags"; "builtin:presets"; "builtin:tags"]
    "project"
  = download (Co := codec) downloader ["builtin:presets"; "builtin:tags"] "project".
Proof.
  apply download_depends_on_the_set_of_schemas.
  intros s. rewrite !elem_of_cons, !elem_of_nil. tauto.
Defined.

End DownloadFurtherExamples.

(** ** delete: when Delete acts and what it returns *)
Section DeleteFurther.
Import delete.

Context {F : Formats} {Co : Collaborators}.

(** The errors of all environments are collected, none ends the loop. *)
Lemma deleteConfigs_concat (environments : list manifest.EnvironmentDefinition)
    (apis : api.ApiMap) (entriesToDelete : Entries) :
  deleteConfigs environments apis entriesToDelete
  = concat (map (fun env => deleteConfigForEnvironment env apis entriesToDelete)
                environments).
Proof.
  induction environments as [|env rest IH]; cbn; [reflexivity | now rewrite IH].
Qed.

(** What Delete does once both paths are absolute and the manifest and the
    delete file are loaded without error. *)
Lemma Delete_after_loading (fs : Fs) (deploymentManifestPath deletePath : string)
    (environmentNames : list string) (environmentGroup : string)
    (manifestPath deleteFilePath : string) (m : manifest.Manifest)
    (entriesToDelete : Entries) :
  Abs deploymentManifestPath = Ok manifestPath ->
  Abs deletePath = Ok deleteFilePath ->
  LoadManifest fs manifestPath = (m, []) ->
  LoadEntriesToDelete fs (GetApiNames NewApis)
    (ReplaceAll deleteFilePath "delete.yaml" "") "delete.yaml" = (entriesToDelete, []) ->
  Delete fs deploymentManifestPath deletePath environmentNames environmentGroup
  = match selectEnvironments m environmentNames environmentGroup with
    | Err err => mkOutcome (Some err) []
    | Ok environments =>
        let selected := (map_to_list environments).*2 in
        let deleteErrors := deleteConfigs selected NewApis entriesToDelete in
        mkOutcome
          (if Nat.ltb 0 (length deleteErrors)
           then Some (errorString ("encountered " ++ pretty (length deleteErrors)
                                   ++ " errors during delete"))
           else None)
          selected
    end.
Proof.
  intros Hm Hd Hload Hentries. unfold Delete. rewrite Hm, Hd, Hload, Hentries. reflexivity.
Qed.

(** Delete acts upon an environment only after everything before the
    deletion went well: both paths were made absolute, the manifest and the
    delete file were loaded without error, and the selection succeeded; the
    environments acted upon are then exactly the selected ones. *)
Theorem Delete_acts_only_after_loading (fs : Fs)
    (deploymentManifestPath deletePath : string) (environmentNames : list string)
    (environmentGroup : string) :
  acted (Delete fs deploymentManifestPath deletePath environmentNames environmentGroup)
    <> [] ->
  exists (manifestPath deleteFilePath : string) (m : manifest.Manifest)
         (entriesToDelete : Entries) (environments : manifest.Environments),
    Abs deploymentManifestPath = Ok manifestPath /\
    Abs deletePath = Ok deleteFilePath /\
    LoadManifest fs manifestPath = (m, []) /\
    LoadEntriesToDelete fs (GetApiNames NewApis)
      (ReplaceAll deleteFilePath "delete.yaml" "") "delete.yaml" = (entriesToDelete, []) /\
    selectEnvironments m environmentNames environmentGroup = Ok environments /\
    acted (Delete fs deploymentManifestPath deletePath environmentNames environmentGroup)
    = (map_to_list environments).*2.
Proof.
  unfold Delete.
  destruct (Abs deploymentManifestPath) as [manifestPath | err] eqn:Hm;
    [| cbn; congruence].
  destruct (Abs deletePath) as [deleteFilePath | err] eqn:Hd; [| cbn; congruence].
  destruct (LoadManifest fs manifestPath) as [m manifestLoadError] eqn:Hload.
  destruct manifestLoadError; [| cbn; congruence].
  destruct (LoadEntriesToDelete _ _ _ _) as [entriesToDelete errs] eqn:Hentries.
  destruct errs; [| cbn; congruence].
  destruct (selectEnvironments m environmentNames environmentGroup)
    as [environments | err] eqn:Hsel; [| cbn; congruence].
  intros _. exists manifestPath, deleteFilePath, m, entriesToDelete, environments.
  repeat split; assumption || reflexivity.
Qed.

(** Once everything is loaded and the environments are selected, Delete
    returns no error exactly when no selected environment reports one; the
    error it returns otherwise states the number of errors of all selected
    environments together. *)
Theorem Delete_counts_the_errors (fs : Fs) (deploymentManifestPath deletePath : string)
    (environmentNames : list string) (environmentGroup : string)
    (manifestPath deleteFilePath : string) (m : manifest.Manifest)
    (entriesToDelete : Entries) (environments : manifest.Environments) :
  Abs deploymentManifestPath = Ok manifestPath ->
  Abs deletePath = Ok deleteFilePath ->
  LoadManifest fs manifestPath = (m, []) ->
  LoadEntriesToDelete fs (GetApiNames NewApis)
    (ReplaceAll deleteFilePath "delete.yaml" "") "delete.yaml" = (entriesToDelete, []) ->
  selectEnvironments m environmentNames environmentGroup = Ok environments ->
  let outcome :=
    Delete fs deploymentManifestPath deletePath environmentNames environmentGroup in
  let total :=
    length (concat (map (fun env => deleteConfigForEnvironment env NewApis entriesToDelete)
                        (acted outcome))) in
  acted outcome = (map_to_list environments).*2 /\
  (returned outcome = None <->
   Forall (fun env => deleteConfigForEnvironment env NewApis entriesToDelete = [])
          (acted outcome)) /\
  (returned outcome <> None ->
   returned outcome
   = Some (errorString ("encountered " ++ pretty total ++ " errors during delete"))).
Proof.
  intros Hm Hd Hload Hentries Hsel outcome total. subst outcome total.
  rewrite (Delete_after_loading _ _ _ _ _ _ _ _ _ Hm Hd Hload Hentries), Hsel.
  cbv zeta. cbn [acted returned]. rewrite deleteConfigs_concat.
  set (selected := (map_to_list environments).*2).
  set (all := concat (map (fun env => deleteConfigForEnvironment env NewApis entriesToDelete)
                          selected)).
  assert (all = [] <->
          Forall (fun env => deleteConfigForEnvironment env NewApis entriesToDelete = [])
                 selected) as Hall.
  { subst all. induction selected as [|env rest IH]; cbn.
    - split; [constructor | reflexivity].
    - split.
      + intros Hnil. apply app_eq_nil in Hnil as [H1 H2]. constructor; [assumption |].
        apply IH. assumption.
      + intros Hf. inversion Hf as [|? ? H1 H2]; subst. rewrite H1. cbn. apply IH.
        assumption. }
  split; [reflexivity |]. split.
  - rewrite <- Hall. destruct all; cbn; split; congruence.
  - destruct all; cbn; [congruence | reflexivity].
Qed.

(** Without names the group filter decides: no group selects every
    environment of the manifest, a group selects its environments, and a
    group without environments is an error. *)
Theorem selection_without_names (m : manifest.Manifest) (environmentGroup : string) :
  selectEnvironments m [] environmentGroup
  = if decide (environmentGroup = "") then Ok (manifest.Environments_ m)
    else if decide (FilterByGroup (manifest.Environments_ m) environmentGroup = ∅)
         then Err (errorString ("no environments in group " ++ Quote environmentGroup))
         else Ok (FilterByGroup (manifest.Environments_ m) environmentGroup).
Proof.
  unfold selectEnvironments. cbn.
  destruct (decide (environmentGroup = "")); [reflexivity |].
  destruct (decide (FilterByGroup (manifest.Environments_ m) environmentGroup = ∅))
    as [Hempty | Hne].
  - rewrite Hempty, map_size_empty. reflexivity.
  - destruct (Nat.eqb_spec (size (FilterByGroup (manifest.Environments_ m) environmentGroup)) 0)
      as [Hsize | Hsize]; [| reflexivity].
    apply map_size_empty_iff in Hsize. contradiction.
Qed.

End DeleteFurther.

Section DeleteFurtherExamples.
Import delete fixtures.

(** With the group dev and no names, dev-1 and dev-2 are acted upon, and
    everything was loaded. *)
Lemma Delete_acts_only_after_loading_witness :
  exists environments : manifest.Environments,
    selectEnvironments (F := formats) (Co := collaborators) loaded [] "dev" = Ok environments /\
    acted (Delete (F := formats) (Co := collaborators) tt "manifest.yaml" "delete.yaml"
             [] "dev") = (map_to_list environments).*2.
Proof.
  destruct (Delete_acts_only_after_loading (F := formats) (Co := collaborators)
              tt "manifest.yaml" "delete.yaml" [] "dev")
    as (manifestPath & deleteFilePath & m & entries & environments
        & _ & _ & Hload & _ & Hsel & Hacted).
  - vm_compute. discriminate.
  - injection Hload as <-. exists environments. split; assumption.
Defined.

(** The same run returns no error: the tenant of the fixtures deletes what it
    is asked to. *)
Lemma Delete_counts_the_errors_witness :
  returned (Delete (F := formats) (Co := collaborators) tt "manifest.yaml" "delete.yaml"
              [] "dev") = None.
Proof.
  destruct (Delete_counts_the_errors (F := formats) (Co := collaborators)
              tt "manifest.yaml" "delete.yaml" [] "dev" "manifest.yaml" "delete.yaml"
              loaded tt (filterByGroup (manifest.Environments_ loaded) "dev")
              eq_refl eq_refl eq_refl eq_refl)
    as (_ & Hnone & _).
  - vm_compute. reflexivity.
  - apply Hnone. apply Forall_forall. intros env _. reflexivity.
Defined.

End DeleteFurtherExamples.

(** ** downloader: the filters of the classic download *)
Section FilterProperties.
Import downloader.

Lemma filterOf_cases (id : string) :
  filterOf id
  = if decide (id = "dashboard")
    then mkApiFilter (Some dashboardSkippedPreDownload) (Some dashboardPersisted)
    else if decide (id = "synthetic-location")
         then mkApiFilter None (Some syntheticLocationPersisted)
         else mkApiFilter None None.
Proof.
  unfold filterOf, apiFilters.
  destruct (decide (id = "dashboard")) as [-> | Hd].
  - rewrite lookup_insert_eq. reflexivity.
  - rewrite lookup_insert_ne by congruence.
    destruct (decide (id = "synthetic-location")) as [-> | Hs].
    + rewrite lookup_insert_eq. reflexivity.
    + rewrite lookup_insert_ne by congruence. rewrite lookup_empty. reflexivity.
Qed.

(** A config is skipped before its download exactly when it is a dashboard
    owned by "Dynatrace"; a dashboard without owner and every config of
    another API is downloaded. *)
Theorem only_Dynatrace_dashboards_are_skipped (a : api.Api) (value : Value) :
  shouldConfigBeSkipped a value = true <->
  api.GetId a = "dashboard" /\ Owner value = Some "Dynatrace".
Proof.
  unfold shouldConfigBeSkipped. rewrite filterOf_cases.
  destruct (decide (api.GetId a = "dashboard")) as [Hd | Hd]; cbn.
  - unfold dashboardSkippedPreDownload. destruct (Owner value) as [owner |].
    + rewrite bool_decide_eq_true. split; [intros ->; auto | intros [_ [= ->]]; reflexivity].
    + split; [discriminate | intros [_ [=]]].
  - destruct (decide (api.GetId a = "synthetic-location")); cbn;
      (split; [discriminate | intros [? _]; contradiction]).
Qed.

(** For every API other than dashboard, shouldConfigBePersisted returns
    without panic, and it keeps every config except a synthetic location whose
    [type] is the string "PRIVATE". *)
Theorem only_private_locations_are_dropped (a : api.Api) (json : gmap string JSON) :
  api.GetId a <> "dashboard" ->
  exists keep : bool,
    shouldConfigBePersisted a json = Returns keep /\
    (keep = false <->
     api.GetId a = "synthetic-location" /\ json !! "type" = Some (JString "PRIVATE")).
Proof.
  intros Hd. unfold shouldConfigBePersisted. rewrite filterOf_cases.
  destruct (decide (api.GetId a = "dashboard")); [contradiction |].
  destruct (decide (api.GetId a = "synthetic-location")) as [Hs | Hs]; cbn.
  - unfold syntheticLocationPersisted, index. eexists. split; [reflexivity |].
    destruct (json !! "type") as [[| ? | ? | s | ? | ?] |]; cbn;
      try (split; [discriminate | intros [_ [=]]]).
    rewrite negb_false_iff, bool_decide_eq_true.
    split; [intros ->; auto | intros [_ [= ->]]; reflexivity].
  - exists true. split; [reflexivity |]. split; [discriminate | intros [? _]; contradiction].
Qed.

(** For a dashboard, shouldConfigBePersisted panics exactly when
    [dashboardMetadata] is present, not null and not an object; it drops the
    dashboard exactly when the metadata is an object whose [preset] is the
    bool true; in every other case it keeps the dashboard. *)
Theorem dashboards_are_dropped_iff_preset (a : api.Api) (json : gmap string JSON) :
  api.GetId a = "dashboard" ->
  (shouldConfigBePersisted a json = Panics <->
   exists v : JSON,
     json !! "dashboardMetadata" = Some v /\ v <> JNull /\
     forall metadata, v <> JObject metadata) /\
  (shouldConfigBePersisted a json = Returns false <->
   exists metadata : gmap string JSON,
     json !! "dashboardMetadata" = Some (JObject metadata) /\
     metadata !! "preset" = Some (JBool true)) /\
  (shouldConfigBePersisted a json <> Panics ->
   shouldConfigBePersisted a json <> Returns false ->
   shouldConfigBePersisted a json = Returns true).
Proof.
  intros Hd. unfold shouldConfigBePersisted. rewrite filterOf_cases.
  destruct (decide (api.GetId a = "dashboard")); [| contradiction]. cbn.
  unfold dashboardPersisted, index.
  destruct (json !! "dashboardMetadata") as [[| b | lit | s | items | metadata] |]; cbn.
  - split; [| split]; [split; [discriminate |] | split; [discriminate |] | reflexivity].
    + intros (v & [= <-] & Hne & _). congruence.
    + intros (metadata & [=] & _).
  - split; [| split]; [split; [intros _ |] | split; [discriminate |] | congruence].
    + exists (JBool b). repeat split; congruence.
    + reflexivity.
    + intros (metadata & [=] & _).
  - split; [| split]; [split; [intros _ |] | split; [discriminate |] | congruence].
    + exists (JNumber lit). repeat split; congruence.
    + reflexivity.
    + intros (metadata & [=] & _).
  - split; [| split]; [split; [intros _ |] | split; [discriminate |] | congruence].
    + exists (JString s). repeat split; congruence.
    + reflexivity.
    + intros (metadata & [=] & _).
  - split; [| split]; [split; [intros _ |] | split; [discriminate |] | congruence].
    + exists (JArray items). repeat split; congruence.
    + reflexivity.
    + intros (metadata & [=] & _).
  - assert ((notNil (default JNull (metadata !! "preset"))
             && isTrue (default JNull (metadata !! "preset"))) = true
            <-> metadata !! "preset" = Some (JBool true)) as Hpreset.
    { destruct (metadata !! "preset") as [[| [|] | ? | ? | ? | ?] |]; cbn;
        split; congruence. }
    destruct (notNil _ && isTrue _) eqn:Hp.
    + split; [| split]; [split; [discriminate |] | split | congruence].
      * intros (v & [= <-] & _ & Hobj). exfalso. eapply Hobj. reflexivity.
      * intros _. exists metadata. split; [reflexivity | apply Hpreset; reflexivity].
      * reflexivity.
    + split; [| split]; [split; [discriminate |] | split; [discriminate |] | reflexivity].
      * intros (v & [= <-] & _ & Hobj). exfalso. eapply Hobj. reflexivity.
      * intros (metadata' & [= <-] & Hsome). apply Hpreset in Hsome. congruence.
  - split; [| split]; [split; [discriminate |] | split; [discriminate |] | reflexivity].
    + intros (v & [=] & _).
    + intros (metadata & [=] & _).
Qed.

End FilterProperties.

Section FilterExamples.
Import downloader fixtures.

(** A private synthetic location is dropped, a preset dashboard is dropped,
    and a dashboard whose metadata is a string makes the filter panic. *)
Lemma only_private_locations_witness :
  shouldConfigBePersisted (api.mk "synthetic-location" false "")
    {[ "type" := JString "PRIVATE" ]} = Returns false.
Proof.
  destruct (only_private_locations_are_dropped (api.mk "synthetic-location" false "")
              {[ "type" := JString "PRIVATE" ]}) as (keep & -> & Hkeep).
  - discriminate.
  - f_equal. apply Hkeep. split; reflexivity.
Defined.

Lemma dashboards_are_dropped_witness :
  shouldConfigBePersisted dashboard presetDashboard = Returns false /\
  shouldConfigBePersisted dashboard malformedDashboard = Panics.
Proof.
  split.
  - apply (dashboards_are_dropped_iff_preset dashboard presetDashboard eq_refl).
    eexists. split; vm_compute; reflexivity.
  - apply (dashboards_are_dropped_iff_preset dashboard malformedDashboard eq_refl).
    exists (JString "Home"). split; [vm_compute; reflexivity |].
    split; discriminate.
Defined.

End FilterExamples.

(** ** project: paths *)
Section PathProperties.
Import project.

Variable PathSeparator : ascii.

Local Abbreviation Split := (Split PathSeparator).
Local Abbreviation Join := (Join PathSeparator).
Local Abbreviation isName := (isName PathSeparator).
Local Abbreviation separator := (separator PathSeparator).

Lemma Split_not_nil (s : string) : Split s <> [].
Proof.
  destruct s as [|c rest]; cbn; [discriminate |].
  destruct (Ascii.eqb c PathSeparator); [discriminate |].
  destruct (project.Split PathSeparator rest); discriminate.
Qed.

Lemma Split_cons_other (c : ascii) (rest : string) :
  Ascii.eqb c PathSeparator = false ->
  exists first others,
    Split rest = first :: others /\ Split (String c rest) = String c first :: others.
Proof.
  intros Hc. cbn. rewrite Hc.
  destruct (project.Split PathSeparator rest) as [|first others] eqn:Hs.
  - exfalso. revert Hs. apply Split_not_nil.
  - eauto.
Qed.

Lemma Join_cons_char (c : ascii) (first : string) (others : list string) :
  Join (String c first :: others) = String c (Join (first :: others)).
Proof. destruct others; reflexivity. Qed.

(** Joining the pieces of a path gives the path back. *)
Lemma Join_Split (s : string) : Join (Split s) = s.
Proof.
  induction s as [|c rest IH]; [reflexivity |].
  destruct (Ascii.eqb c PathSeparator) eqn:Hc.
  - cbn [project.Split]. rewrite Hc. apply Ascii.eqb_eq in Hc. subst c.
    destruct (project.Split PathSeparator rest) as [|first others] eqn:Hs.
    + exfalso. revert Hs. apply Split_not_nil.
    + change (Join (EmptyString :: first :: others))
        with (String PathSeparator (Join (first :: others))).
      rewrite IH. reflexivity.
  - destruct (Split_cons_other c rest Hc) as (first & others & Hs & ->).
    rewrite Join_cons_char. rewrite Hs in IH. rewrite IH. reflexivity.
Qed.

(** A path without separator is one piece, and only such a path is. *)
Lemma Split_length_le_1 (s : string) : length (Split s) <= 1 <-> isName s = true.
Proof.
  induction s as [|c rest IH]; [cbn; split; auto |].
  destruct (Ascii.eqb c PathSeparator) eqn:Hc.
  - cbn. rewrite Hc. cbn. pose proof (Split_not_nil rest).
    destruct (project.Split PathSeparator rest); [contradiction |].
    cbn. split; [lia | discriminate].
  - destruct (Split_cons_other c rest Hc) as (first & others & Hs & ->).
    cbn [project.isName]. rewrite Hc. cbn. rewrite <- IH, Hs. reflexivity.
Qed.

Lemma Split_name (s : string) : isName s = true -> Split s = [s].
Proof.
  intros Hn. pose proof (Join_Split s) as Hj. apply Split_length_le_1 in Hn.
  pose proof (Split_not_nil s).
  destruct (project.Split PathSeparator s) as [|first [|second others]];
    [contradiction | | cbn in Hn; lia].
  cbn in Hj. subst first. reflexivity.
Qed.

(** The pieces of [dir/file] are the pieces of [dir] and the file name. *)
Lemma Split_snoc (dir file : string) :
  isName file = true ->
  Split (dir ++ separator ++ file) = (Split dir ++ [file])%list.
Proof.
  intros Hf. induction dir as [|c dir IH].
  - change (EmptyString ++ separator ++ file) with (String PathSeparator file).
    cbn [project.Split]. rewrite Ascii.eqb_refl, (Split_name file Hf). reflexivity.
  - change (String c dir ++ separator ++ file) with (String c (dir ++ separator ++ file)).
    destruct (Ascii.eqb c PathSeparator) eqn:Hc.
    + cbn [project.Split]. rewrite Hc, IH. reflexivity.
    + destruct (Split_cons_other c dir Hc) as (first & others & Hs & ->).
      cbn [project.Split]. rewrite Hc, IH, Hs. reflexivity.
Qed.

(** The pieces of joined names are the names. *)
Lemma Split_Join (names : list string) :
  names <> [] -> Forall (fun n => isName n = true) names -> Split (Join names) = names.
Proof.
  intros Hne Hall. induction Hall as [|n rest Hn Hrest IH]; [congruence |].
  destruct rest as [|n' rest]; [apply Split_name; assumption |].
  change (Join (n :: n' :: rest)) with (n ++ separator ++ Join (n' :: rest)).
  clear Hne. revert IH. generalize (Join (n' :: rest)). intros tail IH.
  specialize (IH ltac:(discriminate)).
  induction n as [|c n IHn].
  - change (EmptyString ++ separator ++ tail) with (String PathSeparator tail).
    cbn [project.Split]. rewrite Ascii.eqb_refl, IH. reflexivity.
  - cbn [project.isName] in Hn. apply andb_true_iff in Hn as [Hc Hn].
    apply negb_true_iff in Hc.
    change (String c n ++ separator ++ tail) with (String c (n ++ separator ++ tail)).
    cbn [project.Split]. rewrite Hc, (IHn Hn). reflexivity.
Qed.

(** removeYamlFileFromPath gives back the folder of [folder/file] for every
    folder path and every file name, and it fails exactly on a path that has
    no separator. *)
Theorem removeYamlFileFromPath_gives_the_folder :
  (forall folder file : string,
     isName file = true ->
     removeYamlFileFromPath PathSeparator (folder ++ separator ++ file) = Ok folder) /\
  (forall location : string,
     (exists err, removeYamlFileFromPath PathSeparator location = Err err) <->
     isName location = true).
Proof.
  split.
  - intros folder file Hf. unfold removeYamlFileFromPath. cbv zeta.
    rewrite (Split_snoc folder file Hf), length_app. cbn [length].
    pose proof (Split_not_nil folder) as Hne.
    destruct (Nat.leb_spec (length (Split folder) + 1) 1) as [Hle | _].
    + destruct (project.Split PathSeparator folder); [contradiction | cbn in Hle; lia].
    + replace (length (Split folder) + 1 - 1) with (length (Split folder)) by lia.
      rewrite take_app_length, Join_Split. reflexivity.
  - intros location. unfold removeYamlFileFromPath. cbv zeta.
    rewrite <- Split_length_le_1.
    destruct (Nat.leb_spec (length (Split location)) 1) as [Hle | Hgt].
    + split; [auto | eauto].
    + split; [intros [err [=]] | lia].
Qed.

Lemma lookDown_found (apis : api.ApiMap) (a : api.Api) (split : list string)
    (folder : string) (i n : nat) :
  split !! i = Some folder ->
  apis !! folder = Some a ->
  (forall j x, i < j < n -> split !! j = Some x -> apis !! x = None) ->
  i < n ->
  lookDown apis split n = Some a.
Proof.
  intros Hi Ha. induction n as [|m IH]; intros Hnone Hlt; [lia |]. cbn [lookDown].
  destruct (decide (m = i)) as [-> | Hne].
  - rewrite Hi, Ha. reflexivity.
  - assert (lookDown apis split m = Some a) as Hm.
    { apply IH; [| lia]. intros j x Hj. apply Hnone. lia. }
    destruct (split !! m) as [x |] eqn:Hx; [| exact Hm].
    rewrite (Hnone m x ltac:(lia) Hx). exact Hm.
Qed.

Lemma lookDown_innermost (apis : api.ApiMap) (a : api.Api)
    (before : list string) (folder : string) (between rest : list string) :
  apis !! folder = Some a ->
  Forall (fun n => apis !! n = None) between ->
  lookDown apis (before ++ folder :: between ++ rest)%list
           (length before + 1 + length between) = Some a.
Proof.
  intros Ha Hnone.
  apply (lookDown_found apis a _ folder (length before)); [| assumption | | lia].
  - apply list_lookup_middle. reflexivity.
  - intros j x Hj Hx.
    rewrite lookup_app_r in Hx by lia.
    rewrite lookup_cons_ne_0 in Hx by lia.
    rewrite lookup_app_l in Hx by lia.
    apply (proj1 (Forall_forall _ _) Hnone x). apply list_elem_of_lookup. eauto.
Qed.

Lemma lookDown_none (apis : api.ApiMap) (split : list string) (n : nat) :
  Forall (fun x => apis !! x = None) (take n split) -> lookDown apis split n = None.
Proof.
  induction n as [|i IH]; intros Hnone; [reflexivity |]. cbn [lookDown].
  assert (Forall (fun x => apis !! x = None) (take i split)) as Hi.
  { apply Forall_forall. intros x Hx. apply (proj1 (Forall_forall _ _) Hnone x).
    apply list_elem_of_lookup in Hx as [k Hk]. apply list_elem_of_lookup. exists k.
    apply lookup_take_Some in Hk as [Hk Hlt]. apply lookup_take_Some. split; [assumption | lia]. }
  destruct (split !! i) as [x |] eqn:Hx; [| apply IH; assumption].
  assert (apis !! x = None) as ->.
  { apply (proj1 (Forall_forall _ _) Hnone x). apply list_elem_of_lookup. exists i.
    apply lookup_take_Some. split; [assumption | lia]. }
  apply IH. assumption.
Qed.

(** In a path of folder names that ends with a file name,
    getConfigTypeFromLocation finds the API of the innermost folder that is
    named like an API: folders further out do not matter, and neither does
    the file name, even if it is the name of an API. *)
Theorem getConfigTypeFromLocation_innermost_folder (apis : api.ApiMap) (a : api.Api)
    (before : list string) (folder : string) (between : list string) (file : string) :
  Forall (fun n => isName n = true) (before ++ folder :: between ++ [file])%list ->
  apis !! folder = Some a ->
  Forall (fun n => apis !! n = None) between ->
  getConfigTypeFromLocation PathSeparator apis
    (Join (before ++ folder :: between ++ [file])%list) = Ok a.
Proof.
  intros Hnames Ha Hnone. unfold getConfigTypeFromLocation. cbv zeta.
  rewrite Split_Join by (try assumption; destruct before; discriminate).
  rewrite length_app. cbn [length]. rewrite length_app. cbn [length].
  destruct (Nat.leb_spec (length before + Datatypes.S (length between + 1)) 1); [lia |].
  replace (length before + Datatypes.S (length between + 1) - 1)
    with (length before + 1 + length between) by lia.
  rewrite (lookDown_innermost apis a before folder between [file] Ha Hnone). reflexivity.
Qed.

(** When no folder of the path is named like an API, the API is unknown,
    even if the file is named like one. *)
Theorem getConfigTypeFromLocation_unknown (apis : api.ApiMap)
    (folders : list string) (file : string) :
  folders <> [] ->
  Forall (fun n => isName n = true) (folders ++ [file])%list ->
  Forall (fun n => apis !! n = None) folders ->
  getConfigTypeFromLocation PathSeparator apis (Join (folders ++ [file])%list)
  = Err (errorString ("API was unknown. Not found in " ++ Join (folders ++ [file])%list)).
Proof.
  intros Hne Hnames Hnone. unfold getConfigTypeFromLocation. cbv zeta.
  rewrite Split_Join by (try assumption; destruct folders; discriminate).
  rewrite length_app. cbn [length].
  destruct (Nat.leb_spec (length folders + 1) 1) as [Hle | _].
  - destruct folders; [congruence | cbn in Hle; lia].
  - replace (length folders + 1 - 1) with (length folders) by lia.
    rewrite lookDown_none; [reflexivity |]. rewrite take_app_length. assumption.
Qed.

End PathProperties.

Section PathExamples.
Import project fixtures.

Lemma removeYamlFileFromPath_witness :
  removeYamlFileFromPath "/" "project/dashboard/config.yaml" = Ok "project/dashboard".
Proof.
  apply (proj1 (removeYamlFileFromPath_gives_the_folder "/") "project/dashboard" "config.yaml").
  reflexivity.
Defined.

(** The folder dashboard lies inside a folder that is named like the API
    alerting-profile: the dashboard API is found. *)
Lemma getConfigTypeFromLocation_innermost_witness :
  getConfigTypeFromLocation "/" apis "alerting-profile/dashboard/sub/dashboard.json"
  = Ok dashboard.
Proof.
  apply (getConfigTypeFromLocation_innermost_folder "/" apis dashboard
           ["alerting-profile"] "dashboard" ["sub"] "dashboard.json").
  - repeat constructor.
  - vm_compute. reflexivity.
  - repeat constructor.
Defined.

(** A file dashboard directly in the folder project: no API is found. *)
Lemma getConfigTypeFromLocation_unknown_witness :
  getConfigTypeFromLocation "/" apis "project/dashboard"
  = Err (errorString "API was unknown. Not found in project/dashboard").
Proof.
  apply (getConfigTypeFromLocation_unknown "/" apis ["project"] "dashboard").
  - discriminate.
  - repeat constructor.
  - repeat constructor.
Defined.

End PathExamples.

(** * The project builder of package project/v1 *)

Section BuilderProperties.

Variable PathSeparator : ascii.
Context {E : project.Environment}.

Local Abbreviation processTemplates := (project.processTemplates PathSeparator).
Local Abbreviation processConfigSection := (project.processConfigSection PathSeparator).
Local Abbreviation processYaml := (project.processYaml PathSeparator).
Local Abbreviation scanFolder := (project.scanFolder PathSeparator).
Local Abbreviation readFolder := (project.readFolder PathSeparator).
Local Abbreviation extends := project.extends.

Lemma extends_refl (p : project.projectBuilder) : extends p p.
Proof.
  repeat split. exists []. now rewrite app_nil_r.
Qed.

Lemma extends_trans (p q r : project.projectBuilder) :
  extends p q -> extends q r -> extends p r.
Proof.
  intros (H1 & H2 & H3 & a & Ha) (K1 & K2 & K3 & b & Hb).
  repeat split; try congruence.
  exists (a ++ b)%list. rewrite Hb, Ha. now rewrite app_assoc.
Qed.

Lemma extends_appendConfig (p : project.projectBuilder) (c : project.Config) :
  extends p (project.appendConfig p c).
Proof.
  repeat split. now exists [c].
Qed.

Lemma processTemplates_extends (templates : list (string * string)) :
  forall p properties folderPath err p',
    processTemplates p properties folderPath templates = (err, p') -> extends p p'.
Proof.
  induction templates as [| [configName location] rest IH];
    intros p properties folderPath err p' H; cbn in H.
  - inversion H; subst. apply extends_refl.
  - destruct (project.getExtendedInformationFromLocation PathSeparator p _) as [err1 a].
    destruct (project.CheckError err1 _).
    { inversion H; subst. apply extends_refl. }
    destruct (project.NewConfig _ _ _ _ _) as [c err2].
    destruct (project.CheckError err2 _).
    { inversion H; subst. apply extends_refl. }
    destruct err2.
    { inversion H; subst. apply extends_refl. }
    eapply extends_trans; [apply extends_appendConfig | eapply IH, H].
Qed.

Lemma processYaml_extends (p : project.projectBuilder) (filename : string) err p' :
  processYaml p filename = (err, p') -> extends p p'.
Proof.
  unfold project.processYaml. intros H.
  destruct (project.ReadFile filename) as [bytes err1].
  destruct (project.CheckError err1 _); [inversion H; subst; apply extends_refl |].
  destruct (project.unmarshalYaml bytes filename) as [properties err2].
  destruct (project.CheckError err2 _); [inversion H; subst; apply extends_refl |].
  destruct (project.removeYamlFileFromPath PathSeparator filename) as [folderPath | err3].
  all: destruct (project.CheckError _ _); [inversion H; subst; apply extends_refl |].
  all: unfold project.processConfigSection in H.
  all: destruct (properties !! "config") as [templates |];
    [eapply processTemplates_extends, H | inversion H; subst; apply extends_refl].
Qed.

Lemma scanFolder_extends recurse folder isProjectRoot (filesInFolder : list project.FileInfo) :
  (forall sub q r, recurse sub q = Some r -> extends q r.2) ->
  forall p err r,
    scanFolder recurse folder isProjectRoot filesInFolder p err = Some r -> extends p r.2.
Proof.
  intros Hrec. induction filesInFolder as [| file rest IH]; intros p err r H; cbn in H.
  - inversion H; subst. apply extends_refl.
  - destruct (project.IsDir file).
    + destruct (recurse _ p) as [[[e |] q] |] eqn:Hsub; try discriminate.
      * inversion H; subst. apply (Hrec _ _ _ Hsub).
      * eapply extends_trans; [apply (Hrec _ _ _ Hsub) | eapply IH, H].
    + destruct (negb isProjectRoot && project.IsYamlFileExtension (project.Name file)).
      * destruct (processYaml p _) as [e q] eqn:Hyaml.
        eapply extends_trans; [eapply processYaml_extends, Hyaml | eapply IH, H].
      * eapply IH, H.
Qed.

Lemma readFolder_extends (depth : nat) :
  forall folder isProjectRoot p err p',
    readFolder depth folder isProjectRoot p = Some (err, p') -> extends p p'.
Proof.
  induction depth as [| depth IH]; intros folder isProjectRoot p err p' H; cbn in H.
  - discriminate.
  - destruct (project.ReadDir folder) as [filesInFolder err0].
    destruct (project.CheckError err0 _).
    + inversion H; subst. apply extends_refl.
    + eapply (scanFolder_extends _ _ _ _) in H; [exact H |].
      intros sub q [e r] Hsub. eapply IH, Hsub.
Qed.

Lemma scanFolder_app_extends recurse folder isProjectRoot
    (before rest : list project.FileInfo) :
  (forall sub q r, recurse sub q = Some r -> extends q r.2) ->
  forall p err r' r'',
    scanFolder recurse folder isProjectRoot before p err = Some r' ->
    scanFolder recurse folder isProjectRoot (before ++ rest)%list p err = Some r'' ->
    extends r'.2 r''.2.
Proof.
  intros Hrec. induction before as [| file before IH]; intros p err r' r'' H' H''.
  - cbn in H'. inversion H'; subst. cbn [app] in H''.
    apply (scanFolder_extends _ _ _ _ Hrec _ _ _ H'').
  - cbn in H', H''. destruct (project.IsDir file).
    + destruct (recurse _ p) as [[[e |] q] |]; try discriminate.
      * inversion H'; inversion H''; subst. apply extends_refl.
      * apply (IH _ _ _ _ H' H'').
    + destruct (negb isProjectRoot && project.IsYamlFileExtension (project.Name file)).
      * destruct (processYaml p _) as [e q]. apply (IH _ _ _ _ H' H'').
      * apply (IH _ _ _ _ H' H'').
Qed.


Lemma processTemplates_count (Hnil : project.passesNil) (templates : list (string * string)) :
  forall p properties folderPath p',
    processTemplates p properties folderPath templates = (None, p') ->
    exists added,
      project.configs p' = (project.configs p ++ added)%list /\
      length added = length templates.
Proof.
  induction templates as [| [configName location] rest IH];
    intros p properties folderPath p' H; cbn in H.
  - inversion H; subst. exists []. now rewrite app_nil_r.
  - destruct (project.getExtendedInformationFromLocation PathSeparator p _) as [err1 a].
    destruct (project.CheckError err1 _) eqn:C1.
    { inversion H; subst. now rewrite Hnil in C1. }
    destruct (project.NewConfig _ _ _ _ _) as [c err2].
    destruct (project.CheckError err2 _) eqn:C2.
    { inversion H; subst. now rewrite Hnil in C2. }
    destruct err2; [discriminate |].
    destruct (IH _ _ _ _ H) as (added & Hadded & Hlen).
    exists (c :: added). cbn in Hadded. rewrite Hadded, <- app_assoc. cbn.
    split; [reflexivity | now rewrite Hlen].
Qed.

(** When processYaml returns no error, the parsed file has a [config]
    section and the builder has gained exactly one config for each entry of
    that section (given that [errutils.CheckError] does not report a nil
    error). *)
Theorem processYaml_adds_one_config_per_template (p p' : project.projectBuilder)
    (filename : string) :
  project.passesNil ->
  project.processYaml PathSeparator p filename = (None, p') ->
  exists templates added,
    (project.unmarshalYaml (project.ReadFile filename).1 filename).1 !! "config"
      = Some templates /\
    project.configs p' = (project.configs p ++ added)%list /\
    length added = size templates.
Proof.
  intros Hnil H. unfold project.processYaml in H.
  destruct (project.ReadFile filename) as [bytes err1]. cbn.
  destruct (project.CheckError err1 _) eqn:C1.
  { inversion H; subst. now rewrite Hnil in C1. }
  destruct (project.unmarshalYaml bytes filename) as [properties err2]. cbn.
  destruct (project.CheckError err2 _) eqn:C2.
  { inversion H; subst. now rewrite Hnil in C2. }
  assert (Hsection : processConfigSection p properties
            match project.removeYamlFileFromPath PathSeparator filename with
            | Ok folderPath => folderPath
            | Err _ => ""
            end = (None, p')).
  { destruct (project.removeYamlFileFromPath PathSeparator filename) as [folderPath | err3].
    - now rewrite Hnil in H.
    - destruct (project.CheckError (Some err3) _); [discriminate | exact H]. }
  unfold project.processConfigSection in Hsection.
  destruct (properties !! "config") as [templates |]; [| discriminate].
  destruct (processTemplates_count Hnil _ _ _ _ _ Hsection) as (added & Hadded & Hlen).
  exists templates, added. repeat split; [assumption |].
  rewrite Hlen. apply length_map_to_list.
Qed.

Lemma scanFolder_files recurse folder isProjectRoot (filesInFolder : list project.FileInfo) :
  Forall (fun file => project.IsDir file = false) filesInFolder ->
  forall p err,
    exists err' p',
      scanFolder recurse folder isProjectRoot filesInFolder p err = Some (err', p') /\
      forall recurse' rest,
        scanFolder recurse' folder isProjectRoot (filesInFolder ++ rest)%list p err
        = scanFolder recurse' folder isProjectRoot rest p' err'.
Proof.
  induction 1 as [| file rest' Hfile _ IH]; intros p err.
  - exists err, p. split; reflexivity.
  - cbn. rewrite Hfile.
    destruct (negb isProjectRoot && project.IsYamlFileExtension (project.Name file)).
    + destruct (processYaml p _) as [e q]. apply IH.
    + apply IH.
Qed.

Lemma scanFolder_project_root recurse folder (filesInFolder : list project.FileInfo) :
  Forall (fun file => project.IsDir file = false) filesInFolder ->
  forall p err, scanFolder recurse folder true filesInFolder p err = Some (err, p).
Proof.
  induction 1 as [| file rest Hfile _ IH]; intros p err; cbn.
  - reflexivity.
  - rewrite Hfile. apply IH.
Qed.

(** In the project root readFolder reads no file: when the root is listed
    without an error and holds no folder, the builder is returned as it
    was, whatever YAML files the root holds. *)
Theorem readFolder_skips_files_of_the_project_root (depth : nat) (folder : string)
    (filesInFolder : list project.FileInfo) (err : option error)
    (p : project.projectBuilder) :
  project.ReadDir folder = (filesInFolder, err) ->
  project.CheckError err ("Folder " ++ folder ++ " could not be read") = false ->
  Forall (fun file => project.IsDir file = false) filesInFolder ->
  project.readFolder PathSeparator (Datatypes.S depth) folder true p = Some (err, p).
Proof.
  intros Hdir Hcheck Hfiles. cbn. rewrite Hdir, Hcheck.
  now apply scanFolder_project_root.
Qed.

(** The error readFolder returns for a folder of files is the one of the
    last YAML file alone: when the listing ends with a YAML file, readFolder
    returns what processYaml returns for that file, and the error of any
    file before it is dropped. *)
Theorem readFolder_returns_the_error_of_the_last_file (depth : nat) (folder : string)
    (before : list project.FileInfo) (last : project.FileInfo) (err0 : option error)
    (p : project.projectBuilder) :
  project.ReadDir folder = ((before ++ [last])%list, err0) ->
  project.CheckError err0 ("Folder " ++ folder ++ " could not be read") = false ->
  Forall (fun file => project.IsDir file = false) before ->
  project.IsDir last = false ->
  project.IsYamlFileExtension (project.Name last) = true ->
  exists err' p',
    project.scanFolder PathSeparator (fun _ _ => None) folder false before p err0
      = Some (err', p') /\
    project.readFolder PathSeparator (Datatypes.S depth) folder false p
      = Some (project.processYaml PathSeparator p'
                (project.FilepathJoin folder (project.Name last))).
Proof.
  intros Hdir Hcheck Hbefore Hlast Hyaml.
  destruct (scanFolder_files (fun _ _ => None) folder false before Hbefore p err0)
    as (err' & p' & Hscan & Happ).
  exists err', p'. split; [exact Hscan |].
  cbn. rewrite Hdir, Hcheck, Happ. cbn. rewrite Hlast, Hyaml. cbn.
  now destruct (processYaml p' _).
Qed.

Lemma scanFolder_mono recurse recurse' folder isProjectRoot
    (filesInFolder : list project.FileInfo) :
  (forall sub q r, recurse sub q = Some r -> recurse' sub q = Some r) ->
  forall p err r,
    scanFolder recurse folder isProjectRoot filesInFolder p err = Some r ->
    scanFolder recurse' folder isProjectRoot filesInFolder p err = Some r.
Proof.
  intros Hrec. induction filesInFolder as [| file rest IH]; intros p err r H; cbn in *.
  - exact H.
  - destruct (project.IsDir file).
    + destruct (recurse _ p) as [[[e |] q] |] eqn:Hsub; try discriminate;
        rewrite (Hrec _ _ _ Hsub); [exact H | now apply IH].
    + destruct (negb isProjectRoot && project.IsYamlFileExtension (project.Name file)).
      * destruct (processYaml p _) as [e q]. now apply IH.
      * now apply IH.
Qed.

(** A larger bound on the depth does not change what readFolder returns. *)
Lemma readFolder_depth_mono (depth : nat) :
  forall folder isProjectRoot p r,
    readFolder depth folder isProjectRoot p = Some r ->
    readFolder (Datatypes.S depth) folder isProjectRoot p = Some r.
Proof.
  induction depth as [| depth IH]; intros folder isProjectRoot p r H.
  - discriminate.
  - change (readFolder (Datatypes.S depth) folder isProjectRoot p) with
      (let '(filesInFolder, err) := project.ReadDir folder in
       if project.CheckError err ("Folder " ++ folder ++ " could not be read")
       then Some (err, p)
       else scanFolder (fun sub p' => readFolder depth sub false p')
              folder isProjectRoot filesInFolder p err) in H.
    change (readFolder (Datatypes.S (Datatypes.S depth)) folder isProjectRoot p) with
      (let '(filesInFolder, err) := project.ReadDir folder in
       if project.CheckError err ("Folder " ++ folder ++ " could not be read")
       then Some (err, p)
       else scanFolder (fun sub p' => readFolder (Datatypes.S depth) sub false p')
              folder isProjectRoot filesInFolder p err).
    destruct (project.ReadDir folder) as [filesInFolder err].
    destruct (project.CheckError err _); [exact H |].
    eapply scanFolder_mono; [| exact H].
    intros sub q r' Hsub. now apply IH.
Qed.

End BuilderProperties.


Lemma processYaml_adds_one_config_witness :
  exists (templates : gmap string string) added,
    (project.unmarshalYaml (Environment := fixtures.environment)
       (project.ReadFile (Environment := fixtures.environment)
          "proj/dashboard/b.yaml").1 "proj/dashboard/b.yaml").1 !! "config"
      = Some templates /\
    project.configs fixtures.gathered = (project.configs fixtures.builder ++ added)%list /\
    length added = size templates.
Proof.
  apply (processYaml_adds_one_config_per_template fixtures.slash
           (E := fixtures.environment) fixtures.builder fixtures.gathered
           "proj/dashboard/b.yaml").
  - intros message. reflexivity.
  - vm_compute. reflexivity.
Defined.

Lemma readFolder_skips_files_witness :
  project.readFolder fixtures.slash (E := fixtures.environment) 1 "stray" true fixtures.builder
  = Some (None, fixtures.builder).
Proof.
  apply (readFolder_skips_files_of_the_project_root fixtures.slash
           (E := fixtures.environment) 0 "stray"
           [project.mkFileInfo "stray.yaml" false] None fixtures.builder).
  - reflexivity.
  - reflexivity.
  - repeat constructor.
Defined.

Lemma readFolder_returns_the_error_of_the_last_file_witness :
  exists err' p',
    project.scanFolder fixtures.slash (E := fixtures.environment) (fun _ _ => None)
      "proj/dashboard" false [project.mkFileInfo "a.yaml" false] fixtures.builder None
      = Some (err', p') /\
    project.readFolder fixtures.slash 1 "proj/dashboard" false fixtures.builder
      = Some (project.processYaml fixtures.slash p'
                (project.FilepathJoin (Environment := fixtures.environment)
                   "proj/dashboard" "b.yaml")).
Proof.
  apply (readFolder_returns_the_error_of_the_last_file fixtures.slash
           (E := fixtures.environment) 0 "proj/dashboard"
           [project.mkFileInfo "a.yaml" false] (project.mkFileInfo "b.yaml" false)
           None fixtures.builder).
  - reflexivity.
  - reflexivity.
  - repeat constructor.
  - reflexivity.
  - reflexivity.
Defined.
